(** * Zettelkasten MCP: notes, the Markdown codec, the SQLite repository
      and the import/export orchestration

    A shallow embedding of
      - [zettelkasten_mcp/export_import/exporter.py]  ([MarkdownExporter],
        [BulkExporter]),
      - [zettelkasten_mcp/export_import/importer.py]  ([MarkdownImporter],
        [BulkImporter]),
      - [zettelkasten_mcp/migration/migrate_to_sqlite.py]
        ([MigrationReport], [MarkdownToSQLiteMigrator]),
      - [zettelkasten_mcp/storage/sqlite_repository.py]
        ([SQLiteNoteRepository]),
    followed by the properties of the specification that were checked
    against them, and by further properties of the same code: the
    invariants of the store, its queries, the runs of the importer, the
    exporter and the migrator.

    Conventions.
      - A Python [str] is a Rocq [string]; a character is a code point
        below 256.
      - A [dict] with string keys is a [gmap string _].
      - A raised exception is [Raise msg], [msg] being [str(e)].
      - [datetime] values are naive timestamps, a [Z] (microseconds).
      - The clock ([datetime.datetime.now()]) is an argument [now] of the
        operation that reads it; where a run parses file after file and
        writes note after note ([merge_imports]), [now k] is the time of
        its reading number [k].
      - A file is read in text mode: [fs path] is what [f.read()]
        returns, in which every CR LF and every other CR of the file is
        a LF ([universal_newlines]).
      - SQLite compares a text with [LIKE] up to its first NUL ([c_str]).
      - What the program takes from libraries (YAML values, [Enum],
        [isoformat], python-frontmatter) enters through type classes that
        state the part of their contract the program relies on. *)

From Stdlib Require Import ZArith Ascii DecimalString DecimalZ DecimalN.
From stdpp Require Import base option list gmap strings sorting.

Local Open Scope Z_scope.

(** String append computes on its first argument in this file. *)
#[local] Arguments String.append !_ _ / : simpl nomatch.

(* ===================================================================== *)
(** ** Python string operations                                           *)
(* ===================================================================== *)

Module PyStr.

(** The line feed, Python's ["\n"]. *)
Definition nl : string := String "010"%char EmptyString.

(** [c.isspace()] for a code point below 256: TAB, LF, VT, FF, CR,
    FS, GS, RS, US, SPACE, NEL and NBSP. *)
Definition isspace (a : ascii) : bool :=
  let n := nat_of_ascii a in
  (((9 <=? n) && (n <=? 13)) || ((28 <=? n) && (n <=? 32))
   || (n =? 133) || (n =? 160))%nat.

(** [s.lstrip()] *)
Fixpoint lstrip (s : string) : string :=
  match s with
  | EmptyString => EmptyString
  | String a s' => if isspace a then lstrip s' else s
  end.

(** [s.rstrip()] *)
Fixpoint rstrip (s : string) : string :=
  match s with
  | EmptyString => EmptyString
  | String a s' =>
      match rstrip s' with
      | EmptyString => if isspace a then EmptyString else String a EmptyString
      | r => String a r
      end
  end.

(** [s.strip()] *)
Definition strip (s : string) : string := lstrip (rstrip s).

(** [s.startswith(p)] *)
Fixpoint startswith (s p : string) {struct p} : bool :=
  match p, s with
  | EmptyString, _ => true
  | String _ _, EmptyString => false
  | String a p', String b s' => Ascii.eqb a b && startswith s' p'
  end.

(** [sub in s] *)
Fixpoint contains (sub s : string) : bool :=
  startswith s sub ||
  match s with
  | EmptyString => false
  | String _ s' => contains sub s'
  end.

(** [s[n:]] *)
Fixpoint drop (n : nat) (s : string) : string :=
  match n, s with
  | O, _ => s
  | S _, EmptyString => EmptyString
  | S n', String _ s' => drop n' s'
  end.

(** [s.split(c)] for a one-character separator [c]. *)
Fixpoint split_char (c : ascii) (s : string) : list string :=
  match s with
  | EmptyString => [EmptyString]
  | String a s' =>
      if Ascii.eqb a c then EmptyString :: split_char c s'
      else match split_char c s' with
           | h :: t => String a h :: t
           | [] => [String a EmptyString]
           end
  end.

(** The first occurrence of [sep] in [s]: what is before it and what is
    after it. *)
Fixpoint find_split (sep s : string) : option (string * string) :=
  if startswith s sep then Some (EmptyString, drop (String.length sep) s)
  else match s with
       | EmptyString => None
       | String a s' =>
           match find_split sep s' with
           | Some (b, r) => Some (String a b, r)
           | None => None
           end
       end.

(** [s.split(sep, 1)] *)
Definition split1 (sep s : string) : list string :=
  match find_split sep s with
  | Some (b, r) => [b; r]
  | None => [s]
  end.

(** [sep.join(l)] *)
Definition join (sep : string) (l : list string) : string :=
  String.concat sep l.

(** [not s], the truth value of a string negated. *)
Definition is_empty (s : string) : bool :=
  match s with EmptyString => true | _ => false end.

(** The carriage return, Python's ["\r"]. *)
Definition cr : string := String "013"%char EmptyString.

(** What [open(path, "r")] with [read] returns for a file that holds
    [text]: in text mode the line ends CR LF and CR are read as LF. *)
Fixpoint universal_newlines (text : string) : string :=
  match text with
  | EmptyString => EmptyString
  | String a rest =>
      if Ascii.eqb a "013" then
        match rest with
        | String b rest' =>
            if Ascii.eqb b "010" then String "010" (universal_newlines rest')
            else String "010" (universal_newlines rest)
        | EmptyString => String "010" EmptyString
        end
      else String a (universal_newlines rest)
  end.

End PyStr.
Import PyStr.

(* ===================================================================== *)
(** ** Exceptions                                                         *)
(* ===================================================================== *)

Inductive result (A : Type) : Type :=
| Ok (a : A)
| Raise (msg : string).
Arguments Ok {A} a.
Arguments Raise {A} msg.

Definition rbind {A B} (r : result A) (k : A → result B) : result B :=
  match r with
  | Ok a => k a
  | Raise e => Raise e
  end.

Notation "x ←! r ; k" := (rbind r (λ x, k))
  (at level 20, r at level 100, k at level 200, right associativity,
   only parsing).

(* ===================================================================== *)
(** ** What the program takes from its libraries                          *)
(* ===================================================================== *)

(** A Python value as the YAML loader yields it and as a metadata dict
    holds it. The program observes four things of it: whether it is a
    [str], whether it is a [list], its truth value and its [str()]. The
    schema's string fields ([Note.id], [Note.title]) accept it through
    [str_field]. *)
Class PyValue (value : Type) := {
  VStr : string → value;
  as_str : value → option string;
  as_list : value → option (list value);
  truthy : value → bool;
  py_str : value → string;
  str_field : value → result string;
  as_str_VStr s : as_str (VStr s) = Some s;
  truthy_VStr s : truthy (VStr s) = negb (is_empty s);
  py_str_VStr s : py_str (VStr s) = s;
  str_field_VStr s : str_field (VStr s) = Ok s;
}.

(** A Python [Enum] whose members have string values: [enum_value m] is
    [m.value] and [enum_lookup s] is [E(s)], which raises [ValueError]
    ([None] here) when no member has the value [s]. *)
Class PyEnum (E : Type) := {
  enum_value : E → string;
  enum_lookup : string → option E;
  enum_lookup_value m : enum_lookup (enum_value m) = Some m;
  enum_lookup_Some s m : enum_lookup s = Some m → enum_value m = s;
}.

(** [datetime.isoformat] and [datetime.fromisoformat]. *)
Class IsoFormat := {
  isoformat : Z → string;
  fromisoformat : string → result Z;
  fromisoformat_isoformat t : fromisoformat (isoformat t) = Ok t;
  isoformat_nonempty t : is_empty (isoformat t) = false;
}.

(** [frontmatter.Post]: the header as a dict and the body. *)
Record Post (value : Type) := mkPost {
  post_metadata : gmap string value;
  post_content : string;
}.
Arguments mkPost {value} _ _.
Arguments post_metadata {value} _.
Arguments post_content {value} _.

(** python-frontmatter: [frontmatter.dumps] and [frontmatter.loads]. The
    loader returns the header that was dumped and the body with the white
    space around it removed. [Post(content, handler=None, **metadata)]
    takes the keys [content] and [handler] for itself, so the contract is
    stated for the other headers. *)
Class FrontMatter (value : Type) := {
  fm_dumps : Post value → string;
  fm_loads : string → result (Post value);
  fm_loads_dumps md c :
    md !! "content" = None → md !! "handler" = None →
    fm_loads (fm_dumps (mkPost md c)) = Ok (mkPost md (strip c));
}.

(* ===================================================================== *)
(** ** The data model ([zettelkasten_mcp/models/schema.py])               *)
(* ===================================================================== *)

Section Model.

Context {value : Type} `{!PyValue value}.
Context {NoteType : Type} `{!PyEnum NoteType} (PERMANENT : NoteType).
Context {LinkType : Type} `{!PyEnum LinkType} (REFERENCE : LinkType).
Context `{!IsoFormat} `{!FrontMatter value}.

(** Modelled from the spec: the schema module is not part of the
    sources at hand. A Tag is a name. *)
Record Tag := mkTag { tag_name : string }.

(** Modelled from the spec: a Link is a directed edge with source note
    id, target note id, a kind, an optional description and a creation
    timestamp (the repository writes [link.created_at or now()], so it
    may be absent). *)
Record Link := mkLink {
  source_id : string;
  target_id : string;
  link_type : LinkType;
  description : option string;
  l_created_at : option Z;
}.

(** Modelled from the spec: a Note has an id, a title, a content, a
    kind, two timestamps, a metadata dict, its tags and its ordered
    outgoing links. *)
Record Note := mkNote {
  n_id : string;
  n_title : string;
  n_content : string;
  n_note_type : NoteType;
  n_tags : list Tag;
  n_links : list Link;
  n_created_at : Z;
  n_updated_at : Z;
  n_metadata : gmap string value;
}.

(* =================================================================== *)
(** ** The encoder ([MarkdownExporter.export_note_to_markdown])         *)
(* =================================================================== *)

(** The six header entries the exporter writes first. *)
Definition export_header (note : Note) : gmap string value :=
  <["id" := VStr (n_id note)]>
  (<["title" := VStr (n_title note)]>
  (<["type" := VStr (enum_value (n_note_type note))]>
  (<["tags" := VStr (join ", " (tag_name <$> n_tags note))]>
  (<["created" := VStr (isoformat (n_created_at note))]>
  (<["updated" := VStr (isoformat (n_updated_at note))]> ∅))))).

(** [key not in metadata and key not in ["migrated_from",
    "migration_date"]]. The keys of [note.metadata] are distinct, so
    [key not in metadata] asks whether [key] is one of the six. *)
Definition export_extra_key (header : gmap string value) (key : string) : bool :=
  bool_decide (header !! key = None)
  && negb (bool_decide (key ∈ ["migrated_from"; "migration_date"])).

Definition export_metadata (note : Note) : gmap string value :=
  let header := export_header note in
  header ∪ filter (λ kv, export_extra_key header kv.1 = true) (n_metadata note).

(** One bullet of the generated Links section. *)
Definition link_line (link : Link) : string :=
  "- " +:+ enum_value (link_type link) +:+ " [[" +:+ target_id link +:+ "]]"
  +:+ match description link with
     | Some d => if is_empty d then "" else " " +:+ d
     | None => ""
     end.

Definition links_heading : string := "## Links".

Definition content_parts (note : Note) : list string :=
  strip (n_content note) ::
  (if negb (bool_decide (n_links note = []))
      && negb (contains links_heading (n_content note))
   then (nl +:+ links_heading) :: (link_line <$> n_links note)
   else []).

Definition export_post (note : Note) : Post value :=
  mkPost (export_metadata note) (join nl (content_parts note)).

Definition export_note_to_markdown (note : Note) : string :=
  fm_dumps (export_post note).

(* =================================================================== *)
(** ** The decoder of the importer
       ([MarkdownImporter.parse_note_from_markdown])                    *)
(* =================================================================== *)

(** [MarkdownImporter.import_stats] *)
Record ImportStats := mkStats {
  total_files : nat;
  imported : nat;
  updated : nat;
  skipped : nat;
  failed : nat;
  warnings : list string;
}.

Definition empty_stats : ImportStats := mkStats 0 0 0 0 0 [].

(** [self.import_stats["warnings"].append(w)] *)
Definition add_warning (stats : ImportStats) (w : string) : ImportStats :=
  mkStats (total_files stats) (imported stats) (updated stats)
          (skipped stats) (failed stats) (warnings stats ++ [w]).

(** [self.import_stats["failed"] += 1] and its siblings. *)
Definition incr_failed (stats : ImportStats) : ImportStats :=
  mkStats (total_files stats) (imported stats) (updated stats)
          (skipped stats) (S (failed stats)) (warnings stats).
Definition incr_imported (stats : ImportStats) : ImportStats :=
  mkStats (total_files stats) (S (imported stats)) (updated stats)
          (skipped stats) (failed stats) (warnings stats).
Definition incr_updated (stats : ImportStats) : ImportStats :=
  mkStats (total_files stats) (imported stats) (S (updated stats))
          (skipped stats) (failed stats) (warnings stats).
Definition incr_skipped (stats : ImportStats) : ImportStats :=
  mkStats (total_files stats) (imported stats) (updated stats)
          (S (skipped stats)) (failed stats) (warnings stats).
Definition set_total_files (n : nat) (stats : ImportStats) : ImportStats :=
  mkStats n (imported stats) (updated stats)
          (skipped stats) (failed stats) (warnings stats).

(** The body of the [if "[[" in line and "]]" in line] branch: the
    link a bullet line denotes. [line.split("[[", 1)] has two parts
    there; [parts[1].split("]]", 1)] has one part when no ["]]"]
    follows the ["[["]. *)
Definition parse_link_line (now : Z) (source : string) (line : string)
  : option Link :=
  match find_split "[[" line with
  | None => None
  | Some (before, after) =>
      let link_type_str := strip before in
      let link_type_str :=
        if startswith link_type_str "- "
        then strip (drop 2 link_type_str) else link_type_str in
      let '(target, descr) :=
        match find_split "]]" after with
        | Some (t, d) => (strip t, Some (strip d))
        | None => (strip after, None)
        end in
      let link_type := default REFERENCE (enum_lookup link_type_str) in
      Some (mkLink source target link_type descr (Some now))
  end.

(** One turn of the loop over the lines: the state is [links_section]
    and [links]. *)
Definition extract_step (now : Z) (source : string)
    (st : bool * list Link) (raw : string) : bool * list Link :=
  let line := strip raw in
  let '(links_section, links) := st in
  if startswith line "## Links" then (true, links)
  else if links_section && startswith line "## " then (false, links)
  else if links_section && startswith line "- " then
    if contains "[[" line && contains "]]" line then
      match parse_link_line now source line with
      | Some link => (links_section, links ++ [link])
      | None => st
      end
    else st
  else st.

(** [_extract_links_from_content], the same in the importer and in the
    migrator. *)
Definition extract_links_from_content (now : Z) (source : string)
    (content : string) : list Link :=
  (fold_left (extract_step now source) (split_char "010" content) (false, [])).2.

Definition reserved_keys : list string :=
  ["id"; "title"; "type"; "tags"; "created"; "updated"].

(** The tags of a header value: a string is split at commas, a list is
    stringified, anything else gives no tag. *)
Definition parse_tags (tags_data : value) : list Tag :=
  let names :=
    match as_str tags_data with
    | Some s => filter (λ t, is_empty t = false) (strip <$> split_char "," s)
    | None =>
        match as_list tags_data with
        | Some l =>
            filter (λ t, is_empty t = false) ((λ t, strip (py_str t)) <$> l)
        | None => []
        end
    end in
  mkTag <$> names.

(** [NoteType(note_type_str)]; [None] is the [ValueError]. *)
Definition lookup_note_type (note_type_str : value) : option NoteType :=
  as_str note_type_str ≫= enum_lookup.

(** [datetime.datetime.fromisoformat(v)] *)
Definition fromisoformat_value (v : value) : result Z :=
  match as_str v with
  | Some s => fromisoformat s
  | None => Raise "fromisoformat: argument must be str"
  end.

(** [metadata.get(key)] as a truth value. *)
Definition get_truthy (metadata : gmap string value) (key : string)
  : option value :=
  match metadata !! key with
  | Some v => if truthy v then Some v else None
  | None => None
  end.

(** [fromisoformat(metadata.get(key))] when the header has a value under
    [key] that counts as true, else the default. *)
Definition timestamp_or (metadata : gmap string value) (key : string)
    (dflt : result Z) : result Z :=
  match get_truthy metadata key with
  | Some s => fromisoformat_value s
  | None => dflt
  end.

Definition extra_metadata_of (metadata : gmap string value)
  : gmap string value :=
  filter (λ kv, kv.1 ∉ reserved_keys) metadata.

(** The links of the body. [Link(source_id=note_id, ...)] is built
    inside the inner [try]: when the schema refuses [note_id] as a
    string, each link is skipped. *)
Definition links_of_body (now : Z) (note_id : value) (body : string)
  : list Link :=
  match str_field note_id with
  | Ok source => extract_links_from_content now source body
  | Raise _ => []
  end.

(** The body of the [try] in [parse_note_from_markdown]: what it
    returns or raises, and the statistics as it leaves them. [fs] reads
    a file. *)
Definition try_parse_note (fs : string → result string) (now : Z)
    (file_path : string) (stats : ImportStats)
  : result (option Note) * ImportStats :=
  match fs file_path with
  | Raise e => (Raise e, stats)
  | Ok content =>
  match fm_loads content with
  | Raise e => (Raise e, stats)
  | Ok post =>
    let metadata := post_metadata post in
    match get_truthy metadata "id" with
    | None =>
        (Ok None, add_warning stats ("No ID in " +:+ file_path +:+ ", skipping"))
    | Some note_id =>
        let title :=
          default (VStr ("Untitled Note " +:+ py_str note_id))
                  (metadata !! "title") in
        let note_type_str :=
          default (VStr (enum_value PERMANENT)) (metadata !! "type") in
        let '(note_type, stats) :=
          match lookup_note_type note_type_str with
          | Some t => (t, stats)
          | None =>
              (PERMANENT,
               add_warning stats
                 ("Invalid note type '" +:+ py_str note_type_str +:+ "' in "
                  +:+ file_path +:+ ", using PERMANENT"))
          end in
        let tags := parse_tags (default (VStr "") (metadata !! "tags")) in
        let links := links_of_body now note_id (post_content post) in
        (created_at ←! timestamp_or metadata "created" (Ok now);
         updated_at ←! timestamp_or metadata "updated" (Ok created_at);
         id ←! str_field note_id;
         title ←! str_field title;
         Ok (Some (mkNote id title (post_content post) note_type tags links
                          created_at updated_at (extra_metadata_of metadata))),
         stats)
    end
  end
  end.

(** [MarkdownImporter.parse_note_from_markdown] *)
Definition parse_note_from_markdown (fs : string → result string) (now : Z)
    (file_path : string) (stats : ImportStats) : option Note * ImportStats :=
  match try_parse_note fs now file_path stats with
  | (Ok r, stats) => (r, stats)
  | (Raise e, stats) =>
      (None, add_warning stats ("Failed to parse " +:+ file_path +:+ ": " +:+ e))
  end.

(* =================================================================== *)
(** ** The decoder of the migrator
       ([MarkdownToSQLiteMigrator.parse_note_from_markdown])            *)
(* =================================================================== *)

(** [Path(p).name]: the last component of the path. *)
Definition path_name (p : string) : string :=
  List.last (split_char "/" p) "".

(** [Path(p).stem]: the name without its last suffix; a name that
    starts or ends with its only dot has no suffix. *)
Definition path_stem (p : string) : string :=
  let name := path_name p in
  let pieces := split_char "." name in
  let front := join "." (removelast pieces) in
  if is_empty front || is_empty (List.last pieces "") then name else front.

(** [MigrationReport], the part the decoder writes. *)
Record MigrationReport := mkReport {
  r_total_files : nat;
  r_successful_migrations : nat;
  r_failed_migrations : nat;
  r_warnings : list string;
  r_errors : list (string * string);
}.

(** [MigrationReport.add_warning] *)
Definition report_add_warning (report : MigrationReport) (message : string)
  : MigrationReport :=
  mkReport (r_total_files report) (r_successful_migrations report)
           (r_failed_migrations report) (r_warnings report ++ [message])
           (r_errors report).

(** The title when the header gives none: the first line of the body
    that starts with ["# "], without the marker and stripped. *)
Definition title_from_heading (body : string) : string :=
  match List.find (λ line, startswith line "# ")
                  (split_char "010" (strip body)) with
  | Some line => strip (drop 2 line)
  | None => ""
  end.

(** The warnings of the migrator's decoder. *)
Definition no_id_warning (file_path : string) : string :=
  "No ID in frontmatter for " +:+ file_path
  +:+ ", using filename: " +:+ path_stem file_path.

Definition no_title_warning (file_path title : string) : string :=
  "No title found for " +:+ file_path +:+ ", using: " +:+ title.

Definition invalid_type_warning (file_path : string) (note_type_str : value)
  : string :=
  "Invalid note type '" +:+ py_str note_type_str +:+ "' for "
  +:+ file_path +:+ ", defaulting to PERMANENT".

(** The body of the [try] in the migrator's decoder. [stat] gives
    [st_ctime] and [st_mtime] of a file as timestamps. *)
Definition try_migrate_parse (fs : string → result string)
    (stat : string → result (Z * Z)) (now : Z)
    (file_path : string) (report : MigrationReport)
  : result Note * MigrationReport :=
  match fs file_path with
  | Raise e => (Raise e, report)
  | Ok content =>
  match fm_loads content with
  | Raise e => (Raise e, report)
  | Ok post =>
    let metadata := post_metadata post in
    let '(note_id, report) :=
      match get_truthy metadata "id" with
      | Some note_id => (note_id, report)
      | None =>
          (VStr (path_stem file_path),
           report_add_warning report (no_id_warning file_path))
      end in
    let title := default (VStr "") (metadata !! "title") in
    let '(title, report) :=
      if truthy title then (title, report)
      else
        let title := title_from_heading (post_content post) in
        if is_empty title then
          let title := "Untitled Note " +:+ py_str note_id in
          (VStr title, report_add_warning report (no_title_warning file_path title))
        else (VStr title, report) in
    let note_type_str :=
      default (VStr (enum_value PERMANENT)) (metadata !! "type") in
    let '(note_type, report) :=
      match lookup_note_type note_type_str with
      | Some t => (t, report)
      | None =>
          (PERMANENT,
           report_add_warning report (invalid_type_warning file_path note_type_str))
      end in
    let tags := parse_tags (default (VStr "") (metadata !! "tags")) in
    let links := links_of_body now note_id (post_content post) in
    (created_at ←!
       timestamp_or metadata "created" (times ←! stat file_path; Ok times.1);
     updated_at ←!
       timestamp_or metadata "updated" (times ←! stat file_path; Ok times.2);
     let extra_metadata :=
       <["migration_date" := VStr (isoformat now)]>
       (<["migrated_from" := VStr file_path]> (extra_metadata_of metadata)) in
     id ←! str_field note_id;
     title ←! str_field title;
     Ok (mkNote id title (post_content post) note_type tags links
                created_at updated_at extra_metadata),
     report)
  end
  end.

(** [MarkdownToSQLiteMigrator.parse_note_from_markdown]: an exception
    is logged and gives [None]. *)
Definition migrate_parse_note_from_markdown (fs : string → result string)
    (stat : string → result (Z * Z)) (now : Z)
    (file_path : string) (report : MigrationReport)
  : option Note * MigrationReport :=
  match try_migrate_parse fs stat now file_path report with
  | (Ok note, report) => (Some note, report)
  | (Raise _, report) => (None, report)
  end.

(* =================================================================== *)
(** ** The repository ([SQLiteNoteRepository])                          *)
(* =================================================================== *)

(** Modelled from the spec: the tables of the database module, which is
    not part of the sources at hand:
    [notes(id PK, title, content, kind, created_at, updated_at,
    metadata)], [tags(id PK, name UNIQUE)], [note_tags(note_id,
    tag_id)], [links(id PK, source_id, target_id, kind, description,
    created_at)]. The kind columns hold the value of an enumeration
    member and are read back through the enumeration; the rows here
    hold the member. A tag row is its name and the association names
    the tag. Rows are in insertion order. *)
Record DBNote := mkDBNote {
  db_id : string;
  db_title : string;
  db_content : string;
  db_note_type : NoteType;
  db_created_at : Z;
  db_updated_at : Z;
  db_extra_metadata : gmap string value;
}.

Record DBLink := mkDBLink {
  dl_source_id : string;
  dl_target_id : string;
  dl_link_type : LinkType;
  dl_description : option string;
  dl_created_at : Z;
}.

Record DB := mkDB {
  notes : list DBNote;
  tags : list string;
  note_tags : list (string * string);
  links : list DBLink;
}.

Definition empty_db : DB := mkDB [] [] [] [].

(** [session.scalar(select(DBNote).where(DBNote.id == id))] *)
Definition find_note (db : DB) (id : string) : option DBNote :=
  List.find (λ row, bool_decide (db_id row = id)) (notes db).

(** [_db_note_to_note]: the tags and the outgoing links of the row are
    read from the association and from the links table. *)
Definition db_note_to_note (db : DB) (db_note : DBNote) : Note :=
  let tags :=
    (λ nt, mkTag nt.2)
      <$> filter (λ nt, nt.1 = db_id db_note) (note_tags db) in
  let links :=
    (λ db_link,
       mkLink (dl_source_id db_link) (dl_target_id db_link)
              (dl_link_type db_link) (dl_description db_link)
              (Some (dl_created_at db_link)))
      <$> filter (λ db_link, dl_source_id db_link = db_id db_note) (links db) in
  mkNote (db_id db_note) (db_title db_note) (db_content db_note)
         (db_note_type db_note) tags links
         (db_created_at db_note) (db_updated_at db_note)
         (db_extra_metadata db_note).

(** One turn of the loop over [item.tags]: the tag row is created when
    no tag has the name, and the note is associated with it. *)
Definition add_tag (id : string) (db : DB) (tag : Tag) : DB :=
  mkDB (notes db)
       (if bool_decide (tag_name tag ∈ tags db) then tags db
        else tags db ++ [tag_name tag])
       (note_tags db ++ [(id, tag_name tag)])
       (links db).

(** One turn of the loop over [item.links]: the link row is added when
    a note with the target id exists. *)
Definition add_link (now : Z) (id : string) (db : DB) (link : Link) : DB :=
  match find_note db (target_id link) with
  | Some _ =>
      mkDB (notes db) (tags db) (note_tags db)
           (links db ++
              [mkDBLink id (target_id link) (link_type link)
                        (description link)
                        (default now (l_created_at link))])
  | None => db
  end.

(** [SQLiteNoteRepository.create] *)
Definition create (now : Z) (item : Note) (db : DB) : result (Note * DB) :=
  match find_note db (n_id item) with
  | Some _ => Raise ("Note with ID " +:+ n_id item +:+ " already exists")
  | None =>
      let db_note :=
        mkDBNote (n_id item) (n_title item) (n_content item)
                 (n_note_type item) (n_created_at item) (n_updated_at item)
                 (n_metadata item) in
      let db := mkDB (notes db ++ [db_note]) (tags db) (note_tags db) (links db) in
      let db := foldl (add_tag (n_id item)) db (n_tags item) in
      let db := foldl (add_link now (n_id item)) db (n_links item) in
      Ok (db_note_to_note db db_note, db)
  end.

(** [SQLiteNoteRepository.read] *)
Definition read (db : DB) (id : string) : option Note :=
  db_note_to_note db <$> find_note db id.

(** [SQLiteNoteRepository.update] *)
Definition update (now : Z) (item : Note) (db : DB) : result (Note * DB) :=
  match find_note db (n_id item) with
  | None => Raise ("Note with ID " +:+ n_id item +:+ " not found")
  | Some old =>
      let db_note :=
        mkDBNote (db_id old) (n_title item) (n_content item)
                 (n_note_type item) (db_created_at old) now
                 (n_metadata item) in
      let db :=
        mkDB ((λ row, if bool_decide (db_id row = n_id item)
                      then db_note else row) <$> notes db)
             (tags db)
             (filter (λ nt, nt.1 ≠ n_id item) (note_tags db))
             (filter (λ db_link, dl_source_id db_link ≠ n_id item) (links db)) in
      let db := foldl (add_tag (n_id item)) db (n_tags item) in
      let db := foldl (add_link now (n_id item)) db (n_links item) in
      Ok (db_note_to_note db db_note, db)
  end.

(** [SQLiteNoteRepository.delete]. Modelled from the spec: deleting
    the row removes the note, its tag associations and the links it
    takes part in, in both directions. *)
Definition delete (id : string) (db : DB) : result DB :=
  match find_note db id with
  | None => Raise ("Note with ID " +:+ id +:+ " does not exist")
  | Some _ =>
      Ok (mkDB (filter (λ row, db_id row ≠ id) (notes db))
               (tags db)
               (filter (λ nt, nt.1 ≠ id) (note_tags db))
               (filter (λ db_link,
                          dl_source_id db_link ≠ id ∧ dl_target_id db_link ≠ id)
                       (links db)))
  end.

(** [ORDER BY updated_at DESC]: the rows from the most recently
    updated on. *)
Definition newer_first (r1 r2 : DBNote) : Prop :=
  db_updated_at r2 ≤ db_updated_at r1.

#[global] Instance newer_first_dec : RelDecision newer_first :=
  λ r1 r2, Z_le_dec (db_updated_at r2) (db_updated_at r1).

Definition order_by_updated_desc (rows : list DBNote) : list DBNote :=
  merge_sort newer_first rows.

(** [LIMIT limit OFFSET offset] of SQLite: a negative limit is no
    limit, a negative offset is no offset. *)
Definition limit_offset {A} (limit offset : Z) (rows : list A) : list A :=
  let rows := List.skipn (Z.to_nat offset) rows in
  if limit <? 0 then rows else take (Z.to_nat limit) rows.

(** [SQLiteNoteRepository.list]; [note_type] and [tag] are [None] when
    not given. *)
Definition list_notes (db : DB) (limit offset : Z)
    (note_type tag : option string) : list Note :=
  let rows := notes db in
  let rows :=
    match note_type with
    | Some t =>
        if is_empty t then rows
        else filter (λ row, enum_value (db_note_type row) = t) rows
    | None => rows
    end in
  let rows :=
    match tag with
    | Some t =>
        if is_empty t then rows
        else filter (λ row, (db_id row, t) ∈ note_tags db) rows
    | None => rows
    end in
  db_note_to_note db <$> limit_offset limit offset (order_by_updated_desc rows).

(** [SQLiteNoteRepository.get_all] *)
Definition get_all (db : DB) : list Note := list_notes db 10000 0 None None.

(** Modelled from SQL: the comparison of [LIKE], where [%] stands for
    any run of characters and [_] for any one character; there is no
    escape character. *)
Fixpoint like_match (pattern : string) : string → bool :=
  match pattern with
  | EmptyString => is_empty
  | String c pattern' =>
      if Ascii.eqb c "%" then
        fix any_run (s : string) : bool :=
          like_match pattern' s ||
          match s with
          | EmptyString => false
          | String _ s' => any_run s'
          end
      else
        λ s, match s with
             | EmptyString => false
             | String a s' =>
                 (Ascii.eqb c "_" || Ascii.eqb c a) && like_match pattern' s'
             end
  end.

(** Modelled from SQLite: the text [LIKE] sees of a value. It reads
    both the pattern and the value as C strings, which end at their
    first NUL. *)
Fixpoint c_str (s : string) : string :=
  match s with
  | EmptyString => EmptyString
  | String a s' =>
      if Ascii.eqb a "000" then EmptyString else String a (c_str s')
  end.

(** Modelled from SQLite: [x LIKE pattern]. It takes the upper and the
    lower case of an ASCII letter as equal; [ilike] lowers both sides
    first, so what is left is the comparison of the characters. *)
Definition like (pattern s : string) : bool :=
  like_match (c_str pattern) (c_str s).

(** [lower(s)] of SQLite: the letters A to Z are lowered. *)
Definition lower_char (a : ascii) : ascii :=
  let n := nat_of_ascii a in
  if ((65 <=? n) && (n <=? 90))%nat then ascii_of_nat (n + 32) else a.

Fixpoint lower (s : string) : string :=
  match s with
  | EmptyString => EmptyString
  | String a s' => String (lower_char a) (lower s')
  end.

(** [column.ilike(pattern)], that is [lower(column) LIKE
    lower(pattern)]. *)
Definition ilike (pattern s : string) : bool := like (lower pattern) (lower s).

(** The conditions of [search] on a row, as the flags enable them. *)
Definition search_conditions (db : DB) (query : string)
    (search_title search_content search_tags : bool)
  : list (DBNote → bool) :=
  let pattern := "%" +:+ query +:+ "%" in
  (if search_title then [λ row, ilike pattern (db_title row)] else [])
  ++ (if search_content then [λ row, ilike pattern (db_content row)] else [])
  ++ (if search_tags
      then [λ row,
              existsb (λ nt, bool_decide (nt.1 = db_id row) && ilike pattern nt.2)
                      (note_tags db)]
      else []).

(** [SQLiteNoteRepository.search] *)
Definition search (db : DB) (query : string) (limit : Z)
    (search_title search_content search_tags : bool) : list Note :=
  let conditions :=
    search_conditions db query search_title search_content search_tags in
  match conditions with
  | [] => []
  | _ =>
      db_note_to_note db
        <$> limit_offset limit 0
              (order_by_updated_desc
                 (filter (λ row, existsb (λ c, c row) conditions = true)
                         (notes db)))
  end.

(* =================================================================== *)
(** ** The importer ([MarkdownImporter])                                *)
(* =================================================================== *)

(** [import_single_file]: the returned flag, the database and the
    statistics afterwards. An exception of the repository is caught
    and counted. *)
Definition import_single_file (fs : string → result string) (now : Z)
    (file_path : string) (update_existing : bool)
    (st : DB * ImportStats) : bool * (DB * ImportStats) :=
  let '(db, stats) := st in
  let '(note, stats) := parse_note_from_markdown fs now file_path stats in
  match note with
  | None => (false, (db, incr_failed stats))
  | Some note =>
      let outcome :=
        match read db (n_id note) with
        | Some _ =>
            if update_existing then
              r ←! update now note db; Ok (r.2, incr_updated stats)
            else Ok (db, incr_skipped stats)
        | None =>
            r ←! create now note db; Ok (r.2, incr_imported stats)
        end in
      match outcome with
      | Ok st => (true, st)
      | Raise e =>
          (false,
           (db, add_warning (incr_failed stats)
                  ("Failed to import " +:+ file_path +:+ ": " +:+ e)))
      end
  end.

(** The files an import takes from a directory listing: those whose
    name does not start with an underscore. *)
Definition importable (md_files : list string) : list string :=
  filter (λ f, startswith (path_name f) "_" = false) md_files.

(** [import_directory], given the [*.md] files of the directory. The
    batches partition the list in order, so the files are imported one
    after the other. *)
Definition import_directory (fs : string → result string) (now : Z)
    (glob : list string) (update_existing : bool)
    (st : DB * ImportStats) : DB * ImportStats :=
  let md_files := importable glob in
  let st := (st.1, set_total_files (length md_files) st.2) in
  foldl (λ st file_path,
           (import_single_file fs now file_path update_existing st).2)
        st md_files.

(** [validate_links] *)
Definition validate_links (db : DB) : gmap string (list string) :=
  let all_notes := list_notes db 10000 0 None None in
  let note_ids : gset string := list_to_set (n_id <$> all_notes) in
  foldl (λ broken_links note,
           let broken :=
             filter (λ t, t ∉ note_ids) (target_id <$> n_links note) in
           match broken with
           | [] => broken_links
           | _ => <[n_id note := broken]> broken_links
           end)
        ∅ all_notes.

(* =================================================================== *)
(** ** Merging imports ([BulkImporter.merge_imports])                   *)
(* =================================================================== *)

(** [max(versions, key=key)]: the first of the greatest. *)
Fixpoint py_max {A} (key : A → Z) (best : A) (rest : list A) : A :=
  match rest with
  | [] => best
  | x :: rest' => py_max key (if key best <? key x then x else best) rest'
  end.

(** [min(versions, key=key)]: the first of the least. *)
Fixpoint py_min {A} (key : A → Z) (best : A) (rest : list A) : A :=
  match rest with
  | [] => best
  | x :: rest' => py_min key (if key x <? key best then x else best) rest'
  end.

(** The version the strategy selects among the versions of one id, in
    the order they were met; a version is a note and its file. *)
Definition select_version (strategy : string) (first : Note * string)
    (others : list (Note * string)) : Note * string :=
  if bool_decide (strategy = "newest") then
    py_max (λ x, n_updated_at x.1) first others
  else if bool_decide (strategy = "oldest") then
    py_min (λ x, n_updated_at x.1) first others
  else if bool_decide (strategy = "largest") then
    py_max (λ x, Z.of_nat (String.length (n_content x.1))) first others
  else first.

(** [all_notes[note.id].append((note, file_path))], the dict being in
    insertion order. *)
Fixpoint add_version (all_notes : list (string * list (Note * string)))
    (v : Note * string) : list (string * list (Note * string)) :=
  match all_notes with
  | [] => [(n_id v.1, [v])]
  | (id, versions) :: rest =>
      if bool_decide (id = n_id v.1) then (id, versions ++ [v]) :: rest
      else (id, versions) :: add_version rest v
  end.

(** The files of a directory with their numbers in the run, the first
    of them being the file number [start]. *)
Definition numbered_files (start : nat) (md_files : list string)
  : list (nat * string) :=
  zip (seq start (length md_files)) md_files.

(** The first loop: every file of every directory is parsed, in the
    order of the directories and of the files in them. A directory
    that does not exist is [None]. The decoder reads the clock at each
    call: [now k] is the time at which the file number [k] of the run
    is parsed, and [total_files] is the number of the files before
    those of the directory. *)
Definition collect_versions (fs : string → result string) (now : nat → Z)
    (import_dirs : list (option (list string))) (stats : ImportStats)
  : list (string * list (Note * string)) * nat * ImportStats :=
  foldl (λ acc import_dir,
           match import_dir with
           | None => acc
           | Some glob =>
               let md_files := importable glob in
               foldl (λ acc (file : nat * string),
                        let '(all_notes, total, stats) := acc in
                        match parse_note_from_markdown fs (now file.1) file.2
                                stats with
                        | (Some note, stats) =>
                            (add_version all_notes (note, file.2), total, stats)
                        | (None, stats) => (all_notes, total, stats)
                        end)
                     (acc.1.1, (acc.1.2 + length md_files)%nat, acc.2)
                     (numbered_files acc.1.2 md_files)
           end)
        ([], 0%nat, stats) import_dirs.

(** The second loop: one note for each id, and the number of ids that
    had several versions. *)
Definition resolve_conflicts (strategy : string)
    (all_notes : list (string * list (Note * string))) : list Note * nat :=
  foldl (λ acc entry,
           match entry.2 with
           | [] => acc
           | [v] => (acc.1 ++ [v.1], acc.2)
           | v :: others =>
               (acc.1 ++ [(select_version strategy v others).1], S acc.2)
           end)
        ([], 0%nat) all_notes.

(** The result of [merge_imports]. *)
Record MergeStats := mkMergeStats {
  m_total_files : nat;
  m_unique_notes : nat;
  m_conflicts : nat;
  m_imported : nat;
  m_failed : nat;
}.

(** [merge_imports]. The repository reads the clock at each write: the
    notes are written after the files were parsed, the note number [j]
    at the time [now (total_files + j)]. *)
Definition merge_imports (fs : string → result string) (now : nat → Z)
    (import_dirs : list (option (list string))) (strategy : string)
    (st : DB * ImportStats) : MergeStats * (DB * ImportStats) :=
  let '(all_notes, total_files, stats) :=
    collect_versions fs now import_dirs st.2 in
  let '(notes_to_import, conflicts) := resolve_conflicts strategy all_notes in
  let '(db, imported, failed) :=
    foldl (λ acc note,
             let '(db, imported, failed) := acc in
             let now := now (total_files + imported + failed)%nat in
             let outcome :=
               match read db (n_id note) with
               | Some _ => update now note db
               | None => create now note db
               end in
             match outcome with
             | Ok r => (r.2, S imported, failed)
             | Raise _ => (db, imported, S failed)
             end)
          (st.1, 0%nat, 0%nat) notes_to_import in
  (mkMergeStats total_files (length all_notes) conflicts imported failed,
   (db, stats)).

End Model.

Arguments Link : clear implicits.
Arguments Note : clear implicits.
Arguments DBNote : clear implicits.
Arguments DBLink : clear implicits.
Arguments DB : clear implicits.

(* ===================================================================== *)
(** ** Basic facts on strings                                             *)
(* ===================================================================== *)

Lemma str_app_nil_r (s : string) : s +:+ "" = s.
Proof. induction s as [|a s IH]; simpl; [done | by rewrite IH]. Qed.

Lemma str_app_assoc (s1 s2 s3 : string) : (s1 +:+ s2) +:+ s3 = s1 +:+ s2 +:+ s3.
Proof. induction s1 as [|a s1 IH]; simpl; [done | by rewrite IH]. Qed.

Lemma str_length_app (s1 s2 : string) :
  String.length (s1 +:+ s2) = (String.length s1 + String.length s2)%nat.
Proof. induction s1 as [|a s1 IH]; simpl; [done | by rewrite IH]. Qed.

(* ===================================================================== *)
(** ** A reference environment                                            *)
(* ===================================================================== *)

(** Instances of the library interfaces on which the model runs: the
    kinds the tests name, header values that are strings or null,
    timestamps printed in decimal, and a front matter layout with
    length-prefixed fields. *)
Module Ref.

Inductive NoteType := FLEETING | LITERATURE | PERMANENT.
Inductive LinkType := REFERENCE | EXTENDS | CONTRAST.

Definition note_type_value (t : NoteType) : string :=
  match t with
  | FLEETING => "fleeting"
  | LITERATURE => "literature"
  | PERMANENT => "permanent"
  end.

Definition note_type_lookup (s : string) : option NoteType :=
  if bool_decide (s = "fleeting") then Some FLEETING
  else if bool_decide (s = "literature") then Some LITERATURE
  else if bool_decide (s = "permanent") then Some PERMANENT
  else None.

Definition link_type_value (t : LinkType) : string :=
  match t with
  | REFERENCE => "reference"
  | EXTENDS => "extends"
  | CONTRAST => "contrast"
  end.

Definition link_type_lookup (s : string) : option LinkType :=
  if bool_decide (s = "reference") then Some REFERENCE
  else if bool_decide (s = "extends") then Some EXTENDS
  else if bool_decide (s = "contrast") then Some CONTRAST
  else None.

Lemma note_type_lookup_Some s m :
  note_type_lookup s = Some m → note_type_value m = s.
Proof.
  unfold note_type_lookup. repeat case_bool_decide; naive_solver.
Qed.

Lemma link_type_lookup_Some s m :
  link_type_lookup s = Some m → link_type_value m = s.
Proof.
  unfold link_type_lookup. repeat case_bool_decide; naive_solver.
Qed.

#[global] Instance note_type_enum : PyEnum NoteType :=
  Build_PyEnum NoteType note_type_value note_type_lookup
    (λ m, match m with FLEETING | LITERATURE | PERMANENT => eq_refl end)
    note_type_lookup_Some.

#[global] Instance link_type_enum : PyEnum LinkType :=
  Build_PyEnum LinkType link_type_value link_type_lookup
    (λ m, match m with REFERENCE | EXTENDS | CONTRAST => eq_refl end)
    link_type_lookup_Some.

(** Header values: a string or null. *)
Inductive yaml := YStr (s : string) | YNull.

#[global] Instance yaml_eq_dec : EqDecision yaml.
Proof. solve_decision. Defined.

#[global] Instance yaml_value : PyValue yaml :=
  Build_PyValue yaml YStr
    (λ v, match v with YStr s => Some s | YNull => None end)
    (λ _, None)
    (λ v, match v with YStr s => negb (is_empty s) | YNull => false end)
    (λ v, match v with YStr s => s | YNull => "None" end)
    (λ v, match v with
          | YStr s => Ok s
          | YNull => Raise "Input should be a valid string"
          end)
    (λ _, eq_refl) (λ _, eq_refl) (λ _, eq_refl) (λ _, eq_refl).

(** Timestamps in decimal after a ["T"]. *)
Definition ref_isoformat (t : Z) : string :=
  String "T" (DecimalString.NilEmpty.string_of_int (Z.to_int t)).

Definition ref_fromisoformat (s : string) : result Z :=
  match s with
  | String "T" s' =>
      match DecimalString.NilEmpty.int_of_string s' with
      | Some d => Ok (Z.of_int d)
      | None => Raise ("Invalid isoformat string: '" +:+ s +:+ "'")
      end
  | _ => Raise ("Invalid isoformat string: '" +:+ s +:+ "'")
  end.

Lemma ref_fromisoformat_isoformat t : ref_fromisoformat (ref_isoformat t) = Ok t.
Proof.
  unfold ref_fromisoformat, ref_isoformat.
  by rewrite DecimalString.NilEmpty.isi, DecimalZ.of_to.
Qed.

#[global] Instance ref_iso : IsoFormat :=
  Build_IsoFormat ref_isoformat ref_fromisoformat
    ref_fromisoformat_isoformat (λ _, eq_refl).

(** A field: as many ["1"] as it has characters, a ["0"], the field. *)
Fixpoint ones (n : nat) : string :=
  match n with
  | O => "0"
  | S n' => String "1" (ones n')
  end.

Definition field (s : string) : string := ones (String.length s) +:+ s.

Fixpoint take_field (n : nat) (s : string) : option (string * string) :=
  match n, s with
  | O, _ => Some ("", s)
  | S _, EmptyString => None
  | S n', String a s' =>
      match take_field n' s' with
      | Some (h, r) => Some (String a h, r)
      | None => None
      end
  end.

Fixpoint read_field (s : string) (n : nat) : option (string * string) :=
  match s with
  | String "1" s' => read_field s' (S n)
  | String "0" s' => take_field n s'
  | _ => None
  end.

Definition entry (kv : string * yaml) : string :=
  "E" +:+ field kv.1 +:+
  match kv.2 with
  | YStr s => "S" +:+ field s
  | YNull => "N"
  end.

Definition entries (l : list (string * yaml)) : string :=
  foldr (λ kv acc, entry kv +:+ acc) "." l.

Definition read_value (s : string) : option (yaml * string) :=
  match s with
  | String "S" s' =>
      match read_field s' 0 with
      | Some (v, r) => Some (YStr v, r)
      | None => None
      end
  | String "N" s' => Some (YNull, s')
  | _ => None
  end.

Fixpoint read_entries (fuel : nat) (s : string)
  : option (list (string * yaml) * string) :=
  match fuel with
  | O => None
  | S fuel' =>
      match s with
      | String "." r => Some ([], r)
      | String "E" r =>
          match read_field r 0 with
          | Some (k, r1) =>
              match read_value r1 with
              | Some (v, r2) =>
                  match read_entries fuel' r2 with
                  | Some (l, r3) => Some ((k, v) :: l, r3)
                  | None => None
                  end
              | None => None
              end
          | None => None
          end
      | _ => None
      end
  end.

Definition ref_dumps (post : Post yaml) : string :=
  entries (map_to_list (post_metadata post)) +:+ post_content post.

Definition ref_loads (text : string) : result (Post yaml) :=
  match read_entries (S (String.length text)) text with
  | Some (l, body) => Ok (mkPost (list_to_map l) (strip body))
  | None => Ok (mkPost ∅ (strip text))
  end.

Lemma take_field_app s rest :
  take_field (String.length s) (s +:+ rest) = Some (s, rest).
Proof. induction s as [|a s IH]; simpl; [done | by rewrite IH]. Qed.

Lemma read_field_ones k n s :
  read_field (ones k +:+ s) n = take_field (n + k) s.
Proof.
  revert n. induction k as [|k IH]; intros n; simpl.
  - by rewrite Nat.add_0_r.
  - rewrite IH. f_equal. lia.
Qed.

Lemma read_field_field s rest :
  read_field (field s +:+ rest) 0 = Some (s, rest).
Proof.
  unfold field. rewrite str_app_assoc, read_field_ones. apply take_field_app.
Qed.

Lemma read_entries_entries l rest fuel :
  (length l < fuel)%nat →
  read_entries fuel (entries l +:+ rest) = Some (l, rest).
Proof.
  revert fuel. induction l as [|[k v] l IH]; intros fuel Hf.
  - destruct fuel; [lia | done].
  - destruct fuel as [|fuel]; [simpl in Hf; lia |].
    cbn [entries foldr]. fold (entries l). unfold entry. cbn [fst snd].
    rewrite !str_app_assoc. cbn [String.append read_entries].
    rewrite read_field_field.
    destruct v as [s|]; cbn [String.append read_value].
    + rewrite ?str_app_assoc, read_field_field, IH; [done | simpl in Hf; lia].
    + rewrite IH; [done | simpl in Hf; lia].
Qed.

Lemma length_entries l : (length l < String.length (entries l))%nat.
Proof.
  induction l as [|kv l IH]; simpl; [lia |].
  rewrite str_length_app. unfold entry. simpl. lia.
Qed.

Lemma ref_loads_dumps md c :
  md !! "content" = None → md !! "handler" = None →
  ref_loads (ref_dumps (mkPost md c)) = Ok (mkPost md (strip c)).
Proof.
  intros _ _. unfold ref_loads, ref_dumps. cbn [post_metadata post_content].
  rewrite read_entries_entries.
  - by rewrite list_to_map_to_list.
  - rewrite str_length_app. pose proof (length_entries (map_to_list md)). lia.
Qed.

#[global] Instance ref_frontmatter : FrontMatter yaml :=
  Build_FrontMatter yaml ref_dumps ref_loads ref_loads_dumps.

End Ref.

(** Two facts on [filter]. *)
Lemma filter_all {A} (P : A → Prop) `{!∀ x, Decision (P x)} (l : list A) :
  (∀ x, x ∈ l → P x) → filter P l = l.
Proof.
  induction l as [|x l IH]; intros Hl; [done |].
  rewrite filter_cons_True by (apply Hl; left).
  rewrite IH; [done |]. intros y Hy. apply Hl. by right.
Qed.

Lemma filter_none {A} (P : A → Prop) `{!∀ x, Decision (P x)} (l : list A) :
  (∀ x, x ∈ l → ¬ P x) → filter P l = [].
Proof.
  induction l as [|x l IH]; intros Hl; [done |].
  rewrite filter_cons_False by (apply Hl; left).
  apply IH. intros y Hy. apply Hl. by right.
Qed.

(* ===================================================================== *)
(** ** Properties of the repository                                       *)
(* ===================================================================== *)

Section Repository.

Context {value : Type} `{!PyValue value}.
Context {NoteType : Type} `{!PyEnum NoteType}.
Context {LinkType : Type} `{!PyEnum LinkType}.
Context (PERMANENT : NoteType) (REFERENCE : LinkType).
Context {ISO : IsoFormat} {FM : FrontMatter value}.

#[local] Abbreviation Note := (Note value NoteType LinkType).
#[local] Abbreviation Link := (Link LinkType).
#[local] Abbreviation DB := (DB value NoteType LinkType).
#[local] Abbreviation DBLink := (DBLink LinkType).

Implicit Types (db : DB) (item : Note) (id : string) (link : Link).

(** The ids of the notes in the store. *)
Definition note_ids db : list string := db_id <$> notes db.

Lemma find_note_None db id : find_note db id = None ↔ id ∉ note_ids db.
Proof.
  unfold find_note, note_ids. induction (notes db) as [|row rows IH]; simpl.
  - split; [intros _; apply not_elem_of_nil | done].
  - case_bool_decide as Hid.
    + split; [done | intros Hn; exfalso; apply Hn; subst; left].
    + rewrite IH, not_elem_of_cons. intuition congruence.
Qed.

Lemma find_note_Some db id row :
  find_note db id = Some row → row ∈ notes db ∧ db_id row = id.
Proof.
  unfold find_note. induction (notes db) as [|r rows IH]; simpl; [done |].
  case_bool_decide as Hid.
  - intros [= <-]. split; [left | done].
  - intros H. destruct (IH H) as [? ?]. split; [by right | done].
Qed.

Lemma find_note_is_Some db id : is_Some (find_note db id) ↔ id ∈ note_ids db.
Proof.
  destruct (find_note db id) as [row|] eqn:E.
  - split; [intros _ | by eauto].
    apply find_note_Some in E as [Hin <-]. unfold note_ids.
    by apply list_elem_of_fmap_2.
  - split; [by intros [? ?] | intros Hin].
    by apply find_note_None in E.
Qed.

(** What the loop over the tags leaves untouched. *)
Lemma foldl_add_tag_notes id db (l : list Tag) :
  notes (foldl (add_tag id) db l) = notes db.
Proof. revert db. induction l as [|t l IH]; intros db; simpl; [done | by rewrite IH]. Qed.

Lemma foldl_add_tag_links id db (l : list Tag) :
  links (foldl (add_tag id) db l) = links db.
Proof. revert db. induction l as [|t l IH]; intros db; simpl; [done | by rewrite IH]. Qed.

(** The row the repository writes for a link of the note [id]. *)
Definition link_row (now : Z) id link : DBLink :=
  mkDBLink id (target_id link) (link_type link) (description link)
           (default now (l_created_at link)).

(** The link a row reads back as. *)
Definition row_link (r : DBLink) : Link :=
  mkLink (dl_source_id r) (dl_target_id r) (dl_link_type r) (dl_description r)
         (Some (dl_created_at r)).

(** The links of a note whose target exists in the store. *)
Definition kept_links db (l : list Link) : list Link :=
  filter (λ link, target_id link ∈ note_ids db) l.

Lemma add_link_notes now id db link : notes (add_link now id db link) = notes db.
Proof. unfold add_link. by destruct (find_note db (target_id link)). Qed.

Lemma find_note_ext db1 db2 id :
  notes db1 = notes db2 → find_note db1 id = find_note db2 id.
Proof. unfold find_note. by intros ->. Qed.

Lemma foldl_add_link_notes now id db (l : list Link) :
  notes (foldl (add_link now id) db l) = notes db.
Proof.
  revert db. induction l as [|x l IH]; intros db; simpl; [done |].
  by rewrite IH, add_link_notes.
Qed.

Lemma foldl_add_link_note_tags now id db (l : list Link) :
  note_tags (foldl (add_link now id) db l) = note_tags db.
Proof.
  revert db. induction l as [|x l IH]; intros db; simpl; [done |].
  rewrite IH. unfold add_link. by destruct (find_note db (target_id x)).
Qed.

(** The loop over the links appends one row for each link whose target
    exists, in the order of the links. *)
Lemma foldl_add_link_links now id db (l : list Link) :
  links (foldl (add_link now id) db l)
  = links db ++ (link_row now id <$> kept_links db l).
Proof.
  revert db. induction l as [|x l IH]; intros db; simpl.
  - by rewrite app_nil_r.
  - rewrite IH. unfold kept_links.
    assert (Hids : note_ids (add_link now id db x) = note_ids db)
      by (unfold note_ids; by rewrite add_link_notes).
    rewrite Hids, filter_cons. unfold add_link.
    destruct (find_note db (target_id x)) as [row|] eqn:E.
    + rewrite decide_True by (apply find_note_is_Some; rewrite E; eauto).
      cbn [links]. rewrite fmap_cons, <- List.app_assoc. done.
    + rewrite decide_False by (by apply find_note_None). done.
Qed.

Lemma find_snoc {A} (P : A → bool) (l : list A) (x : A) :
  List.find P l = None →
  List.find P (l ++ [x]) = if P x then Some x else None.
Proof. induction l as [|y l IH]; simpl; [done |]. by destruct (P y). Qed.

Lemma find_replace {A} (P : A → bool) (l : list A) (x old : A) :
  P x = true → List.find P l = Some old →
  List.find P ((λ y, if P y then x else y) <$> l) = Some x.
Proof.
  intros Hx. induction l as [|y l IH]; simpl; [done |].
  destruct (P y) eqn:Hy; [by rewrite Hx | by rewrite Hy].
Qed.

(** The store a successful [create] leaves. *)
Definition created_db (now : Z) item db : DB :=
  let db_note :=
    mkDBNote (n_id item) (n_title item) (n_content item) (n_note_type item)
             (n_created_at item) (n_updated_at item) (n_metadata item) in
  foldl (add_link now (n_id item))
    (foldl (add_tag (n_id item))
       (mkDB (notes db ++ [db_note]) (tags db) (note_tags db) (links db))
       (n_tags item))
    (n_links item).

Lemma create_Ok now item db :
  find_note db (n_id item) = None →
  create now item db
  = Ok (db_note_to_note (created_db now item db)
          (mkDBNote (n_id item) (n_title item) (n_content item)
             (n_note_type item) (n_created_at item) (n_updated_at item)
             (n_metadata item)),
        created_db now item db).
Proof. intros E. unfold create. by rewrite E. Qed.

Lemma create_Raise now item db row :
  find_note db (n_id item) = Some row →
  create now item db
  = Raise ("Note with ID " +:+ n_id item +:+ " already exists").
Proof. intros E. unfold create. by rewrite E. Qed.

Lemma created_db_notes now item db :
  notes (created_db now item db)
  = notes db ++ [mkDBNote (n_id item) (n_title item) (n_content item)
                   (n_note_type item) (n_created_at item) (n_updated_at item)
                   (n_metadata item)].
Proof.
  unfold created_db. by rewrite foldl_add_link_notes, foldl_add_tag_notes.
Qed.

Lemma created_db_ids now item db :
  note_ids (created_db now item db) = note_ids db ++ [n_id item].
Proof. unfold note_ids. by rewrite created_db_notes, fmap_app. Qed.

Lemma created_db_links now item db :
  links (created_db now item db)
  = links db ++
    (link_row now (n_id item)
       <$> filter (λ link, target_id link ∈ note_ids (created_db now item db))
                  (n_links item)).
Proof.
  unfold created_db at 1. rewrite foldl_add_link_links, foldl_add_tag_links.
  cbn [links]. do 2 f_equal. unfold kept_links.
  apply list_filter_iff. intros link. rewrite created_db_ids.
  unfold note_ids. rewrite foldl_add_tag_notes. cbn [notes].
  by rewrite fmap_app.
Qed.

Lemma created_db_find now item db :
  find_note db (n_id item) = None →
  find_note (created_db now item db) (n_id item)
  = Some (mkDBNote (n_id item) (n_title item) (n_content item)
            (n_note_type item) (n_created_at item) (n_updated_at item)
            (n_metadata item)).
Proof.
  intros E. unfold find_note in *. rewrite created_db_notes, find_snoc by done.
  cbn [db_id]. by rewrite bool_decide_eq_true_2.
Qed.

(** The store a successful [update] leaves, [old] being the row of the
    note before. *)
Definition updated_row (now : Z) item (old : DBNote value NoteType) :=
  mkDBNote (db_id old) (n_title item) (n_content item) (n_note_type item)
           (db_created_at old) now (n_metadata item).

Definition updated_db (now : Z) item db (old : DBNote value NoteType) : DB :=
  foldl (add_link now (n_id item))
    (foldl (add_tag (n_id item))
       (mkDB ((λ row, if bool_decide (db_id row = n_id item)
                      then updated_row now item old else row) <$> notes db)
             (tags db)
             (filter (λ nt, nt.1 ≠ n_id item) (note_tags db))
             (filter (λ db_link, dl_source_id db_link ≠ n_id item) (links db)))
       (n_tags item))
    (n_links item).

Lemma update_Ok now item db old :
  find_note db (n_id item) = Some old →
  update now item db
  = Ok (db_note_to_note (updated_db now item db old) (updated_row now item old),
        updated_db now item db old).
Proof. intros E. unfold update. by rewrite E. Qed.

Lemma update_Raise now item db :
  find_note db (n_id item) = None →
  update now item db = Raise ("Note with ID " +:+ n_id item +:+ " not found").
Proof. intros E. unfold update. by rewrite E. Qed.

Lemma updated_db_notes now item db old :
  notes (updated_db now item db old)
  = (λ row, if bool_decide (db_id row = n_id item)
            then updated_row now item old else row) <$> notes db.
Proof.
  unfold updated_db. by rewrite foldl_add_link_notes, foldl_add_tag_notes.
Qed.

Lemma updated_db_ids now item db old :
  find_note db (n_id item) = Some old →
  note_ids (updated_db now item db old) = note_ids db.
Proof.
  intros E. apply find_note_Some in E as [_ Hold].
  unfold note_ids. rewrite updated_db_notes, <- list_fmap_compose.
  apply list_fmap_ext. intros i row _. cbn.
  case_bool_decide as Hrow; [cbn; congruence | done].
Qed.

Lemma updated_db_find now item db old :
  find_note db (n_id item) = Some old →
  find_note (updated_db now item db old) (n_id item)
  = Some (updated_row now item old).
Proof.
  intros E. pose proof (find_note_Some _ _ _ E) as [_ Hold].
  unfold find_note in *. rewrite updated_db_notes.
  apply (find_replace (λ row, bool_decide (db_id row = n_id item)) _ _ old);
    [by apply bool_decide_eq_true_2 | done].
Qed.

Lemma updated_db_links now item db old :
  find_note db (n_id item) = Some old →
  links (updated_db now item db old)
  = filter (λ r, dl_source_id r ≠ n_id item) (links db) ++
    (link_row now (n_id item)
       <$> filter (λ link, target_id link ∈ note_ids db) (n_links item)).
Proof.
  intros E. unfold updated_db. rewrite foldl_add_link_links, foldl_add_tag_links.
  cbn [links]. do 2 f_equal. unfold kept_links.
  apply list_filter_iff. intros link.
  rewrite <- (updated_db_ids now item db old E).
  unfold note_ids. by rewrite updated_db_notes, foldl_add_tag_notes.
Qed.

(** The links [read] shows for a note: the rows it is the source of. *)
Lemma read_links db id note :
  read db id = Some note →
  n_links note = row_link <$> filter (λ r, dl_source_id r = id) (links db).
Proof.
  unfold read. destruct (find_note db id) as [row|] eqn:E; [|done].
  intros [= <-]. apply find_note_Some in E as [_ <-]. done.
Qed.

Lemma read_created now item db :
  find_note db (n_id item) = None →
  read (created_db now item db) (n_id item)
  = Some (db_note_to_note (created_db now item db)
            (mkDBNote (n_id item) (n_title item) (n_content item)
               (n_note_type item) (n_created_at item) (n_updated_at item)
               (n_metadata item))).
Proof. intros E. unfold read. by rewrite created_db_find. Qed.

Lemma read_updated now item db old :
  find_note db (n_id item) = Some old →
  read (updated_db now item db old) (n_id item)
  = Some (db_note_to_note (updated_db now item db old) (updated_row now item old)).
Proof. intros E. unfold read. by rewrite updated_db_find. Qed.

(** The store after a call: a call that raised has written nothing. *)
Definition store_after {A} (call : result (A * DB)) db : DB :=
  match call with
  | Ok r => r.2
  | Raise _ => db
  end.

(** The link a note shows for a link it was written with. *)
Definition stored_link (now : Z) id link : Link :=
  row_link (link_row now id link).

(** C5. [create] raises, and then with the already-exists message, exactly
    when a note with the id is in the store, and the store is then
    unchanged; [delete] raises, and then with the does-not-exist message,
    exactly when no note has the id; after a successful [delete] the id
    reads as absent and a second [delete] raises does-not-exist. *)
Theorem C5_create_delete_errors (now : Z) item db id :
  ((∃ msg, create now item db = Raise msg) ↔ n_id item ∈ note_ids db)
  ∧ (∀ msg, create now item db = Raise msg →
       msg = "Note with ID " +:+ n_id item +:+ " already exists"
       ∧ store_after (create now item db) db = db)
  ∧ ((∃ msg, delete id db = Raise msg) ↔ id ∉ note_ids db)
  ∧ (∀ msg, delete id db = Raise msg →
       msg = "Note with ID " +:+ id +:+ " does not exist")
  ∧ (∀ db', delete id db = Ok db' →
       read db' id = None
       ∧ delete id db' = Raise ("Note with ID " +:+ id +:+ " does not exist")).
Proof.
  split; [split|]; [| |split; [|split; [split|split]]].
  - intros [msg Hc]. apply find_note_is_Some.
    destruct (find_note db (n_id item)) eqn:E; [eauto |].
    by rewrite create_Ok in Hc.
  - intros [row E]%find_note_is_Some. erewrite create_Raise; eauto.
  - intros msg Hc. rewrite Hc. split; [|done].
    destruct (find_note db (n_id item)) eqn:E.
    + erewrite create_Raise in Hc by done. congruence.
    + by rewrite create_Ok in Hc.
  - intros [msg Hd]. apply find_note_None.
    unfold delete in Hd. by destruct (find_note db id).
  - intros E%find_note_None. unfold delete. rewrite E. eauto.
  - intros msg Hd. unfold delete in Hd. destruct (find_note db id); congruence.
  - intros db' Hd. unfold delete in Hd.
    destruct (find_note db id) eqn:E; [|done]. injection Hd as <-.
    assert (Hgone : ∀ nts (lks : list DBLink),
      find_note (mkDB (filter (λ row, db_id row ≠ id) (notes db)) (tags db) nts lks) id
      = None).
    { intros nts lks. apply find_note_None. unfold note_ids. cbn [notes].
      intros (row & Hid & Hrow%list_elem_of_filter)%list_elem_of_fmap.
      intuition congruence. }
    split.
    + unfold read. by rewrite Hgone.
    + unfold delete. by rewrite Hgone.
Qed.

(** C9. A successful [update] persists the time of the call as the
    updated-timestamp, whatever [updated_at] the caller supplied, and
    leaves the created-timestamp of the row; a successful [create]
    persists both timestamps as supplied; so importing a file over an
    existing note with update-existing enabled leaves the time of the
    import, not the file's timestamp. *)
Theorem C9_update_overwrites_updated_at (now : Z) item db :
  (∀ old, find_note db (n_id item) = Some old →
     ∃ note db' stored,
       update now item db = Ok (note, db')
       ∧ read db' (n_id item) = Some stored
       ∧ n_updated_at stored = now
       ∧ n_created_at stored = db_created_at old
       ∧ n_updated_at note = now
       ∧ n_created_at note = db_created_at old)
  ∧ (find_note db (n_id item) = None →
     ∃ note db' stored,
       create now item db = Ok (note, db')
       ∧ read db' (n_id item) = Some stored
       ∧ n_updated_at stored = n_updated_at item
       ∧ n_created_at stored = n_created_at item)
  ∧ (∀ fs file_path stats stats' old,
       parse_note_from_markdown PERMANENT REFERENCE fs now file_path stats
       = (Some item, stats') →
       find_note db (n_id item) = Some old →
       ∃ db' stored,
         import_single_file PERMANENT REFERENCE fs now file_path true (db, stats)
         = (true, (db', incr_updated stats'))
         ∧ read db' (n_id item) = Some stored
         ∧ n_updated_at stored = now
         ∧ n_created_at stored = db_created_at old).
Proof.
  split; [|split].
  - intros old E. eexists _, _, _. split; [by apply update_Ok |].
    split; [by apply read_updated | done].
  - intros E. eexists _, _, _. split; [by apply create_Ok |].
    split; [by apply read_created | done].
  - intros fs file_path stats stats' old Hparse E.
    eexists _, _. split; [|split; [by apply (read_updated now item db old) | done]].
    unfold import_single_file. rewrite Hparse.
    unfold read at 1. rewrite E. cbn [fmap option_fmap option_map].
    by rewrite (update_Ok now item db old E).
Qed.

(** C1. [create] and [update] write a row for a link of the note exactly
    when a note with the link's target id is in the store at that moment
    (the note being written is); the other links are dropped and the call
    returns all the same. A note created with a link to a note that does
    not exist yet reads back without it; once that note is created and
    the first is updated with the same link, it reads back with it. *)
Theorem C1_links_persisted_iff_target_exists (now : Z) item db :
  (find_note db (n_id item) = None →
     ∃ note db',
       create now item db = Ok (note, db')
       ∧ note_ids db' = note_ids db ++ [n_id item]
       ∧ links db'
         = links db ++
           (link_row now (n_id item)
              <$> filter (λ link, target_id link ∈ note_ids db') (n_links item)))
  ∧ (is_Some (find_note db (n_id item)) →
     ∃ note db',
       update now item db = Ok (note, db')
       ∧ note_ids db' = note_ids db
       ∧ links db'
         = filter (λ r, dl_source_id r ≠ n_id item) (links db) ++
           (link_row now (n_id item)
              <$> filter (λ link, target_id link ∈ note_ids db') (n_links item))
       ∧ n_links note
         = stored_link now (n_id item)
             <$> filter (λ link, target_id link ∈ note_ids db') (n_links item)
       ∧ n_links <$> read db' (n_id item) = Some (n_links note))
  ∧ (∀ (B : Note) link now2 now3,
       find_note db (n_id item) = None →
       find_note db (n_id B) = None →
       n_id item ≠ n_id B →
       (∀ r, r ∈ links db → dl_source_id r ∈ note_ids db) →
       link ∈ n_links item → target_id link = n_id B →
       ∃ a1 db1 b db2 a2 db3 read1 read3,
         create now item db = Ok (a1, db1)
         ∧ read db1 (n_id item) = Some read1
         ∧ (∀ l, l ∈ n_links read1 → target_id l ≠ n_id B)
         ∧ create now2 B db1 = Ok (b, db2)
         ∧ update now3 item db2 = Ok (a2, db3)
         ∧ read db3 (n_id item) = Some read3
         ∧ stored_link now3 (n_id item) link ∈ n_links read3).
Proof.
  split; [|split].
  - intros E. eexists _, _. split; [by apply create_Ok |].
    split; [apply created_db_ids | apply created_db_links].
  - intros [old E]. eexists _, _. split; [by apply update_Ok |].
    rewrite (updated_db_ids now item db old E).
    split; [done |]. split; [by apply updated_db_links |].
    assert (Hl : n_links (db_note_to_note (updated_db now item db old)
                            (updated_row now item old))
                 = stored_link now (n_id item)
                     <$> filter (λ link, target_id link ∈ note_ids db) (n_links item)).
    { pose proof (find_note_Some _ _ _ E) as [_ Hold].
      cbn [db_note_to_note n_links updated_row db_id].
      fold row_link. rewrite (updated_db_links now item db old E), Hold.
      rewrite filter_app, fmap_app.
      rewrite (filter_none _ (filter _ (links db))).
      2:{ intros r [Hr _]%list_elem_of_filter. done. }
      rewrite filter_all.
      2:{ by intros r (l & -> & _)%list_elem_of_fmap. }
      by rewrite <- list_fmap_compose. }
    split; [done |]. by rewrite (read_updated now item db old E).
  - intros B link now2 now3 EA EB Hne Hsrc Hlink Htgt.
    set (db1 := created_db now item db).
    assert (EB1 : find_note db1 (n_id B) = None).
    { apply find_note_None. unfold db1. rewrite created_db_ids.
      apply find_note_None in EB. rewrite elem_of_app, list_elem_of_singleton.
      intuition congruence. }
    set (db2 := created_db now2 B db1).
    assert (EA1 : find_note db1 (n_id item) = Some
              (mkDBNote (n_id item) (n_title item) (n_content item)
                 (n_note_type item) (n_created_at item) (n_updated_at item)
                 (n_metadata item))) by (by apply created_db_find).
    assert (∃ old, find_note db2 (n_id item) = Some old) as [old EA2].
    { apply find_note_is_Some. unfold db2. rewrite created_db_ids.
      apply elem_of_app. left. apply find_note_is_Some. by rewrite EA1. }
    eexists _, db1, _, db2, _, (updated_db now3 item db2 old), _, _.
    split; [by apply create_Ok |].
    split; [by apply read_created |].
    split; [|split; [by apply create_Ok |
             split; [by apply update_Ok | split; [by apply read_updated |]]]].
    + intros l Hl. cbn [db_note_to_note n_links db_id] in Hl. fold row_link in Hl.
      apply list_elem_of_fmap in Hl as (r & -> & Hr).
      apply list_elem_of_filter in Hr as [Hr1 Hr2]. cbn [row_link target_id].
      unfold db1 in Hr2. rewrite created_db_links in Hr2.
      apply elem_of_app in Hr2 as [Hr2 | Hr2].
      * exfalso. apply Hsrc in Hr2. rewrite Hr1 in Hr2.
        by apply find_note_None in EA.
      * apply list_elem_of_fmap in Hr2 as (l & -> & Hl).
        apply list_elem_of_filter in Hl as [Hl _]. cbn [link_row dl_target_id].
        intros Heq. rewrite Heq in Hl. fold db1 in Hl.
        by apply find_note_None in EB1.
    + cbn [db_note_to_note n_links updated_row db_id]. fold row_link.
      pose proof (find_note_Some _ _ _ EA2) as [_ Hold]. rewrite Hold.
      unfold stored_link. apply list_elem_of_fmap_2.
      apply list_elem_of_filter. split; [done |].
      rewrite (updated_db_links now3 item db2 old EA2).
      apply elem_of_app. right. apply list_elem_of_fmap_2.
      apply list_elem_of_filter. split; [|done].
      rewrite Htgt. unfold db2. rewrite created_db_ids.
      apply elem_of_app. right. apply list_elem_of_singleton. done.
Qed.

End Repository.

(* ===================================================================== *)
(** ** Properties of the merge                                            *)
(* ===================================================================== *)

Section Merge.

Context {value : Type} `{!PyValue value}.
Context {NoteType : Type} `{!PyEnum NoteType}.
Context {LinkType : Type} `{!PyEnum LinkType}.
Context (PERMANENT : NoteType) (REFERENCE : LinkType).
Context {ISO : IsoFormat} {FM : FrontMatter value}.

#[local] Abbreviation Note := (Note value NoteType LinkType).
#[local] Abbreviation version := (Note * string)%type.

(** [r] is the first of the elements of [l] whose key is greatest. *)
Definition first_greatest {A} (key : A → Z) (l : list A) (r : A) : Prop :=
  ∃ l1 l2, l = l1 ++ r :: l2
    ∧ (∀ y, y ∈ l1 → key y < key r) ∧ (∀ y, y ∈ l2 → key y ≤ key r).

(** [r] is the first of the elements of [l] whose key is least. *)
Definition first_least {A} (key : A → Z) (l : list A) (r : A) : Prop :=
  ∃ l1 l2, l = l1 ++ r :: l2
    ∧ (∀ y, y ∈ l1 → key r < key y) ∧ (∀ y, y ∈ l2 → key r ≤ key y).

Lemma py_max_first_greatest {A} (key : A → Z) (pre post rest : list A) best :
  (∀ y, y ∈ pre → key y < key best) →
  (∀ y, y ∈ post → key y ≤ key best) →
  first_greatest key (pre ++ best :: post ++ rest) (py_max key best rest).
Proof.
  revert pre post best. induction rest as [|x rest IH]; intros pre post best Hpre Hpost.
  - exists pre, post. by rewrite app_nil_r.
  - cbn [py_max]. destruct (key best <? key x) eqn:Hlt.
    + apply Z.ltb_lt in Hlt.
      specialize (IH (pre ++ best :: post) [] x).
      rewrite <- List.app_assoc in IH. cbn in IH. apply IH.
      * intros y [Hy | Hy]%elem_of_app; [specialize (Hpre y Hy); lia |].
        apply elem_of_cons in Hy as [-> | Hy]; [done |].
        specialize (Hpost y Hy). lia.
      * intros y Hy. by apply not_elem_of_nil in Hy.
    + apply Z.ltb_ge in Hlt.
      specialize (IH pre (post ++ [x]) best).
      rewrite <- List.app_assoc in IH. cbn in IH. apply IH; [done |].
      intros y [Hy | Hy]%elem_of_app; [by apply Hpost |].
      apply list_elem_of_singleton in Hy as ->. done.
Qed.

Lemma py_min_py_max {A} (key : A → Z) best (rest : list A) :
  py_min key best rest = py_max (λ x, - key x) best rest.
Proof.
  revert best. induction rest as [|x rest IH]; intros best; [done |].
  cbn [py_min py_max]. rewrite IH.
  replace (- key best <? - key x) with (key x <? key best); [done |].
  destruct (Z.ltb_spec (key x) (key best)), (Z.ltb_spec (- key best) (- key x));
    (done || lia).
Qed.

Lemma py_max_spec {A} (key : A → Z) best (rest : list A) :
  first_greatest key (best :: rest) (py_max key best rest).
Proof.
  apply (py_max_first_greatest key [] [] rest best);
    intros y Hy; by apply not_elem_of_nil in Hy.
Qed.

Lemma py_min_spec {A} (key : A → Z) best (rest : list A) :
  first_least key (best :: rest) (py_min key best rest).
Proof.
  rewrite py_min_py_max.
  destruct (py_max_spec (λ x, - key x) best rest) as (l1 & l2 & Heq & H1 & H2).
  exists l1, l2. split; [done |].
  split; intros y Hy; [specialize (H1 y Hy) | specialize (H2 y Hy)]; cbn in *; lia.
Qed.

(** The files of the directories in the order [merge_imports] reads
    them. *)
Definition files_in_order (import_dirs : list (option (list string)))
  : list string :=
  concat ((λ d, match d with Some glob => importable glob | None => [] end)
            <$> import_dirs).

(** The version a file gives, when it parses. *)
Definition parse_version (fs : string → result string) (now : Z)
    (file_path : string) : option version :=
  (λ note, (note, file_path))
    <$> (parse_note_from_markdown PERMANENT REFERENCE fs now file_path empty_stats).1.

(** The note the decoder returns does not depend on the statistics. *)
Lemma parse_note_stats_irrelevant fs now file_path stats :
  (parse_note_from_markdown PERMANENT REFERENCE fs now file_path stats).1
  = (parse_note_from_markdown PERMANENT REFERENCE fs now file_path empty_stats).1.
Proof.
  unfold parse_note_from_markdown, try_parse_note.
  destruct (fs file_path) as [content|e]; [|done].
  destruct (fm_loads content) as [post|e]; [|done].
  destruct (get_truthy (post_metadata post) "id") as [note_id|]; [|done].
  destruct (lookup_note_type _); cbn [fst snd];
  match goal with |- context [rbind ?r ?k] => destruct (rbind r k) end; done.
Qed.

#[local] Abbreviation groups := (list (string * list version)).

(** The dict [all_notes] groups the versions met so far: its keys are
    distinct, each key holds the versions with that id in the order they
    were met, and every version met is under its id. *)
Definition grouped (met : list version) (all_notes : groups) : Prop :=
  NoDup all_notes.*1
  ∧ (∀ id vs, (id, vs) ∈ all_notes →
       vs ≠ [] ∧ vs = filter (λ v, n_id v.1 = id) met)
  ∧ (∀ v, v ∈ met → n_id v.1 ∈ all_notes.*1).

Lemma add_version_keys (all_notes : groups) (v : version) :
  (add_version all_notes v).*1
  = if bool_decide (n_id v.1 ∈ all_notes.*1) then all_notes.*1
    else all_notes.*1 ++ [n_id v.1].
Proof.
  induction all_notes as [|[k vs] rest IH]; cbn [add_version].
  - rewrite bool_decide_eq_false_2 by apply not_elem_of_nil. done.
  - destruct (decide (k = n_id v.1)) as [Hk | Hk].
    + rewrite (bool_decide_eq_true_2 _ Hk). cbn.
      rewrite bool_decide_eq_true_2; [done |]. rewrite Hk. left.
    + rewrite (bool_decide_eq_false_2 _ Hk).
      cbn [fmap list_fmap fst]. rewrite IH.
      destruct (bool_decide (n_id v.1 ∈ rest.*1)) eqn:Hin.
      * apply bool_decide_eq_true_1 in Hin.
        rewrite bool_decide_eq_true_2 by (by right). done.
      * apply bool_decide_eq_false_1 in Hin.
        rewrite bool_decide_eq_false_2; [done |].
        intros [? | ?]%elem_of_cons; [by subst | done].
Qed.

Lemma add_version_elem (all_notes : groups) (v : version) k vs :
  NoDup all_notes.*1 →
  (k, vs) ∈ add_version all_notes v →
  (k ≠ n_id (v.1) ∧ (k, vs) ∈ all_notes)
  ∨ (k = n_id (v.1) ∧ (∃ vs0, (k, vs0) ∈ all_notes ∧ vs = vs0 ++ [v]))
  ∨ (k = n_id (v.1) ∧ (k ∉ all_notes.*1) ∧ vs = [v]).
Proof.
  induction all_notes as [|[k0 vs0] rest IH]; cbn [add_version]; intros Hnd.
  - intros [= -> ->]%list_elem_of_singleton. right; right.
    split; [done | split; [apply not_elem_of_nil | done]].
  - cbn in Hnd. apply NoDup_cons in Hnd as [Hfresh Hnd].
    destruct (decide (k0 = n_id v.1)) as [Hk | Hk];
      [rewrite (bool_decide_eq_true_2 _ Hk) | rewrite (bool_decide_eq_false_2 _ Hk)].
    + intros [[= -> ->] | Hin]%elem_of_cons.
      * right; left. split; [done |]. exists vs0. split; [left | done].
      * left. split; [|by right].
        intros ->. apply Hfresh. rewrite Hk.
        apply (list_elem_of_fmap_2 fst) in Hin. done.
    + intros [[= -> ->] | Hin]%elem_of_cons.
      * left. split; [done | left].
      * destruct (IH Hnd Hin) as [[Hne Hold] | [[-> (vs1 & Hold & ->)] | (-> & Hnew & ->)]].
        -- left. split; [done | by right].
        -- right; left. split; [done |]. exists vs1. split; [by right | done].
        -- right; right. split; [done |]. split; [|done].
           cbn. intros [? | ?]%elem_of_cons; [by subst | done].
Qed.

Lemma filter_snoc {A} (P : A → Prop) `{!∀ x, Decision (P x)} (l : list A) x :
  filter P (l ++ [x]) = filter P l ++ (if decide (P x) then [x] else []).
Proof. rewrite filter_app. f_equal. Qed.

Lemma add_version_grouped met (all_notes : groups) (v : version) :
  grouped met all_notes → grouped (met ++ [v]) (add_version all_notes v).
Proof.
  intros (Hnd & Hvs & Hmet). split; [|split].
  - rewrite add_version_keys. case_bool_decide as Hin; [done |].
    apply NoDup_app. split; [done |]. split; [|apply NoDup_singleton].
    intros x Hx ->%list_elem_of_singleton. done.
  - intros k vs Hin. rewrite filter_snoc.
    destruct (add_version_elem _ _ _ _ Hnd Hin)
      as [[Hne Hold] | [[-> (vs0 & Hold & ->)] | (-> & Hnew & ->)]].
    + destruct (Hvs _ _ Hold) as [Hne' ->]. split; [done |].
      rewrite decide_False by done. by rewrite app_nil_r.
    + destruct (Hvs _ _ Hold) as [Hne' ->]. split.
      * intros Heq. by apply app_eq_nil in Heq as [_ ?].
      * by rewrite decide_True.
    + split; [done |]. rewrite decide_True by done.
      rewrite filter_none; [done |].
      intros w Hw Heq. apply Hnew. rewrite <- Heq. by apply Hmet.
  - intros w Hw. rewrite add_version_keys.
    apply elem_of_app in Hw as [Hw | ->%list_elem_of_singleton].
    + case_bool_decide; [by apply Hmet |].
      apply elem_of_app. left. by apply Hmet.
    + case_bool_decide; [done |]. apply elem_of_app. right.
      by apply list_elem_of_singleton.
Qed.

Lemma foldl_add_version_grouped (met : list version) :
  grouped met (foldl add_version [] met).
Proof.
  induction met as [|v met IH] using rev_ind.
  - split; [apply NoDup_nil_2 |].
    split; [intros id vs Hin | intros v Hv]; by apply not_elem_of_nil in Hin || by apply not_elem_of_nil in Hv.
  - rewrite foldl_app. cbn [foldl]. by apply add_version_grouped.
Qed.

(** The versions the first loop meets among [files], the first of them
    being the file number [start] of the run. *)
Definition versions_met (fs : string → result string) (now : nat → Z)
    (start : nat) (files : list string) : list version :=
  omap (λ file : nat * string, parse_version fs (now file.1) file.2)
       (numbered_files start files).

Lemma numbered_files_app (start : nat) (l1 l2 : list string) :
  numbered_files start (l1 ++ l2)
  = numbered_files start l1 ++ numbered_files (start + length l1) l2.
Proof.
  unfold numbered_files. rewrite length_app, seq_app.
  apply zip_with_app. by rewrite length_seq.
Qed.

Lemma versions_met_app fs now (start : nat) (l1 l2 : list string) :
  versions_met fs now start (l1 ++ l2)
  = versions_met fs now start l1 ++ versions_met fs now (start + length l1) l2.
Proof. unfold versions_met. by rewrite numbered_files_app, omap_app. Qed.

(** The first loop of [merge_imports] groups the versions that parse, in
    the order of the files. *)
Lemma collect_files fs now (start : nat) (files : list string)
    (all_notes : groups) (total : nat) stats :
  let r :=
    foldl (λ (acc : groups * nat * ImportStats) (file : nat * string),
             let '(all_notes, total, stats) := acc in
             match parse_note_from_markdown PERMANENT REFERENCE fs (now file.1)
                     file.2 stats with
             | (Some note, stats) =>
                 (add_version all_notes (note, file.2), total, stats)
             | (None, stats) => (all_notes, total, stats)
             end)
          (all_notes, total, stats) (numbered_files start files) in
  r.1.1 = foldl add_version all_notes (versions_met fs now start files)
  ∧ r.1.2 = total.
Proof.
  intros r. subst r. revert start all_notes stats.
  induction files as [|f files IH]; intros start all_notes stats; [done |].
  change (numbered_files start (f :: files))
    with ((start, f) :: numbered_files (S start) files).
  cbn [foldl fst snd].
  assert (Hv : parse_version fs (now start) f
               = (λ note, (note, f))
                   <$> (parse_note_from_markdown PERMANENT REFERENCE fs
                          (now start) f stats).1)
    by (unfold parse_version;
        by rewrite (parse_note_stats_irrelevant fs (now start) f stats)).
  replace (versions_met fs now start (f :: files))
    with (match parse_version fs (now start) f with
          | Some y => y :: versions_met fs now (S start) files
          | None => versions_met fs now (S start) files
          end) by done.
  rewrite Hv.
  destruct (parse_note_from_markdown PERMANENT REFERENCE fs (now start) f stats)
    as [[note|] stats']; cbn [fst fmap option_fmap option_map foldl]; apply IH.
Qed.

Lemma collect_versions_run fs now import_dirs stats :
  let r := collect_versions PERMANENT REFERENCE fs now import_dirs stats in
  r.1.1 = foldl add_version [] (versions_met fs now 0 (files_in_order import_dirs))
  ∧ r.1.2 = length (files_in_order import_dirs).
Proof.
  cbn zeta. unfold collect_versions.
  assert (Hgen : ∀ (acc : groups * nat * ImportStats),
    let r :=
      foldl (λ (acc : groups * nat * ImportStats) import_dir,
               match import_dir with
               | None => acc
               | Some glob =>
                   let md_files := importable glob in
                   foldl (λ (acc : groups * nat * ImportStats)
                            (file : nat * string),
                            let '(all_notes, total, stats) := acc in
                            match parse_note_from_markdown PERMANENT REFERENCE fs
                                    (now file.1) file.2 stats with
                            | (Some note, stats) =>
                                (add_version all_notes (note, file.2), total, stats)
                            | (None, stats) => (all_notes, total, stats)
                            end)
                         (acc.1.1, (acc.1.2 + length md_files)%nat, acc.2)
                         (numbered_files acc.1.2 md_files)
               end)
            acc import_dirs in
    r.1.1 = foldl add_version acc.1.1
              (versions_met fs now acc.1.2 (files_in_order import_dirs))
    ∧ r.1.2 = (acc.1.2 + length (files_in_order import_dirs))%nat).
  { induction import_dirs as [|d dirs IH]; intros acc; cbn zeta.
    - cbn. split; [done | lia].
    - cbn [foldl]. unfold files_in_order. cbn [fmap list_fmap concat].
      fold (files_in_order dirs). rewrite versions_met_app, foldl_app, length_app.
      destruct d as [glob|].
      + cbn zeta.
        match goal with
        | |- context [foldl ?g (foldl ?h ?a (numbered_files _ _)) dirs] =>
            destruct (IH (foldl h a (numbered_files acc.1.2 (importable glob))))
              as [IH1 IH2];
            destruct (collect_files fs now acc.1.2 (importable glob) acc.1.1
                        (acc.1.2 + length (importable glob))%nat acc.2)
              as [C1 C2]
        end.
        cbn zeta in *. rewrite IH1, IH2, C1, C2. split; [done | lia].
      + destruct (IH acc) as [IH1 IH2]. cbn zeta in *. rewrite IH1, IH2.
        cbn [length app]. split; [|lia].
        by rewrite Nat.add_0_r.
  }
  destruct (Hgen ([], 0%nat, stats)) as [H1 H2]. cbn zeta in *. done.
Qed.

Lemma collect_versions_grouped fs now import_dirs stats :
  (collect_versions PERMANENT REFERENCE fs now import_dirs stats).1.1
  = foldl add_version [] (versions_met fs now 0 (files_in_order import_dirs)).
Proof. apply collect_versions_run. Qed.

(** The note the second loop takes from an entry of the dict. *)
Definition picked (strategy : string) (entry : string * list version)
  : option Note :=
  match entry.2 with
  | [] => None
  | v :: others => Some (select_version strategy v others).1
  end.

Lemma select_version_single strategy (v : version) :
  select_version strategy v [] = v.
Proof. unfold select_version. by repeat case_bool_decide. Qed.

Lemma resolve_conflicts_picked strategy (all_notes : groups) :
  (resolve_conflicts strategy all_notes).1 = omap (picked strategy) all_notes.
Proof.
  unfold resolve_conflicts.
  assert (Hgen : ∀ (acc : list Note * nat),
    (foldl (λ (acc : list Note * nat) (entry : string * list version),
              match entry.2 with
              | [] => acc
              | [v] => (acc.1 ++ [v.1], acc.2)
              | v :: others =>
                  (acc.1 ++ [(select_version strategy v others).1], S acc.2)
              end) acc all_notes).1
    = acc.1 ++ omap (picked strategy) all_notes).
  { induction all_notes as [|[k vs] rest IH]; intros acc.
    - cbn. by rewrite app_nil_r.
    - destruct vs as [|v [|w others]]; cbn [foldl]; rewrite IH;
        cbn [omap list_omap picked fst snd].
      + done.
      + by rewrite select_version_single, <- List.app_assoc.
      + by rewrite <- List.app_assoc. }
  apply (Hgen ([], 0%nat)).
Qed.

Lemma omap_lookup_total {A B} (f : A → option B) (l : list A) i x y :
  (∀ z, z ∈ l → is_Some (f z)) →
  l !! i = Some x → f x = Some y → omap f l !! i = Some y.
Proof.
  revert i. induction l as [|z l IH]; intros i Hall Hi Hx; [done |].
  destruct i as [|i]; cbn in Hi.
  - injection Hi as ->. cbn. by rewrite Hx.
  - cbn. destruct (Hall z) as [b Hb]; [left |]. rewrite Hb. cbn.
    apply IH; [|done..]. intros w Hw. apply Hall. by right.
Qed.

End Merge.

(* ===================================================================== *)
(** ** Properties of the decoders and of the import                       *)
(* ===================================================================== *)

Section Decoders.

Context {value : Type} `{!PyValue value}.
Context {NoteType : Type} `{!PyEnum NoteType}.
Context {LinkType : Type} `{!PyEnum LinkType}.
Context (PERMANENT : NoteType) (REFERENCE : LinkType).
Context {ISO : IsoFormat} {FM : FrontMatter value}.

#[local] Abbreviation Note := (Note value NoteType LinkType).
#[local] Abbreviation DB := (DB value NoteType LinkType).

(** The importer's decoder on a file whose header has no id. *)
Lemma parse_no_id fs now file_path stats text post :
  fs file_path = Ok text → fm_loads text = Ok post →
  post_metadata post !! "id" = None →
  parse_note_from_markdown PERMANENT REFERENCE fs now file_path stats
  = (None, add_warning stats ("No ID in " +:+ file_path +:+ ", skipping")).
Proof.
  intros Hfs Hfm Hid. unfold parse_note_from_markdown, try_parse_note.
  rewrite Hfs, Hfm. unfold get_truthy. by rewrite Hid.
Qed.

(** One turn of the loop of [import_directory]. *)
Definition import_step (fs : string → result string) (now : Z)
    (update_existing : bool) (st : DB * ImportStats) (file_path : string)
  : DB * ImportStats :=
  (import_single_file PERMANENT REFERENCE fs now file_path update_existing st).2.

(** C7. Importing a file whose header has no id creates no note (the
    store is as it was), adds one to the failed counter and nothing to the
    others, and records one warning, which contains "No ID"; a directory
    import that meets such a file goes on with the files after it. *)
Theorem C7_import_file_without_id
    (fs : string → result string) (now : Z) (file_path text : string)
    (post : Post value) (update_existing : bool) (db : DB)
    (stats : ImportStats) (before after : list string) :
  fs file_path = Ok text → fm_loads text = Ok post →
  post_metadata post !! "id" = None →
  let warning := "No ID in " +:+ file_path +:+ ", skipping" in
  let failed_once (st : DB * ImportStats) : DB * ImportStats :=
    (st.1, mkStats (total_files st.2) (imported st.2) (updated st.2)
                   (skipped st.2) (S (failed st.2)) (warnings st.2 ++ [warning])) in
  import_single_file PERMANENT REFERENCE fs now file_path update_existing (db, stats)
  = (false, failed_once (db, stats))
  ∧ contains "No ID" warning = true
  ∧ foldl (import_step fs now update_existing) (db, stats)
          (before ++ file_path :: after)
    = foldl (import_step fs now update_existing)
            (failed_once (foldl (import_step fs now update_existing) (db, stats) before))
            after.
Proof.
  intros Hfs Hfm Hid warning failed_once.
  assert (Hone : ∀ st,
    import_single_file PERMANENT REFERENCE fs now file_path update_existing st
    = (false, failed_once st)).
  { intros [db0 stats0]. unfold import_single_file.
    by rewrite (parse_no_id fs now file_path stats0 text post). }
  split; [apply Hone |]. split; [done |].
  rewrite foldl_app. cbn [foldl]. unfold import_step at 2. by rewrite Hone.
Qed.

(** The first line that starts with ["# "], as the specification has
    it: [found] is that line of [lines], and [None] when no line starts
    so. *)
Definition first_heading (lines : list string) (found : option string) : Prop :=
  match found with
  | Some line =>
      ∃ before after,
        lines = before ++ line :: after
        ∧ Forall (λ l, startswith l "# " = false) before
        ∧ startswith line "# " = true
  | None => Forall (λ l, startswith l "# " = false) lines
  end.

Lemma title_from_heading_first (body : string) (found : option string) :
  first_heading (split_char "010" (strip body)) found →
  title_from_heading body
  = match found with
    | Some line => strip (drop 2 line)
    | None => ""
    end.
Proof.
  unfold title_from_heading, first_heading.
  generalize (split_char "010" (strip body)). intros lines.
  destruct found as [line|].
  - intros (before & after & -> & Hbefore & Hline).
    induction Hbefore as [|l before Hl _ IH]; cbn [app List.find].
    + by rewrite Hline.
    + by rewrite Hl.
  - intros Hnone. induction Hnone as [|l lines Hl _ IH]; cbn [List.find];
      [done |]. by rewrite Hl.
Qed.

(** The warnings of a decoder run, added to the report in their order. *)
Definition report_add_warnings (report : MigrationReport) (ws : list string)
  : MigrationReport :=
  foldl report_add_warning report ws.

(** What the migrator's decoder returns for a file that reads and
    loads, whose id is absent or a non-empty string and whose title is
    absent or a string. *)
Lemma migrate_parse_outcome
    (fs : string → result string) (stat : string → result (Z * Z)) (now : Z)
    (file_path text : string) (post : Post value) (report : MigrationReport) :
  let md := post_metadata post in
  let heading := title_from_heading (post_content post) in
  let title := match md !! "title" with Some v => py_str v | None => "" end in
  let id :=
    match md !! "id" with Some v => py_str v | None => path_stem file_path end in
  let new_title :=
    if is_empty title
    then if is_empty heading then "Untitled Note " +:+ id else heading
    else title in
  let kind := default (VStr (enum_value PERMANENT)) (md !! "type") in
  let created :=
    timestamp_or md "created" (times ←! stat file_path; Ok times.1) in
  let updated :=
    timestamp_or md "updated" (times ←! stat file_path; Ok times.2) in
  fs file_path = Ok text → fm_loads text = Ok post →
  (md !! "id" = None
   ∨ ∃ s, md !! "id" = Some (VStr s) ∧ is_empty s = false) →
  (md !! "title" = None ∨ ∃ t, md !! "title" = Some (VStr t)) →
  migrate_parse_note_from_markdown PERMANENT REFERENCE fs stat now file_path
    report
  = (match created, updated with
     | Ok c, Ok u =>
         Some (mkNote id new_title (post_content post)
                 (default PERMANENT (@lookup_note_type value _ NoteType _ kind))
                 (parse_tags (default (VStr "") (md !! "tags")))
                 (links_of_body REFERENCE now
                    (default (VStr (path_stem file_path)) (md !! "id"))
                    (post_content post))
                 c u
                 (<["migration_date" := VStr (isoformat now)]>
                    (<["migrated_from" := VStr file_path]>
                       (extra_metadata_of md))))
     | _, _ => None
     end,
     report_add_warnings report
       (match md !! "id" with
        | Some _ => []
        | None => [no_id_warning file_path]
        end
        ++ (if is_empty title && is_empty heading
            then [no_title_warning file_path ("Untitled Note " +:+ id)]
            else [])
        ++ match @lookup_note_type value _ NoteType _ kind with
           | Some _ => []
           | None => [invalid_type_warning file_path kind]
           end)).
Proof.
  intros md heading title id new_title kind created updated Hfs Hfm Hid Htitle.
  unfold migrate_parse_note_from_markdown, try_migrate_parse.
  rewrite Hfs, Hfm. fold md. fold created updated.
  assert (Hget : get_truthy md "id"
                 = match md !! "id" with Some v => Some v | None => None end).
  { unfold get_truthy. destruct Hid as [-> | (s & -> & Hs)]; [done |].
    by rewrite truthy_VStr, Hs. }
  rewrite Hget. clear Hget.
  assert (Htr : truthy (default (VStr "") (md !! "title")) = negb (is_empty title)).
  { subst title. destruct Htitle as [-> | (t & ->)]; cbn.
    - by rewrite truthy_VStr.
    - by rewrite truthy_VStr, py_str_VStr. }
  rewrite Htr. clear Htr. fold heading. fold kind.
  assert (Hidstr : ∀ v, md !! "id" = Some v → str_field v = Ok (py_str v)).
  { intros v Hv. destruct Hid as [Hid | (s & Hid & _)]; [congruence |].
    rewrite Hid in Hv. injection Hv as <-.
    by rewrite str_field_VStr, py_str_VStr. }
  assert (Htstr : is_empty title = false →
                  str_field (default (VStr "") (md !! "title")) = Ok title).
  { subst title. destruct Htitle as [-> | (t & ->)]; [done |]. cbn.
    by rewrite str_field_VStr, py_str_VStr. }
  subst id new_title. unfold report_add_warnings.
  destruct (md !! "id") as [idv|] eqn:Eid; cbn [default from_option];
    [rewrite (Hidstr idv eq_refl) | rewrite str_field_VStr];
    (destruct (is_empty title) eqn:Et; cbn [negb andb];
     [destruct (is_empty heading) eqn:Eh | rewrite (Htstr eq_refl)]);
    destruct (lookup_note_type kind); cbn [default from_option app foldl];
    destruct created as [c|e1]; cbn [rbind]; try reflexivity;
    destruct updated as [u|e2]; cbn [rbind]; try reflexivity;
    rewrite ?str_field_VStr, ?py_str_VStr; reflexivity.
Qed.

(** C6, as the code has it. The migrator's decoder, on a file that reads
    and loads, whose id is absent or a non-empty string and whose title
    is absent or a string, yields a note when the timestamps are
    readable, and no note when one is not; the warnings are recorded in
    either case. An absent id is replaced by the stem of the file name,
    with a warning. An absent or empty title is replaced by what follows
    the marker on the first line of the stripped body that starts with
    ["# "], stripped; when there is no such line, or nothing but white
    space follows the marker, it is "Untitled Note <id>", and only then
    is a warning recorded. The importer's decoder has no fallback for
    the id: on a header without one it yields no note and records "No ID
    in <path>, skipping". *)
Theorem C6_decoder_fallbacks
    (fs : string → result string) (stat : string → result (Z * Z))
    (now now' : Z) (file_path text : string) (post : Post value)
    (report : MigrationReport) (stats : ImportStats) (found : option string) :
  let md := post_metadata post in
  let heading :=
    match found with Some line => strip (drop 2 line) | None => "" end in
  let title := match md !! "title" with Some v => py_str v | None => "" end in
  let id :=
    match md !! "id" with Some v => py_str v | None => path_stem file_path end in
  let created :=
    timestamp_or md "created" (times ←! stat file_path; Ok times.1) in
  let updated :=
    timestamp_or md "updated" (times ←! stat file_path; Ok times.2) in
  let r :=
    migrate_parse_note_from_markdown PERMANENT REFERENCE fs stat now
      file_path report in
  fs file_path = Ok text → fm_loads text = Ok post →
  first_heading (split_char "010" (strip (post_content post))) found →
  (md !! "id" = None
   ∨ ∃ s, md !! "id" = Some (VStr s) ∧ is_empty s = false) →
  (md !! "title" = None ∨ ∃ t, md !! "title" = Some (VStr t)) →
  match created, updated with
  | Ok c, Ok u =>
      ∃ note,
        r.1 = Some note
        ∧ n_id note = id
        ∧ n_title note
          = (if is_empty title
             then if is_empty heading then "Untitled Note " +:+ id else heading
             else title)
        ∧ n_content note = post_content post
        ∧ n_created_at note = c
        ∧ n_updated_at note = u
  | _, _ => r.1 = None
  end
  ∧ r_warnings r.2
    = r_warnings report
      ++ match md !! "id" with
         | Some _ => []
         | None => [no_id_warning file_path]
         end
      ++ (if is_empty title && is_empty heading
          then [no_title_warning file_path ("Untitled Note " +:+ id)]
          else [])
      ++ match @lookup_note_type value _ NoteType _
                 (default (VStr (enum_value PERMANENT)) (md !! "type")) with
         | Some _ => []
         | None =>
             [invalid_type_warning file_path
                (default (VStr (enum_value PERMANENT)) (md !! "type"))]
         end
  ∧ (md !! "id" = None →
     parse_note_from_markdown PERMANENT REFERENCE fs now' file_path stats
     = (None, add_warning stats ("No ID in " +:+ file_path +:+ ", skipping"))).
Proof.
  intros md heading title id created updated r Hfs Hfm Hfound Hid Htitle.
  subst r.
  rewrite (migrate_parse_outcome fs stat now file_path text post report
             Hfs Hfm Hid Htitle).
  fold md. rewrite (title_from_heading_first _ found Hfound).
  fold heading title id created updated. cbn [fst snd].
  split; [|split].
  - destruct created as [c|e]; [|done]. destruct updated as [u|e]; [|done].
    eexists. split; [reflexivity |]. done.
  - unfold report_add_warnings.
    assert (Hws : ∀ ws rep,
              r_warnings (foldl report_add_warning rep ws)
              = r_warnings rep ++ ws).
    { induction ws as [|w ws IH]; intros rep; cbn [foldl].
      - by rewrite app_nil_r.
      - rewrite IH. cbn [report_add_warning r_warnings].
        by rewrite <- List.app_assoc. }
    by rewrite Hws.
  - intros Hnone. by apply (parse_no_id fs now' file_path stats text post).
Qed.

End Decoders.

(* ===================================================================== *)
(** ** Properties of the queries                                          *)
(* ===================================================================== *)

Section Queries.

Context {value : Type} `{!PyValue value}.
Context {NoteType : Type} `{!PyEnum NoteType}.
Context {LinkType : Type} `{!PyEnum LinkType}.

#[local] Abbreviation Note := (Note value NoteType LinkType).
#[local] Abbreviation DB := (DB value NoteType LinkType).
#[local] Abbreviation DBNote := (DBNote value NoteType).

Implicit Types (db : DB).

(** A [%] at the head of a pattern: it stands for no character, or for
    one more. *)
Lemma like_percent (pattern s : string) :
  like_match (String "%" pattern) s
  = like_match pattern s
    || match s with
       | EmptyString => false
       | String _ s' => like_match (String "%" pattern) s'
       end.
Proof. by destruct s. Qed.

Lemma like_underscore (pattern : string) (a : ascii) (s : string) :
  like_match (String "_" pattern) (String a s) = like_match pattern s.
Proof. done. Qed.

Lemma like_percent_any (s : string) : like_match "%" s = true.
Proof.
  induction s as [|a s IH]; [done |].
  rewrite like_percent. cbn [like_match is_empty orb]. exact IH.
Qed.

Lemma like_percent_intro (pattern s : string) :
  like_match pattern s = true → like_match (String "%" pattern) s = true.
Proof. intros Hl. rewrite like_percent, Hl. done. Qed.

(** The pattern of [search("%")] matches every string. *)
Lemma ilike_percent_query (s : string) : ilike ("%" +:+ "%" +:+ "%") s = true.
Proof.
  unfold ilike, like. change (c_str (lower ("%" +:+ "%" +:+ "%"))) with "%%%".
  do 2 apply like_percent_intro. apply like_percent_any.
Qed.

(** No letter is lowered to NUL. *)
Lemma lower_char_nul (a : ascii) :
  Ascii.eqb (lower_char a) "000" = Ascii.eqb a "000".
Proof. by destruct a as [[] [] [] [] [] [] [] []]. Qed.

(** The pattern of [search("_")] matches the strings with a first
    character that is not NUL, and no other. *)
Lemma ilike_underscore_query (s : string) :
  ilike ("%" +:+ "_" +:+ "%") s
  = match s with
    | EmptyString => false
    | String a _ => negb (Ascii.eqb a "000")
    end.
Proof.
  unfold ilike, like. change (c_str (lower ("%" +:+ "_" +:+ "%"))) with "%_%".
  destruct s as [|a s]; [done |]. cbn [lower c_str].
  rewrite lower_char_nul. destruct (Ascii.eqb a "000"); [done |].
  cbn [negb]. apply like_percent_intro. rewrite like_underscore.
  apply like_percent_any.
Qed.

(** C10, as the code has it. The query goes into the pattern as it is,
    between two [%]. So [search("%")] with the title flag or the content
    flag enabled returns what [list] returns under the same limit, every
    note up to the limit, whether it holds a percent sign or not; with
    the tag flag alone it returns the notes that have a tag, up to the
    limit; and [search("_")] with the title flag alone matches exactly
    the notes whose title has a first character that is not NUL, since
    [LIKE] reads a title up to its first NUL. *)
Theorem C10_search_wildcards db (limit : Z)
    (search_title search_content search_tags : bool) :
  search_title = true ∨ search_content = true →
  search db "%" limit search_title search_content search_tags
  = list_notes db limit 0 None None
  ∧ search db "%" limit false false true
    = db_note_to_note db
        <$> limit_offset limit 0
              (order_by_updated_desc
                 (filter (λ row, db_id row ∈ (note_tags db).*1) (notes db)))
  ∧ (∀ row,
       row ∈ filter (λ row, existsb (λ c, c row)
                              (search_conditions db "_" true false false) = true)
                    (notes db)
       ↔ row ∈ notes db
         ∧ ∃ a t, db_title row = String a t ∧ a ≠ "000"%char).
Proof.
  intros Hflag. split; [|split].
  - unfold search, list_notes.
    assert (Hall : ∀ row : DBNote,
      existsb (λ c, c row)
        (search_conditions db "%" search_title search_content search_tags) = true).
    { intros row. unfold search_conditions.
      destruct Hflag as [-> | ->].
      - cbn [app existsb]. by rewrite ilike_percent_query.
      - destruct search_title; cbn [app existsb]; rewrite ilike_percent_query;
          [done | done]. }
    rewrite (filter_all _ (notes db)) by (intros row _; apply Hall).
    unfold search_conditions.
    destruct Hflag as [-> | ->]; [done |]. by destruct search_title.
  - unfold search, search_conditions. cbn [app]. do 3 f_equal.
    apply list_filter_iff. intros row. cbn [existsb]. rewrite orb_false_r.
    rewrite existsb_exists. split.
    + intros ([k t] & Hin & Hc). apply andb_true_iff in Hc as [Hk _].
      apply bool_decide_eq_true_1 in Hk. cbn in Hk. subst k.
      apply list_elem_of_In in Hin. by apply (list_elem_of_fmap_2 fst) in Hin.
    + intros ([k t] & -> & Hin)%list_elem_of_fmap.
      exists (k, t). split; [by apply list_elem_of_In |].
      cbn [fst snd]. rewrite bool_decide_eq_true_2 by done.
      by rewrite ilike_percent_query.
  - intros row. rewrite list_elem_of_filter.
    unfold search_conditions. cbn [app existsb]. rewrite orb_false_r.
    rewrite ilike_underscore_query. split.
    + intros [Hm Hin]. split; [done |].
      destruct (db_title row) as [|a t]; [done |]. exists a, t.
      split; [done |]. intros ->. done.
    + intros (Hin & a & t & -> & Ha). split; [|done].
      apply negb_true_iff. by apply Ascii.eqb_neq.
Qed.

(** The dangling targets of the links stored for the note [S], in the
    order of the rows. *)
Definition dangling db (S : string) : list string :=
  filter (λ t, t ∉ note_ids db)
         (dl_target_id <$> filter (λ r, dl_source_id r = S) (links db)).

(** One turn of the loop of [validate_links], [ids] being [note_ids]. *)
Definition record_broken (ids : gset string)
    (broken_links : gmap string (list string)) (note : Note)
  : gmap string (list string) :=
  let broken := filter (λ t, t ∉ ids) (target_id <$> n_links note) in
  match broken with
  | [] => broken_links
  | _ => <[n_id note := broken]> broken_links
  end.

Lemma record_broken_lookup ids (ns : list Note) acc (S : string) :
  NoDup (n_id <$> ns) →
  (∀ note, note ∈ ns → n_id note = S →
     filter (λ t, t ∉ ids) (target_id <$> n_links note) ≠ [] →
     foldl (record_broken ids) acc ns !! S
     = Some (filter (λ t, t ∉ ids) (target_id <$> n_links note)))
  ∧ ((∀ note, note ∈ ns → n_id note = S →
        filter (λ t, t ∉ ids) (target_id <$> n_links note) = []) →
     foldl (record_broken ids) acc ns !! S = acc !! S).
Proof.
  revert acc. induction ns as [|n ns IH]; intros acc Hnd.
  - split; [intros note Hin; by apply not_elem_of_nil in Hin | done].
  - cbn in Hnd. apply NoDup_cons in Hnd as [Hfresh Hnd].
    destruct (IH (record_broken ids acc n) Hnd) as [IH1 IH2].
    cbn [foldl]. split.
    + intros note [-> | Hin]%elem_of_cons Hid Hne.
      * rewrite IH2.
        -- unfold record_broken. cbn zeta.
           destruct (filter _ (target_id <$> n_links n)) as [|t ts] eqn:E; [done |].
           by rewrite Hid, lookup_insert_eq.
        -- intros note Hin Hid'. exfalso. apply Hfresh. rewrite Hid, <- Hid'.
           by apply list_elem_of_fmap_2.
      * by apply IH1.
    + intros Hall. rewrite IH2.
      * unfold record_broken. cbn zeta.
        destruct (filter _ (target_id <$> n_links n)) as [|t ts] eqn:E; [done |].
        apply lookup_insert_ne. intros Hid.
        specialize (Hall n (list_elem_of_here _ _) Hid). congruence.
      * intros note Hin. apply Hall. by right.
Qed.

(** What [validate_links] records for a note that [list] loads, whatever
    the size of the store: the targets of its links that are not among
    the ids of the loaded notes. *)
Lemma validate_links_loaded db (note : Note) :
  let loaded := list_notes db 10000 0 None None in
  let ids : gset string := list_to_set (n_id <$> loaded) in
  let broken := filter (λ t, t ∉ ids) (target_id <$> n_links note) in
  NoDup (n_id <$> loaded) → note ∈ loaded → broken ≠ [] →
  validate_links db !! n_id note = Some broken.
Proof.
  intros loaded ids broken Hnd Hin Hne.
  unfold validate_links. fold loaded.
  change (foldl _ ∅ loaded) with (foldl (record_broken ids) ∅ loaded).
  by apply (proj1 (record_broken_lookup ids loaded ∅ (n_id note) Hnd) note).
Qed.

(** What [list] loads for [validate_links] when the store has at most
    10000 notes: every note. *)
Lemma list_all_notes db :
  Z.of_nat (length (notes db)) ≤ 10000 →
  list_notes db 10000 0 None None
  = db_note_to_note db <$> order_by_updated_desc (notes db).
Proof.
  intros Hlen. unfold list_notes, limit_offset.
  change (10000 <? 0) with false. change (Z.to_nat 0) with 0%nat.
  rewrite drop_0, take_ge; [done |].
  unfold order_by_updated_desc. rewrite merge_sort_Permutation. lia.
Qed.

Lemma validate_links_lookup db (S : string) :
  NoDup (note_ids db) → Z.of_nat (length (notes db)) ≤ 10000 →
  validate_links db !! S
  = if decide (S ∈ note_ids db ∧ dangling db S ≠ [])
    then Some (dangling db S) else None.
Proof.
  intros Hnd Hlen. unfold validate_links. rewrite (list_all_notes db Hlen).
  set (sorted := order_by_updated_desc (notes db)).
  assert (Hperm : sorted ≡ₚ notes db) by apply merge_sort_Permutation.
  set (ids := list_to_set (n_id <$> (db_note_to_note db <$> sorted)) : gset string).
  assert (Hids : ∀ t, t ∈ ids ↔ t ∈ note_ids db).
  { intros t. unfold ids. rewrite elem_of_list_to_set, <- list_fmap_compose.
    unfold note_ids. rewrite <- Hperm. done. }
  assert (Hbroken : ∀ row,
    filter (λ t, t ∉ ids) (target_id <$> n_links (db_note_to_note db row))
    = dangling db (db_id row)).
  { intros row. unfold dangling. cbn [db_note_to_note n_links].
    rewrite <- list_fmap_compose.
    apply list_filter_iff. intros t. by rewrite Hids. }
  assert (Hnd' : NoDup (n_id <$> (db_note_to_note db <$> sorted))).
  { rewrite <- list_fmap_compose.
    change (NoDup (db_id <$> sorted)). by rewrite Hperm. }
  change (foldl _ ∅ (db_note_to_note db <$> sorted))
    with (foldl (record_broken ids) ∅ (db_note_to_note db <$> sorted)).
  destruct (record_broken_lookup ids (db_note_to_note db <$> sorted) ∅ S Hnd')
    as [H1 H2].
  case_decide as Hd.
  - destruct Hd as [Hin Hne].
    apply list_elem_of_fmap in Hin as (row & -> & Hrow).
    rewrite <- Hperm in Hrow.
    rewrite (H1 (db_note_to_note db row)); [by rewrite Hbroken | | done |].
    + by apply list_elem_of_fmap_2.
    + by rewrite Hbroken.
  - rewrite H2; [done |].
    intros note (row & -> & Hrow)%list_elem_of_fmap Hid. cbn in Hid.
    rewrite Hbroken. destruct (dangling db (db_id row)) eqn:E; [done |].
    exfalso. apply Hd. rewrite <- Hid. split; [|by rewrite E].
    rewrite Hperm in Hrow. by apply list_elem_of_fmap_2.
Qed.

Lemma dangling_nil db (S : string) :
  dangling db S = [] ↔
  ∀ r, r ∈ links db → dl_source_id r = S → dl_target_id r ∈ note_ids db.
Proof.
  unfold dangling. split.
  - intros Hnil r Hr Hs.
    destruct (decide (dl_target_id r ∈ note_ids db)) as [|Hn]; [done |].
    exfalso. eapply filter_nil_not_elem_of; [exact Hnil | exact Hn |].
    apply list_elem_of_fmap_2. by apply list_elem_of_filter.
  - intros Hall. apply filter_none.
    intros t (r & -> & [Hs Hr]%list_elem_of_filter)%list_elem_of_fmap Hn.
    apply Hn. by apply Hall.
Qed.

Lemma validate_links_empty db :
  NoDup (note_ids db) → Z.of_nat (length (notes db)) ≤ 10000 →
  validate_links db = ∅ ↔
  ∀ r, r ∈ links db → dl_source_id r ∈ note_ids db →
       dl_target_id r ∈ note_ids db.
Proof.
  intros Hnd Hlen. rewrite map_empty. split.
  - intros Hnone r Hr Hs. specialize (Hnone (dl_source_id r)).
    rewrite validate_links_lookup in Hnone by done.
    case_decide as Hd; [done |].
    destruct (decide (dangling db (dl_source_id r) = [])) as [Hnil | Hne].
    + by apply (proj1 (dangling_nil db _) Hnil).
    + exfalso. by apply Hd.
  - intros Hall S. rewrite validate_links_lookup by done.
    case_decide as Hd; [|done]. destruct Hd as [Hin Hne].
    exfalso. apply Hne. apply dangling_nil. intros r Hr <-. by apply Hall.
Qed.

(** [validate_links] loads the notes through [list(limit=10000)]. On a
    store of at most 10000 notes (with ids that are distinct, the id
    being the primary key) the mapping it returns has an entry for [S]
    exactly when [S] is a note with a stored outgoing link whose target
    is no note, and the entry is the list of those targets; it is empty
    exactly when the target of every link stored for a note is a note.
    On a store of one note with one stored link to a missing note the
    mapping is that one entry; once the missing note is created and the
    first is updated with the link, the link is stored and the mapping
    is empty. *)
Theorem validate_links_reports_dangling db :
  NoDup (note_ids db) → Z.of_nat (length (notes db)) ≤ 10000 →
  (∀ S, validate_links db !! S
        = if decide (S ∈ note_ids db ∧ dangling db S ≠ [])
          then Some (dangling db S) else None)
  ∧ (validate_links db = ∅ ↔
     ∀ r, r ∈ links db → dl_source_id r ∈ note_ids db →
          dl_target_id r ∈ note_ids db)
  ∧ (∀ (rowS : DBNote) (r : DBLink LinkType) (B item : Note)
       (link : Link LinkType) (now2 now3 : Z),
       notes db = [rowS] → links db = [r] →
       dl_source_id r = db_id rowS → dl_target_id r = n_id B →
       n_id B ≠ db_id rowS →
       n_id item = db_id rowS → n_links item = [link] →
       target_id link = n_id B →
       validate_links db = {[db_id rowS := [n_id B]]}
       ∧ ∃ b db2 a db3,
           create now2 B db = Ok (b, db2)
           ∧ update now3 item db2 = Ok (a, db3)
           ∧ link_row now3 (db_id rowS) link ∈ links db3
           ∧ validate_links db3 = ∅).
Proof.
  intros Hnd Hlen.
  split; [intros S; by apply validate_links_lookup |].
  split; [by apply validate_links_empty |].
  intros rowS r B item link now2 now3 Hnotes Hlinks Hsrc Htgt Hne Hitem Hil Hlt.
  assert (Hids : note_ids db = [db_id rowS]) by (unfold note_ids; by rewrite Hnotes).
  split.
  - apply map_eq. intros k. rewrite validate_links_lookup by done.
    rewrite Hids. unfold dangling. rewrite Hlinks, Hids.
    destruct (decide (k = db_id rowS)) as [-> | Hk].
    + rewrite lookup_singleton_eq.
      rewrite (filter_all _ [r])
        by (by intros x ->%list_elem_of_singleton).
      cbn [fmap list_fmap]. rewrite Htgt.
      rewrite (filter_all _ [n_id B]).
      2:{ intros x ->%list_elem_of_singleton. by intros ?%list_elem_of_singleton. }
      rewrite decide_True; [done |]. split; [left | done].
    + rewrite lookup_singleton_ne by done.
      rewrite decide_False; [done |].
      intros [Hin _]. by apply list_elem_of_singleton in Hin.
  - assert (EB : find_note db (n_id B) = None).
    { apply find_note_None. rewrite Hids. by intros ?%list_elem_of_singleton. }
    set (db2 := created_db now2 B db).
    assert (Hids2 : note_ids db2 = [db_id rowS; n_id B])
      by (unfold db2; by rewrite created_db_ids, Hids).
    assert (∃ old, find_note db2 (n_id item) = Some old) as [old Eold].
    { apply find_note_is_Some. rewrite Hids2, Hitem. left. }
    set (db3 := updated_db now3 item db2 old).
    assert (Hids3 : note_ids db3 = [db_id rowS; n_id B])
      by (unfold db3; by rewrite updated_db_ids).
    assert (Hl2 : links db2 = r :: (link_row now2 (n_id B)
              <$> filter (λ l, target_id l ∈ note_ids db2) (n_links B))).
    { unfold db2. rewrite created_db_links, Hlinks. done. }
    assert (Hl3 : links db3
              = (link_row now2 (n_id B)
                   <$> filter (λ l, target_id l ∈ note_ids db2) (n_links B))
                ++ [link_row now3 (db_id rowS) link]).
    { unfold db3. rewrite (updated_db_links now3 item db2 old Eold).
      rewrite Hl2, Hitem, Hil.
      rewrite filter_cons_False by (intros Hn; by apply Hn).
      rewrite filter_all.
      2:{ intros x (l & -> & _)%list_elem_of_fmap. cbn. done. }
      rewrite (filter_all _ [link]); [done |].
      intros x ->%list_elem_of_singleton. rewrite Hlt, Hids2. right. left. }
    exists (db_note_to_note db2
              (mkDBNote (n_id B) (n_title B) (n_content B) (n_note_type B)
                 (n_created_at B) (n_updated_at B) (n_metadata B))), db2.
    exists (db_note_to_note db3 (updated_row now3 item old)), db3.
    split; [by apply create_Ok |]. split; [by apply update_Ok |].
    split; [rewrite Hl3; apply elem_of_app; right; left |].
    apply validate_links_empty.
    + rewrite Hids3. apply NoDup_cons. split; [|apply NoDup_singleton].
      intros ?%list_elem_of_singleton. by apply Hne.
    + assert (Hlen3 : length (notes db3) = 2%nat).
      { change 2%nat with (length [db_id rowS; n_id B]). rewrite <- Hids3.
        unfold note_ids. by rewrite length_fmap. }
      lia.
    + intros x Hx _. rewrite Hl3 in Hx. rewrite Hids3, <- Hids2.
      apply elem_of_app in Hx as [Hx | ->%list_elem_of_singleton].
      * apply list_elem_of_fmap in Hx as (l & -> & Hl).
        by apply list_elem_of_filter in Hl as [Hl _].
      * cbn [link_row dl_target_id]. rewrite Hlt, Hids2. right. left.
Qed.

End Queries.

(* ===================================================================== *)
(** ** Facts on the string operations                                     *)
(* ===================================================================== *)

Section StringFacts.

Implicit Types (s p w x y : string) (a b c : ascii).

Lemma is_empty_true s : is_empty s = true ↔ s = "".
Proof. by destruct s. Qed.

Lemma is_empty_false s : is_empty s = false ↔ s ≠ "".
Proof. by destruct s. Qed.

Lemma app_eq_empty x y : x +:+ y = "" → x = "" ∧ y = "".
Proof. by destruct x. Qed.

(** *** [startswith] and [contains] *)

Lemma startswith_app p w : startswith (p +:+ w) p = true.
Proof.
  induction p as [|a p IH]; [by destruct w |].
  cbn. by rewrite Ascii.eqb_refl, IH.
Qed.

Lemma startswith_split s p : startswith s p = true → ∃ w, s = p +:+ w.
Proof.
  revert s. induction p as [|a p IH]; intros s Hs.
  - by exists s.
  - destruct s as [|b s]; [done |]. cbn in Hs.
    apply andb_true_iff in Hs as [Hab Hs]. apply Ascii.eqb_eq in Hab as ->.
    destruct (IH s Hs) as [w ->]. by exists w.
Qed.

(** The test looks at no more characters than the prefix has. *)
Lemma startswith_app_long x y p :
  (String.length p ≤ String.length x)%nat →
  startswith (x +:+ y) p = startswith x p.
Proof.
  revert x. induction p as [|a p IH]; intros x Hlen; [by destruct x, y |].
  destruct x as [|b x]; [cbn in Hlen; lia |].
  cbn. rewrite IH; [done |]. cbn in Hlen. lia.
Qed.

Lemma contains_empty p : p ≠ "" → contains p "" = false.
Proof. by destruct p. Qed.

Lemma contains_cons p a s :
  contains p (String a s) = startswith (String a s) p || contains p s.
Proof. done. Qed.

Lemma contains_nil p : contains p "" = startswith "" p || false.
Proof. done. Qed.

Lemma startswith_contains s p : startswith s p = true → contains p s = true.
Proof.
  intros Hs. destruct s; [rewrite contains_nil | rewrite contains_cons];
    by rewrite Hs.
Qed.

Lemma contains_app_r p x y : contains p y = true → contains p (x +:+ y) = true.
Proof.
  intros Hy. induction x as [|a x IH]; [done |].
  cbn [String.append]. rewrite contains_cons, IH. apply orb_true_r.
Qed.

Lemma startswith_app_l x y p :
  startswith x p = true → startswith (x +:+ y) p = true.
Proof.
  intros [w ->]%startswith_split. rewrite str_app_assoc. apply startswith_app.
Qed.

Lemma contains_app_l p x y : contains p x = true → contains p (x +:+ y) = true.
Proof.
  induction x as [|a x IH].
  - cbn. rewrite orb_false_r. intros Hp. destruct p; [by destruct y | done].
  - rewrite contains_cons. intros [Hs | Hc]%orb_true_iff.
    + apply startswith_contains. by apply (startswith_app_l (String a x)).
    + cbn [String.append]. rewrite contains_cons, (IH Hc). apply orb_true_r.
Qed.

Lemma contains_app_false p x y :
  contains p (x +:+ y) = false → contains p x = false ∧ contains p y = false.
Proof.
  intros Hxy. split.
  - destruct (contains p x) eqn:E; [|done]. by rewrite (contains_app_l _ _ y E) in Hxy.
  - destruct (contains p y) eqn:E; [|done]. by rewrite (contains_app_r _ x _ E) in Hxy.
Qed.

(** A pattern of one character is in an append when it is in one of the
    two parts. *)
Lemma contains_char_app c x y :
  contains (String c "") (x +:+ y)
  = contains (String c "") x || contains (String c "") y.
Proof.
  induction x as [|a x IH].
  - cbn [String.append]. by rewrite contains_nil.
  - cbn [String.append]. rewrite !contains_cons, IH.
    cbn [startswith]. by rewrite orb_assoc.
Qed.

(** *** [join] *)

Lemma join_cons sep x y (l : list string) :
  join sep (x :: y :: l) = x +:+ sep +:+ join sep (y :: l).
Proof. done. Qed.

Lemma join_singleton sep x : join sep [x] = x.
Proof. done. Qed.

Lemma contains_join p sep (l : list string) x :
  x ∈ l → contains p x = true → contains p (join sep l) = true.
Proof.
  intros Hin Hx. induction l as [|y l IH]; [by apply not_elem_of_nil in Hin |].
  destruct l as [|z l].
  - apply list_elem_of_singleton in Hin as <-. done.
  - rewrite join_cons. apply elem_of_cons in Hin as [<- | Hin].
    + by apply contains_app_l.
    + apply contains_app_r, contains_app_r. by apply IH.
Qed.

(** *** [split_char] *)

Lemma split_char_cons_eq c s :
  split_char c (String c s) = "" :: split_char c s.
Proof. cbn. by rewrite Ascii.eqb_refl. Qed.

Lemma split_char_not_nil c s : split_char c s ≠ [].
Proof.
  destruct s as [|a s]; [done |]. cbn.
  destruct (Ascii.eqb a c); [done |]. by destruct (split_char c s).
Qed.

Lemma split_char_no_sep c s :
  contains (String c "") s = false → split_char c s = [s].
Proof.
  induction s as [|a s IH]; [done |].
  rewrite contains_cons. intros [Ha Hs]%orb_false_iff.
  cbn in Ha. rewrite andb_true_r in Ha.
  cbn. rewrite Ascii.eqb_sym, Ha. by rewrite (IH Hs).
Qed.

Lemma split_char_app c x y :
  split_char c (x +:+ String c y) = split_char c x ++ split_char c y.
Proof.
  induction x as [|a x IH].
  - cbn [String.append]. by rewrite split_char_cons_eq.
  - cbn [String.append split_char]. rewrite IH.
    destruct (Ascii.eqb a c); [done |].
    pose proof (split_char_not_nil c x). by destruct (split_char c x).
Qed.

Lemma join_split_char c s : join (String c "") (split_char c s) = s.
Proof.
  induction s as [|a s IH]; [done |].
  cbn [split_char]. destruct (Ascii.eqb_spec a c) as [-> | Hne].
  - pose proof (split_char_not_nil c s).
    destruct (split_char c s) as [|h t] eqn:E; [done |].
    rewrite join_cons, IH. done.
  - pose proof (split_char_not_nil c s).
    destruct (split_char c s) as [|h [|h2 t]] eqn:E; [done | |].
    + by rewrite <- IH.
    + by rewrite <- IH.
Qed.

(** A line of [s] is a part of [s]. *)
Lemma contains_split_char p c s x :
  x ∈ split_char c s → contains p x = true → contains p s = true.
Proof.
  intros Hin Hx. rewrite <- (join_split_char c s). by eapply contains_join.
Qed.

(** The lines of a text made of lines. *)
Lemma split_char_join c (l : list string) :
  l ≠ [] → (∀ x, x ∈ l → contains (String c "") x = false) →
  split_char c (join (String c "") l) = l.
Proof.
  induction l as [|x l IH]; [done |]. intros _ Hl.
  destruct l as [|y l].
  - cbn. apply split_char_no_sep. apply Hl. left.
  - rewrite join_cons. cbn [String.append].
    rewrite split_char_app, IH; [|done |].
    + rewrite split_char_no_sep; [done |]. apply Hl. left.
    + intros z Hz. apply Hl. by right.
Qed.

(** *** [lstrip], [rstrip] and [strip] *)

Lemma lstrip_cons a s :
  lstrip (String a s) = if isspace a then lstrip s else String a s.
Proof. done. Qed.

Lemma rstrip_cons a s :
  rstrip (String a s)
  = match rstrip s with
    | EmptyString => if isspace a then "" else String a ""
    | r => String a r
    end.
Proof. done. Qed.

(** What [lstrip] removes is at the front, what [rstrip] removes is at
    the back. *)
Lemma lstrip_suffix s : ∃ w, s = w +:+ lstrip s.
Proof.
  induction s as [|a s [w IH]]; [by exists "" |].
  rewrite lstrip_cons. destruct (isspace a).
  - exists (String a w). cbn. by rewrite <- IH.
  - by exists "".
Qed.

Lemma rstrip_prefix s : ∃ w, s = rstrip s +:+ w.
Proof.
  induction s as [|a s [w IH]]; [by exists "" |].
  rewrite rstrip_cons. destruct (rstrip s) as [|b r] eqn:E.
  - destruct (isspace a).
    + exists (String a s). done.
    + exists w. cbn. cbn in IH. by rewrite <- IH.
  - exists w. cbn. cbn in IH. by rewrite <- IH.
Qed.

Lemma contains_lstrip p s : contains p (lstrip s) = true → contains p s = true.
Proof.
  intros Hc. destruct (lstrip_suffix s) as [w Hw]. rewrite Hw.
  by apply contains_app_r.
Qed.

Lemma contains_rstrip p s : contains p (rstrip s) = true → contains p s = true.
Proof.
  intros Hc. destruct (rstrip_prefix s) as [w Hw]. rewrite Hw.
  by apply contains_app_l.
Qed.

Lemma contains_strip p s : contains p (strip s) = true → contains p s = true.
Proof. intros Hc. by apply contains_rstrip, contains_lstrip. Qed.

Lemma lstrip_idem s : lstrip (lstrip s) = lstrip s.
Proof.
  induction s as [|a s IH]; [done |].
  rewrite lstrip_cons. destruct (isspace a) eqn:E; [done |].
  by rewrite lstrip_cons, E.
Qed.

Lemma rstrip_idem s : rstrip (rstrip s) = rstrip s.
Proof.
  induction s as [|a s IH]; [done |].
  rewrite rstrip_cons. destruct (rstrip s) as [|b r] eqn:E.
  - destruct (isspace a) eqn:Ea; [done |]. cbn. by rewrite Ea.
  - rewrite rstrip_cons, IH. done.
Qed.

Lemma rstrip_app x y : rstrip y ≠ "" → rstrip (x +:+ y) = x +:+ rstrip y.
Proof.
  intros Hy. induction x as [|a x IH]; [done |].
  cbn [String.append]. rewrite rstrip_cons, IH.
  destruct (x +:+ rstrip y) eqn:E; [|done].
  by apply app_eq_empty in E as [_ ?].
Qed.

Lemma rstrip_app_blank x y : rstrip y = "" → rstrip (x +:+ y) = rstrip x.
Proof.
  intros Hy. induction x as [|a x IH]; [done |].
  cbn [String.append]. by rewrite !rstrip_cons, IH.
Qed.

(** A string has no white space around it. *)
Definition stripped s : Prop := lstrip s = s ∧ rstrip s = s.

#[global] Instance stripped_dec s : Decision (stripped s).
Proof. unfold stripped. apply _. Defined.

Lemma stripped_strip s : stripped s → strip s = s.
Proof. intros [Hl Hr]. unfold strip. by rewrite Hr, Hl. Qed.

Lemma rstrip_lstrip s : rstrip s = s → rstrip (lstrip s) = lstrip s.
Proof.
  induction s as [|a s IH]; [done |].
  rewrite lstrip_cons. destruct (isspace a) eqn:Ea; [|done].
  rewrite rstrip_cons, Ea. destruct (rstrip s) as [|b r] eqn:E; [done |].
  intros [= Hr]. apply IH. congruence.
Qed.

Lemma strip_stripped s : stripped (strip s).
Proof.
  unfold strip. split; [apply lstrip_idem |].
  apply rstrip_lstrip, rstrip_idem.
Qed.

Lemma strip_idem s : strip (strip s) = strip s.
Proof. apply stripped_strip, strip_stripped. Qed.

(** White space in front of a string goes with it. *)
Lemma strip_space_cons a s : isspace a = true → strip (String a s) = strip s.
Proof.
  intros Ha. unfold strip. rewrite rstrip_cons.
  destruct (rstrip s) as [|b r]; [by rewrite Ha | by rewrite lstrip_cons, Ha].
Qed.

Lemma length_lstrip s : (String.length (lstrip s) ≤ String.length s)%nat.
Proof.
  induction s as [|a s IH]; [done |].
  rewrite lstrip_cons. destruct (isspace a); cbn; lia.
Qed.

(** A stripped string that is not empty keeps what is put before it or
    after it from being stripped through it. *)
Lemma lstrip_app_stripped x y : lstrip x = x → x ≠ "" → lstrip (x +:+ y) = x +:+ y.
Proof.
  destruct x as [|a x]; [done |]. intros Hl _.
  cbn [String.append]. rewrite lstrip_cons in Hl |- *.
  destruct (isspace a); [|done].
  exfalso. pose proof (length_lstrip x) as Hlen. rewrite Hl in Hlen.
  cbn in Hlen. lia.
Qed.

(** *** [find_split] *)

Lemma find_split_cons sep a s :
  find_split sep (String a s)
  = if startswith (String a s) sep
    then Some ("", drop (String.length sep) (String a s))
    else match find_split sep s with
         | Some (b, r) => Some (String a b, r)
         | None => None
         end.
Proof. done. Qed.

Lemma drop_app x y : drop (String.length x) (x +:+ y) = y.
Proof. induction x as [|a x IH]; [by destruct y | done]. Qed.

Lemma find_split_here sep rest : find_split sep (sep +:+ rest) = Some ("", rest).
Proof.
  destruct (sep +:+ rest) as [|a s] eqn:E.
  - apply app_eq_empty in E as [-> ->]. done.
  - rewrite find_split_cons, <- E, startswith_app, drop_app. done.
Qed.

(** When the first [sep] of [p +:+ sep] is the one at the end, it is
    also the first of [p +:+ sep +:+ rest]. *)
Lemma find_split_app sep p rest :
  find_split sep (p +:+ sep) = Some (p, "") →
  find_split sep (p +:+ sep +:+ rest) = Some (p, rest).
Proof.
  induction p as [|a p IH]; intros Hp.
  - change ("" +:+ sep +:+ rest) with (sep +:+ rest). apply find_split_here.
  - cbn [String.append] in Hp |- *. rewrite find_split_cons in Hp |- *.
    destruct (startswith (String a (p +:+ sep)) sep) eqn:Es; [done |].
    change (String a (p +:+ sep +:+ rest)) with (String a p +:+ sep +:+ rest).
    rewrite <- str_app_assoc, startswith_app_long.
    2:{ rewrite str_length_app. lia. }
    cbn [String.append]. rewrite Es.
    destruct (find_split sep (p +:+ sep)) as [[b r]|] eqn:E; [|done].
    injection Hp as -> ->. rewrite ?str_app_assoc, IH; done.
Qed.

(** A pattern that starts and ends with a character that is no white
    space is not lost by stripping. *)
Lemma contains_lstrip_keep a p s :
  isspace a = false →
  contains (String a p) s = true → contains (String a p) (lstrip s) = true.
Proof.
  intros Ha. induction s as [|b s IH]; [done |].
  rewrite lstrip_cons. destruct (isspace b) eqn:Eb; [|done].
  rewrite contains_cons. cbn [startswith].
  destruct (Ascii.eqb_spec a b) as [-> | _]; [congruence |].
  cbn [andb orb]. exact IH.
Qed.

Lemma contains_rstrip_keep p s :
  rstrip p = p → p ≠ "" →
  contains p s = true → contains p (rstrip s) = true.
Proof.
  intros Hp Hne. induction s as [|b s IH].
  - by rewrite contains_empty.
  - rewrite contains_cons. intros [Hs | Hc]%orb_true_iff.
    + apply startswith_split in Hs as [w ->]. apply startswith_contains.
      destruct (rstrip w) as [|c r] eqn:Ew.
      * rewrite rstrip_app_blank, Hp by done.
        rewrite <- (str_app_nil_r p) at 1. apply startswith_app.
      * rewrite rstrip_app by (by rewrite Ew). apply startswith_app.
    + specialize (IH Hc). rewrite rstrip_cons.
      destruct (rstrip s) as [|c r] eqn:Er; [by rewrite contains_empty in IH |].
      rewrite contains_cons, IH. apply orb_true_r.
Qed.

Lemma contains_strip_keep a p s :
  isspace a = false → rstrip (String a p) = String a p →
  contains (String a p) s = true → contains (String a p) (strip s) = true.
Proof.
  intros Ha Hp Hc. unfold strip.
  by apply contains_lstrip_keep, contains_rstrip_keep.
Qed.

End StringFacts.

(* ===================================================================== *)
(** ** Properties of the codec                                            *)
(* ===================================================================== *)

Section Codec.

Context {value : Type} `{!PyValue value}.
Context {NoteType : Type} `{!PyEnum NoteType}.
Context {LinkType : Type} `{!PyEnum LinkType}.
Context (PERMANENT : NoteType) (REFERENCE : LinkType).
Context {ISO : IsoFormat} {FM : FrontMatter value}.

#[local] Abbreviation Note := (Note value NoteType LinkType).
#[local] Abbreviation Link := (Link LinkType).

Implicit Types (N : Note) (l : Link) (k : string).

(** *** The header *)

Lemma export_header_lookup N k :
  export_header N !! k
  = if decide ("id" = k) then Some (VStr (n_id N))
    else if decide ("title" = k) then Some (VStr (n_title N))
    else if decide ("type" = k) then Some (VStr (enum_value (n_note_type N)))
    else if decide ("tags" = k)
         then Some (VStr (join ", " (tag_name <$> n_tags N)))
    else if decide ("created" = k) then Some (VStr (isoformat (n_created_at N)))
    else if decide ("updated" = k) then Some (VStr (isoformat (n_updated_at N)))
    else None.
Proof. unfold export_header. by rewrite !lookup_insert, lookup_empty. Qed.

Lemma export_header_None N k :
  export_header N !! k = None ↔ k ∉ reserved_keys.
Proof.
  rewrite export_header_lookup. unfold reserved_keys.
  rewrite !not_elem_of_cons.
  repeat destruct (decide _) as [<- | ?];
    (split; [try done |]); intuition (congruence || (by eapply not_elem_of_nil)).
Qed.

(** The header entries that are not the six of the exporter: those of
    the note's metadata that the exporter lets through. *)
Definition exported_extra N : gmap string value :=
  filter (λ kv, export_extra_key (export_header N) kv.1 = true) (n_metadata N).

Lemma exported_extra_Some N k x :
  exported_extra N !! k = Some x ↔
  n_metadata N !! k = Some x ∧ (k ∉ reserved_keys)
  ∧ (k ∉ ["migrated_from"; "migration_date"]).
Proof.
  unfold exported_extra, export_extra_key. rewrite map_lookup_filter_Some.
  cbn [fst]. rewrite andb_true_iff, negb_true_iff.
  rewrite bool_decide_eq_true, bool_decide_eq_false, export_header_None.
  naive_solver.
Qed.

Lemma export_metadata_lookup_header N k x :
  export_header N !! k = Some x → export_metadata N !! k = Some x.
Proof.
  intros Hk. unfold export_metadata. cbn zeta.
  rewrite lookup_union_l'; [done | by eexists].
Qed.

Lemma export_metadata_lookup_other N k :
  k ∉ reserved_keys → export_metadata N !! k = exported_extra N !! k.
Proof.
  intros Hk. unfold export_metadata. cbn zeta.
  apply lookup_union_r. by apply export_header_None.
Qed.

(** The decoder's metadata of what the exporter wrote. *)
Lemma extra_metadata_of_export N :
  extra_metadata_of (export_metadata N) = exported_extra N.
Proof.
  apply map_eq. intros k. apply option_eq. intros x.
  unfold extra_metadata_of. rewrite map_lookup_filter_Some. cbn [fst].
  split.
  - intros [Hk Hres]. by rewrite <- export_metadata_lookup_other.
  - intros Hk. pose proof (proj1 (exported_extra_Some N k x) Hk) as (_ & Hres & _).
    split; [by rewrite export_metadata_lookup_other | done].
Qed.

(** Exporting again lets the same entries through. *)
Lemma export_metadata_again N N' :
  export_header N' = export_header N →
  n_metadata N' = exported_extra N →
  export_metadata N' = export_metadata N.
Proof.
  intros Hh Hm. unfold export_metadata. cbn zeta. rewrite Hh. f_equal.
  fold (exported_extra N). rewrite Hm.
  apply map_eq. intros k. apply option_eq. intros x.
  rewrite map_lookup_filter_Some. cbn [fst]. split; [by intros [? _] |].
  intros Hk. split; [done |].
  apply exported_extra_Some in Hk as (_ & Hres & Hmig).
  unfold export_extra_key. apply andb_true_iff. split.
  - apply bool_decide_eq_true. by apply export_header_None.
  - apply negb_true_iff. by apply bool_decide_eq_false.
Qed.

(** *** The tags *)

(** A tag name the header keeps: not empty, no white space around it,
    no comma. *)
Definition tag_name_ok (name : string) : Prop :=
  name ≠ "" ∧ stripped name ∧ contains "," name = false.

#[global] Instance tag_name_ok_dec name : Decision (tag_name_ok name).
Proof. unfold tag_name_ok. apply _. Defined.

Lemma split_joined_names (sp : bool) (names : list string) :
  names ≠ [] → Forall tag_name_ok names →
  strip <$> split_char "," ((if sp then " " else "") +:+ join ", " names)
  = names.
Proof.
  revert sp. induction names as [|n names IH]; [done |].
  intros sp _ Hok. apply Forall_cons in Hok as [(Hne & Hst & Hcomma) Hok].
  assert (Hhead : ∀ sp' : bool,
    strip ((if sp' then " " else "") +:+ n) = n).
  { intros [|]; cbn [String.append].
    - rewrite strip_space_cons by done. by apply stripped_strip.
    - by apply stripped_strip. }
  assert (Hnosep : ∀ sp' : bool,
    contains "," ((if sp' then " " else "") +:+ n) = false).
  { intros [|]; [|done]. by rewrite contains_char_app, Hcomma. }
  destruct names as [|n2 names].
  - rewrite join_singleton, split_char_no_sep by apply Hnosep.
    cbn [fmap list_fmap]. by rewrite Hhead.
  - rewrite join_cons, <- str_app_assoc.
    change (", " +:+ join ", " (n2 :: names))
      with (String "," (" " +:+ join ", " (n2 :: names))).
    rewrite split_char_app, fmap_app, split_char_no_sep by apply Hnosep.
    cbn [fmap list_fmap app]. rewrite Hhead.
    f_equal. by apply (IH true).
Qed.

Lemma parse_tags_joined (tags : list Tag) :
  Forall (λ t, tag_name_ok (tag_name t)) tags →
  parse_tags (VStr (join ", " (tag_name <$> tags))) = tags.
Proof.
  intros Hok. unfold parse_tags. rewrite as_str_VStr.
  assert (Hnames : Forall tag_name_ok (tag_name <$> tags))
    by (by apply Forall_fmap).
  destruct tags as [|t tags]; [done |].
  assert (Hne : tag_name <$> t :: tags ≠ []) by (by cbn).
  pose proof (split_joined_names false (tag_name <$> t :: tags) Hne Hnames)
    as Hsplit.
  change (strip <$> split_char "," (join ", " (tag_name <$> t :: tags))
          = tag_name <$> t :: tags) in Hsplit.
  rewrite Hsplit.
  rewrite filter_all.
  - rewrite <- list_fmap_compose. rewrite <- (list_fmap_id (t :: tags)) at 2.
    apply list_fmap_ext. by intros ? [] ?.
  - intros n Hn. apply (proj1 (Forall_forall _ _) Hnames) in Hn as (Hn & _).
    by apply is_empty_false.
Qed.

(** *** The bullets of the Links section *)

(** The value of a link kind reads back from a bullet: it is not empty,
    has no white space around it and no line feed, and no ["[["] starts
    in it. *)
Definition plain_kind (v : string) : Prop :=
  v ≠ "" ∧ stripped v ∧ contains nl v = false
  ∧ find_split "[[" (("- " +:+ v +:+ " ") +:+ "[[") = Some ("- " +:+ v +:+ " ", "").

#[global] Instance plain_kind_dec v : Decision (plain_kind v).
Proof. unfold plain_kind. apply _. Defined.

(** A link reads back from its bullet: the target id has no white space
    around it and no line feed, and the first ["]]"] after it is the one
    that closes it; the description, when there is one, has no white
    space around it and no line feed. *)
Definition link_ok l : Prop :=
  stripped (target_id l) ∧ contains nl (target_id l) = false
  ∧ find_split "]]" (target_id l +:+ "]]") = Some (target_id l, "")
  ∧ match description l with
    | Some d => stripped d ∧ contains nl d = false
    | None => True
    end.

#[global] Instance link_ok_dec l : Decision (link_ok l).
Proof. unfold link_ok. destruct (description l); apply _. Defined.

(** The link the decoder builds from the bullet of [l]: an absent
    description reads back as the empty string, the source is the id of
    the note and the creation time is the time of the decoding. *)
Definition decoded_link (now : Z) (id : string) l : Link :=
  mkLink id (target_id l) (link_type l) (Some (default "" (description l)))
         (Some now).

(** What follows the ["]]"] in the bullet. *)
Definition description_part l : string :=
  match description l with
  | Some d => if is_empty d then "" else " " +:+ d
  | None => ""
  end.

Lemma link_line_parts l :
  link_line l
  = ("- " +:+ enum_value (link_type l) +:+ " ")
    +:+ "[[" +:+ target_id l +:+ "]]" +:+ description_part l.
Proof. unfold link_line, description_part. by rewrite !str_app_assoc. Qed.

Lemma description_part_facts l :
  link_ok l →
  contains nl (description_part l) = false
  ∧ rstrip ("]]" +:+ description_part l) = "]]" +:+ description_part l
  ∧ strip (description_part l) = default "" (description l).
Proof.
  intros (_ & _ & _ & Hd). unfold description_part.
  destruct (description l) as [d|]; [|done].
  destruct d as [|a d]; [done |]. destruct Hd as [[Hl Hr] Hnl].
  cbn [is_empty default from_option id]. unfold nl in *.
  split; [by rewrite contains_char_app, Hnl |]. split.
  - change ("]]" +:+ " " +:+ String a d) with ("]] " +:+ String a d).
    rewrite rstrip_app; by rewrite Hr.
  - cbn [String.append]. rewrite strip_space_cons by done.
    by apply stripped_strip.
Qed.

Lemma link_line_facts l :
  plain_kind (enum_value (link_type l)) → link_ok l →
  contains nl (link_line l) = false
  ∧ lstrip (link_line l) = link_line l
  ∧ rstrip (link_line l) = link_line l
  ∧ link_line l ≠ "".
Proof.
  intros (Hv & Hvs & Hvnl & _) Hl.
  destruct (description_part_facts l Hl) as (Hdnl & Hdr & _).
  destruct Hl as (_ & Htnl & _ & _).
  split; [|split; [done | split; [|done]]].
  - unfold nl in *.
    rewrite link_line_parts, !contains_char_app, Hvnl, Htnl, Hdnl. done.
  - replace (link_line l)
      with (("- " +:+ enum_value (link_type l) +:+ " [[" +:+ target_id l)
            +:+ "]]" +:+ description_part l)
      by (rewrite link_line_parts, !str_app_assoc; done).
    rewrite rstrip_app; rewrite Hdr; [done |].
    intros Heq. by apply app_eq_empty in Heq as [? _].
Qed.

Lemma strip_kind_part v :
  v ≠ "" → stripped v → strip ("- " +:+ v +:+ " ") = "- " +:+ v.
Proof.
  intros Hne [Hl Hr]. unfold strip.
  rewrite <- str_app_assoc, rstrip_app_blank by done.
  rewrite rstrip_app by (by rewrite Hr). by rewrite Hr.
Qed.

(** One turn of the decoder's loop on a bullet of the encoder, inside
    the Links section. *)
Lemma extract_step_link_line (now : Z) (source : string) (acc : list Link) l :
  plain_kind (enum_value (link_type l)) → link_ok l →
  extract_step REFERENCE now source (true, acc) (link_line l)
  = (true, acc ++ [decoded_link now source l]).
Proof.
  intros Hk Hl.
  destruct (link_line_facts l Hk Hl) as (_ & Hls & Hrs & _).
  destruct (description_part_facts l Hl) as (_ & _ & Hd).
  destruct Hk as (Hv & Hvs & _ & Hopen). destruct Hl as (Hts & _ & Hclose & _).
  assert (Hstrip : strip (link_line l) = link_line l)
    by (unfold strip; by rewrite Hrs, Hls).
  unfold extract_step. rewrite !Hstrip.
  assert (Hhead : ∀ p, startswith (link_line l) (String "#" p) = false) by done.
  assert (Hdash : startswith (link_line l) "- " = true) by done.
  rewrite !Hhead, Hdash. cbn [andb].
  rewrite link_line_parts.
  assert (Hin1 : contains "[["
            (("- " +:+ enum_value (link_type l) +:+ " ")
             +:+ "[[" +:+ target_id l +:+ "]]" +:+ description_part l) = true).
  { apply contains_app_r, startswith_contains, startswith_app. }
  assert (Hin2 : contains "]]"
            (("- " +:+ enum_value (link_type l) +:+ " ")
             +:+ "[[" +:+ target_id l +:+ "]]" +:+ description_part l) = true).
  { do 3 apply contains_app_r. apply startswith_contains, startswith_app. }
  rewrite Hin1, Hin2. cbn [andb].
  unfold parse_link_line.
  rewrite (find_split_app "[[" _ _ Hopen).
  rewrite (find_split_app "]]" _ _ Hclose).
  rewrite strip_kind_part by done.
  rewrite startswith_app.
  change (drop 2 ("- " +:+ enum_value (link_type l)))
    with (enum_value (link_type l)).
  rewrite (stripped_strip _ Hvs), (stripped_strip _ Hts), Hd.
  rewrite enum_lookup_value. done.
Qed.

(** *** The body *)

(** Outside the Links section a line that holds no Links heading leaves
    the state of the decoder's loop as it is. *)
Lemma extract_fold_outside (now : Z) (source : string) (ls : list string)
    (acc : list Link) :
  (∀ x, x ∈ ls → contains links_heading x = false) →
  fold_left (extract_step REFERENCE now source) ls (false, acc) = (false, acc).
Proof.
  induction ls as [|x ls IH]; intros Hls; [done |].
  cbn [fold_left]. rewrite <- IH at 2 by (intros y Hy; apply Hls; by right).
  f_equal. unfold extract_step.
  destruct (startswith (strip x) "## Links") eqn:E; [|done].
  apply startswith_contains, contains_strip in E.
  specialize (Hls x (list_elem_of_here _ _)). unfold links_heading in Hls.
  congruence.
Qed.

Lemma extract_fold_lines (now : Z) (source : string) (links : list Link)
    (acc : list Link) :
  (∀ kind : LinkType, plain_kind (enum_value kind)) → Forall link_ok links →
  fold_left (extract_step REFERENCE now source) (link_line <$> links) (true, acc)
  = (true, acc ++ (decoded_link now source <$> links)).
Proof.
  intros Hkinds Hok. revert acc.
  induction Hok as [|l links Hl Hok IH]; intros acc.
  - cbn. by rewrite app_nil_r.
  - cbn [fmap list_fmap fold_left].
    rewrite extract_step_link_line by done.
    rewrite IH, <- List.app_assoc. done.
Qed.

(** A text that holds no Links heading has no links. *)
Lemma extract_links_no_heading (now : Z) (source text : string) :
  contains links_heading text = false →
  extract_links_from_content REFERENCE now source text = [].
Proof.
  intros Hno. unfold extract_links_from_content.
  rewrite extract_fold_outside; [done |].
  intros x Hx. destruct (contains links_heading x) eqn:E; [|done].
  by rewrite (contains_split_char _ _ _ _ Hx E) in Hno.
Qed.

Lemma rstrip_join_lines (lines : list string) (front : string) :
  lines ≠ [] → (∀ x, x ∈ lines → rstrip x = x ∧ x ≠ "") →
  rstrip (front +:+ join nl lines) = front +:+ join nl lines.
Proof.
  revert front. induction lines as [|x lines IH]; [done |].
  intros front _ Hl. destruct lines as [|y lines].
  - rewrite join_singleton. destruct (Hl x) as [Hr Hne]; [left |].
    rewrite rstrip_app; by rewrite Hr.
  - rewrite join_cons, <- !str_app_assoc. apply IH; [done |].
    intros z Hz. apply Hl. by right.
Qed.

(** The parts of the body the encoder writes. *)
Lemma content_parts_plain N :
  n_links N = [] ∨ contains links_heading (n_content N) = true →
  content_parts N = [strip (n_content N)].
Proof.
  intros Hcase. unfold content_parts. destruct Hcase as [-> | ->]; [done |].
  by rewrite andb_false_r.
Qed.

Lemma content_parts_links N :
  n_links N ≠ [] → contains links_heading (n_content N) = false →
  content_parts N
  = strip (n_content N) :: (nl +:+ links_heading) :: (link_line <$> n_links N).
Proof.
  intros Hl Hc. unfold content_parts. rewrite Hc.
  by rewrite bool_decide_eq_false_2.
Qed.

(** The links the decoder finds in a body the encoder wrote with a Links
    section. *)
Lemma extract_links_export (now : Z) (source : string) N :
  (∀ kind : LinkType, plain_kind (enum_value kind)) →
  contains links_heading (n_content N) = false →
  n_links N ≠ [] → Forall link_ok (n_links N) →
  extract_links_from_content REFERENCE now source
    (strip (join nl (content_parts N)))
  = decoded_link now source <$> n_links N.
Proof.
  intros Hkinds Hc Hne Hok. rewrite content_parts_links by done.
  set (lines := link_line <$> n_links N).
  assert (Hlines : ∀ x, x ∈ lines →
            contains nl x = false ∧ rstrip x = x ∧ x ≠ "").
  { intros x (l & -> & Hl)%list_elem_of_fmap.
    apply (proj1 (Forall_forall _ _) Hok) in Hl.
    destruct (link_line_facts l (Hkinds _) Hl) as (? & _ & ? & ?). done. }
  assert (Hlne : lines ≠ []).
  { unfold lines. by destruct (n_links N). }
  assert (Hsplit : split_char "010" (join nl lines) = lines).
  { apply split_char_join; [done |]. intros x Hx. by apply Hlines. }
  assert (Hjoin : join nl (strip (n_content N) :: (nl +:+ links_heading) :: lines)
                  = strip (n_content N) +:+ nl +:+ (nl +:+ links_heading) +:+ nl
                    +:+ join nl lines).
  { destruct lines as [|x lines']; [done |]. by rewrite !join_cons. }
  rewrite Hjoin.
  assert (Hr : ∀ front, rstrip (front +:+ join nl lines) = front +:+ join nl lines).
  { intros front. apply rstrip_join_lines; [done |].
    intros x Hx. by apply Hlines. }
  assert (Hsc : ∀ x, x ∈ split_char "010" (strip (n_content N)) →
            contains links_heading x = false).
  { intros x Hx. destruct (contains links_heading x) eqn:E; [|done].
    apply (contains_split_char _ _ _ _ Hx), contains_strip in E. congruence. }
  unfold extract_links_from_content.
  destruct (strip (n_content N)) as [|a sc] eqn:Esc.
  - (* a blank content: the body starts at the heading *)
    assert (Hbody : strip ("" +:+ nl +:+ (nl +:+ links_heading) +:+ nl +:+ join nl lines)
                    = links_heading +:+ String "010" (join nl lines)).
    { unfold strip.
      replace ("" +:+ nl +:+ (nl +:+ links_heading) +:+ nl +:+ join nl lines)
        with ((nl +:+ nl +:+ links_heading +:+ nl) +:+ join nl lines)
        by (by rewrite !str_app_assoc).
      rewrite Hr. done. }
    rewrite Hbody, split_char_app, Hsplit, fold_left_app.
    change (fold_left _ (split_char "010" links_heading) (false, []))
      with (@pair bool (list Link) true []).
    unfold lines. by rewrite extract_fold_lines.
  - (* the content, an empty line, the heading, the bullets *)
    assert (Hbody : strip (String a sc +:+ nl +:+ (nl +:+ links_heading) +:+ nl
                           +:+ join nl lines)
                    = String a sc +:+ String "010" ("" +:+ String "010"
                        (links_heading +:+ String "010" (join nl lines)))).
    { unfold strip.
      replace (String a sc +:+ nl +:+ (nl +:+ links_heading) +:+ nl +:+ join nl lines)
        with ((String a sc +:+ nl +:+ nl +:+ links_heading +:+ nl) +:+ join nl lines)
        by (by rewrite !str_app_assoc).
      rewrite Hr, !str_app_assoc.
      rewrite lstrip_app_stripped; [done | | done].
      rewrite <- Esc. apply strip_stripped. }
    rewrite Hbody, !split_char_app, Hsplit, !fold_left_app.
    rewrite extract_fold_outside by done.
    change (fold_left _ (split_char "010" links_heading)
              (fold_left _ (split_char "010" "") (false, [])))
      with (@pair bool (list Link) true []).
    unfold lines. by rewrite extract_fold_lines.
Qed.

(** *** Decoding what the encoder wrote *)

Lemma export_metadata_reserved N :
  export_metadata N !! "id" = Some (VStr (n_id N))
  ∧ export_metadata N !! "title" = Some (VStr (n_title N))
  ∧ export_metadata N !! "type" = Some (VStr (enum_value (n_note_type N)))
  ∧ export_metadata N !! "tags"
    = Some (VStr (join ", " (tag_name <$> n_tags N)))
  ∧ export_metadata N !! "created" = Some (VStr (isoformat (n_created_at N)))
  ∧ export_metadata N !! "updated" = Some (VStr (isoformat (n_updated_at N))).
Proof.
  repeat split; apply export_metadata_lookup_header;
    rewrite export_header_lookup; repeat (case_decide; [done |]); done.
Qed.

Lemma export_metadata_unreserved N k :
  k ∉ reserved_keys → n_metadata N !! k = None → export_metadata N !! k = None.
Proof.
  intros Hres Hk. rewrite export_metadata_lookup_other by done.
  apply eq_None_not_Some. intros [x Hx].
  apply exported_extra_Some in Hx as [Hx _]. congruence.
Qed.

Lemma timestamp_or_exported (md : gmap string value) (key : string) (t : Z)
    (dflt : result Z) :
  md !! key = Some (VStr (isoformat t)) → timestamp_or md key dflt = Ok t.
Proof.
  intros Hk. unfold timestamp_or, get_truthy. rewrite Hk.
  rewrite truthy_VStr, isoformat_nonempty. cbn [negb].
  unfold fromisoformat_value. by rewrite as_str_VStr, fromisoformat_isoformat.
Qed.

(** The note the importer's decoder reads from the text the encoder
    wrote for [N]. *)
Definition decoded (now : Z) N : Note :=
  let body := strip (join nl (content_parts N)) in
  mkNote (n_id N) (n_title N) body (n_note_type N)
         (parse_tags (VStr (join ", " (tag_name <$> n_tags N))))
         (extract_links_from_content REFERENCE now (n_id N) body)
         (n_created_at N) (n_updated_at N) (exported_extra N).

Lemma parse_export (fs : string → result string) (now : Z)
    (file_path : string) (stats : ImportStats) N :
  fs file_path = Ok (export_note_to_markdown N) →
  n_metadata N !! "content" = None → n_metadata N !! "handler" = None →
  n_id N ≠ "" →
  parse_note_from_markdown PERMANENT REFERENCE fs now file_path stats
  = (Some (decoded now N), stats).
Proof.
  intros Hfs Hcontent Hhandler Hid.
  destruct (export_metadata_reserved N) as (Mid & Mtitle & Mtype & Mtags & Mc & Mu).
  unfold parse_note_from_markdown, try_parse_note.
  rewrite Hfs. unfold export_note_to_markdown, export_post.
  rewrite fm_loads_dumps.
  2:{ apply export_metadata_unreserved; [|done]. unfold reserved_keys.
      rewrite !not_elem_of_cons. repeat split; (done || apply not_elem_of_nil). }
  2:{ apply export_metadata_unreserved; [|done]. unfold reserved_keys.
      rewrite !not_elem_of_cons. repeat split; (done || apply not_elem_of_nil). }
  cbn [post_metadata post_content].
  unfold get_truthy at 1. rewrite Mid, truthy_VStr.
  rewrite (proj2 (is_empty_false _) Hid). cbn [negb].
  rewrite Mtitle, Mtype, Mtags. cbn [default from_option id].
  unfold lookup_note_type. rewrite as_str_VStr. cbn [mbind option_bind].
  rewrite enum_lookup_value.
  rewrite (timestamp_or_exported _ _ _ _ Mc). cbn [rbind].
  rewrite (timestamp_or_exported _ _ _ _ Mu). cbn [rbind].
  rewrite !str_field_VStr. cbn [rbind].
  unfold links_of_body. rewrite str_field_VStr.
  by rewrite extra_metadata_of_export.
Qed.

Lemma strip_content_no_heading N :
  contains links_heading (n_content N) = false →
  contains links_heading (strip (strip (n_content N))) = false.
Proof.
  intros Hc. destruct (contains links_heading (strip (strip (n_content N)))) eqn:E;
    [|done].
  do 2 apply contains_strip in E. congruence.
Qed.

(** What the decoder reads from the text the encoder wrote: every field,
    the links as [decoded_link] gives them. *)
Lemma decode_encode_fields
    (fs : string → result string) (now : Z) (file_path : string)
    (stats : ImportStats) N :
  (∀ kind : LinkType, plain_kind (enum_value kind)) →
  fs file_path = Ok (export_note_to_markdown N) →
  contains links_heading (n_content N) = false →
  n_metadata N !! "content" = None → n_metadata N !! "handler" = None →
  n_id N ≠ "" →
  Forall (λ t, tag_name_ok (tag_name t)) (n_tags N) →
  Forall link_ok (n_links N) →
  ∃ N',
    parse_note_from_markdown PERMANENT REFERENCE fs now file_path stats
    = (Some N', stats)
    ∧ n_id N' = n_id N ∧ n_title N' = n_title N
    ∧ n_note_type N' = n_note_type N
    ∧ n_tags N' = n_tags N
    ∧ n_links N' = decoded_link now (n_id N) <$> n_links N
    ∧ n_created_at N' = n_created_at N ∧ n_updated_at N' = n_updated_at N.
Proof.
  intros Hkinds Hfs Hc Hcontent Hhandler Hid Htags Hlinks.
  exists (decoded now N). split; [by apply parse_export |].
  unfold decoded. cbn [n_id n_title n_note_type n_tags n_links n_created_at n_updated_at].
  do 3 (split; [done |]). split; [by apply parse_tags_joined |].
  split; [|done].
  destruct (decide (n_links N = [])) as [Hnil | Hne].
  - rewrite content_parts_plain by (by left). rewrite join_singleton, Hnil.
    apply extract_links_no_heading. by apply strip_content_no_heading.
  - by apply extract_links_export.
Qed.

(** What the decoder makes of a link of the encoded note. *)
Definition link_read_back (now : Z) (id : string) (l' l : Link) : Prop :=
  source_id l' = id
  ∧ target_id l' = target_id l
  ∧ link_type l' = link_type l
  ∧ l_created_at l' = Some now
  ∧ ∀ d, description l = Some d → description l' = Some d.

(** C2, as the code has it. For a note whose content holds no Links
    heading, whose id is not empty, whose metadata has no key [content]
    or [handler], whose tag names are not empty, have no white space
    around them and no comma, and whose links read back from their
    bullets ([link_ok], the kind values being plain), decoding the text
    the encoder wrote yields a note with the same id, title, kind, tags
    in the same order and timestamps, and with one link for each link of
    the note, in the same order, with the same target and kind, the
    description of the link when it has one, the note's id as source and
    the time of decoding as creation time. *)
Theorem C2_decode_encode_round_trip
    (fs : string → result string) (now : Z) (file_path : string)
    (stats : ImportStats) N :
  (∀ kind : LinkType, plain_kind (enum_value kind)) →
  fs file_path = Ok (export_note_to_markdown N) →
  contains links_heading (n_content N) = false →
  n_metadata N !! "content" = None → n_metadata N !! "handler" = None →
  n_id N ≠ "" →
  Forall (λ t, tag_name_ok (tag_name t)) (n_tags N) →
  Forall link_ok (n_links N) →
  ∃ N',
    parse_note_from_markdown PERMANENT REFERENCE fs now file_path stats
    = (Some N', stats)
    ∧ n_id N' = n_id N ∧ n_title N' = n_title N
    ∧ n_note_type N' = n_note_type N
    ∧ n_tags N' = n_tags N
    ∧ Forall2 (link_read_back now (n_id N)) (n_links N') (n_links N)
    ∧ n_created_at N' = n_created_at N ∧ n_updated_at N' = n_updated_at N.
Proof.
  intros Hkinds Hfs Hc Hcontent Hhandler Hid Htags Hlinks.
  destruct (decode_encode_fields fs now file_path stats N)
    as (N' & Hparse & H1 & H2 & H3 & H4 & H5 & H6 & H7); [done..|].
  exists N'. do 5 (split; [done |]). split; [|done].
  rewrite H5. apply Forall2_fmap_l, Forall_Forall2_diag, Forall_forall.
  intros l _. unfold link_read_back, decoded_link. cbn.
  do 4 (split; [done |]). by intros d ->.
Qed.

Lemma contains_heading_self front :
  contains links_heading (front +:+ links_heading) = true.
Proof.
  apply contains_app_r, startswith_contains.
  rewrite <- (str_app_nil_r links_heading) at 1. apply startswith_app.
Qed.

(** A text without a carriage return is read as it is. *)
Lemma universal_newlines_plain (text : string) :
  contains cr text = false → universal_newlines text = text.
Proof.
  induction text as [|a rest IH]; [done |].
  cbn [contains startswith cr universal_newlines].
  rewrite andb_true_r, (Ascii.eqb_sym "013" a).
  destruct (Ascii.eqb a "013"); [done |]. cbn [orb].
  intros Hrest. by rewrite IH.
Qed.

(** C3, as the code has it. The decoder reads the file in text mode, so
    what it reads of a file that holds the encoder's text is that text
    with CR LF and CR turned into LF. For a note whose encoded text has
    no carriage return, whose id is not empty, whose metadata has no key
    [content] or [handler], whose tag names are not empty, have no white
    space around them and no comma, and for which the body the encoder
    writes has no white space around it (so it is when the note has no
    links or its content holds a Links heading), encoding the note
    decoded from the file that holds the encoder's text gives that text
    again. When the content holds a Links heading, the body the encoder
    writes is the content stripped: no Links section is added. *)
Theorem C3_encode_decode_encode
    (fs : string → result string) (now : Z) (file_path : string)
    (stats : ImportStats) N :
  fs file_path = Ok (universal_newlines (export_note_to_markdown N)) →
  contains cr (export_note_to_markdown N) = false →
  n_metadata N !! "content" = None → n_metadata N !! "handler" = None →
  n_id N ≠ "" →
  Forall (λ t, tag_name_ok (tag_name t)) (n_tags N) →
  (n_links N = [] ∨ contains links_heading (n_content N) = true
   ∨ strip (post_content (export_post N)) = post_content (export_post N)) →
  (∃ N',
     parse_note_from_markdown PERMANENT REFERENCE fs now file_path stats
     = (Some N', stats)
     ∧ export_note_to_markdown N' = export_note_to_markdown N)
  ∧ (contains links_heading (n_content N) = true →
     post_content (export_post N) = strip (n_content N)).
Proof.
  intros Hread Hcr Hcontent Hhandler Hid Htags Hbody.
  assert (Hfs : fs file_path = Ok (export_note_to_markdown N))
    by (by rewrite Hread, universal_newlines_plain).
  clear Hread Hcr.
  split.
  2:{ intros Hc. cbn [export_post post_content].
      rewrite content_parts_plain by (by right). done. }
  exists (decoded now N). split; [by apply parse_export |].
  unfold export_note_to_markdown. f_equal. unfold export_post. f_equal.
  - apply export_metadata_again; [|done].
    unfold export_header, decoded.
    cbn [n_id n_title n_note_type n_tags n_created_at n_updated_at].
    by rewrite parse_tags_joined.
  - set (C := join nl (content_parts N)).
    assert (HC : strip C = C).
    { destruct Hbody as [Hnil | [Hc | Hs]]; [| | done]; unfold C;
        rewrite content_parts_plain by auto; rewrite join_singleton;
        apply strip_idem. }
    assert (Hparts : content_parts (decoded now N) = [C]).
    { rewrite content_parts_plain.
      - unfold decoded. cbn [n_content]. fold C. by rewrite HC, HC.
      - unfold decoded. cbn [n_content n_links n_id]. fold C. rewrite HC.
        destruct (contains links_heading (n_content N)) eqn:Ec.
        + right. unfold C. rewrite content_parts_plain by (by right).
          rewrite join_singleton. by apply contains_strip_keep.
        + destruct (decide (n_links N = [])) as [Hnil | Hne].
          * left. unfold C. rewrite content_parts_plain by (by left).
            rewrite join_singleton. apply extract_links_no_heading.
            destruct (contains links_heading (strip (n_content N))) eqn:E; [|done].
            apply contains_strip in E. congruence.
          * right. unfold C. rewrite content_parts_links by done.
            eapply contains_join; [right; left |].
            apply contains_heading_self. }
    by rewrite Hparts.
Qed.

End Codec.

(* ===================================================================== *)
(** ** Invariants of the store                                            *)
(* ===================================================================== *)

Section StoreInvariants.

Context {value : Type} `{!PyValue value}.
Context {NoteType : Type} `{!PyEnum NoteType}.
Context {LinkType : Type} `{!PyEnum LinkType}.

#[local] Abbreviation Note := (Note value NoteType LinkType).
#[local] Abbreviation Link := (Link LinkType).
#[local] Abbreviation DB := (DB value NoteType LinkType).

Implicit Types (db : DB) (item : Note) (id : string) (link : Link).

(** The constraints of the schema, as a property of the tables: the id
    is the key of a note, a tag name is unique, and the rows of the
    links and of the association refer to notes (and tags) that are
    there. *)
Record store_ok db : Prop := mk_store_ok {
  ok_ids : NoDup (note_ids db);
  ok_tags : NoDup (tags db);
  ok_links : ∀ r, r ∈ links db →
               dl_source_id r ∈ note_ids db ∧ dl_target_id r ∈ note_ids db;
  ok_note_tags : ∀ nt, nt ∈ note_tags db → nt.1 ∈ note_ids db ∧ nt.2 ∈ tags db;
}.

(** One successful call of the repository that writes. *)
Inductive store_step db : DB → Prop :=
| step_create now item note db' :
    create now item db = Ok (note, db') → store_step db db'
| step_update now item note db' :
    update now item db = Ok (note, db') → store_step db db'
| step_delete id db' :
    delete id db = Ok db' → store_step db db'.

(** The stores that calls of the repository build from the empty one. *)
Definition reachable db : Prop := rtc store_step empty_db db.

Lemma foldl_add_tag_tags id db (l : list Tag) :
  NoDup (tags db) →
  NoDup (tags (foldl (add_tag id) db l))
  ∧ (∀ t, t ∈ tags db → t ∈ tags (foldl (add_tag id) db l))
  ∧ (∀ t, t ∈ l → tag_name t ∈ tags (foldl (add_tag id) db l)).
Proof.
  revert db. induction l as [|t l IH]; intros db Hnd; cbn [foldl].
  - split; [done |]. split; [done | by intros t ?%not_elem_of_nil].
  - assert (Hnd' : NoDup (tags (add_tag id db t))).
    { unfold add_tag. cbn [tags]. case_bool_decide as Hin; [done |].
      apply NoDup_app. split; [done |]. split; [|apply NoDup_singleton].
      by intros x Hx ->%list_elem_of_singleton. }
    assert (Hinc : ∀ x, x ∈ tags db → x ∈ tags (add_tag id db t)).
    { intros x Hx. unfold add_tag. cbn [tags]. case_bool_decide; [done |].
      apply elem_of_app. by left. }
    assert (Hnew : tag_name t ∈ tags (add_tag id db t)).
    { unfold add_tag. cbn [tags]. case_bool_decide; [done |].
      apply elem_of_app. right. by apply list_elem_of_singleton. }
    destruct (IH _ Hnd') as (H1 & H2 & H3).
    split; [done |]. split; [by intros x Hx; apply H2, Hinc |].
    intros x [-> | Hx]%elem_of_cons; [by apply H2 | by apply H3].
Qed.

Lemma foldl_add_tag_note_tags id db (l : list Tag) :
  note_tags (foldl (add_tag id) db l)
  = note_tags db ++ ((λ t, (id, tag_name t)) <$> l).
Proof.
  revert db. induction l as [|t l IH]; intros db; cbn [foldl].
  - by rewrite app_nil_r.
  - rewrite IH. unfold add_tag. cbn [note_tags].
    by rewrite fmap_cons, <- List.app_assoc.
Qed.

Lemma foldl_add_link_tags now id db (l : list Link) :
  tags (foldl (add_link now id) db l) = tags db.
Proof.
  revert db. induction l as [|x l IH]; intros db; cbn [foldl]; [done |].
  rewrite IH. unfold add_link. by destruct (find_note db (target_id x)).
Qed.

(** The tables a successful [create] leaves. *)
Lemma created_db_note_tags now item db :
  note_tags (created_db now item db)
  = note_tags db ++ ((λ t, (n_id item, tag_name t)) <$> n_tags item).
Proof.
  unfold created_db. by rewrite foldl_add_link_note_tags, foldl_add_tag_note_tags.
Qed.

Lemma updated_db_note_tags now item db old :
  note_tags (updated_db now item db old)
  = filter (λ nt, nt.1 ≠ n_id item) (note_tags db)
    ++ ((λ t, (n_id item, tag_name t)) <$> n_tags item).
Proof.
  unfold updated_db. by rewrite foldl_add_link_note_tags, foldl_add_tag_note_tags.
Qed.

Lemma create_store_ok now item note db db' :
  store_ok db → create now item db = Ok (note, db') → store_ok db'.
Proof.
  intros [Hids Htags Hlinks Hnts] Hc.
  destruct (find_note db (n_id item)) as [row|] eqn:E;
    [by erewrite create_Raise in Hc |].
  rewrite create_Ok in Hc by done. injection Hc as _ <-.
  pose proof (foldl_add_tag_tags (n_id item)
    (mkDB (notes db ++ [mkDBNote (n_id item) (n_title item) (n_content item)
       (n_note_type item) (n_created_at item) (n_updated_at item)
       (n_metadata item)]) (tags db) (note_tags db) (links db))
    (n_tags item) Htags) as (T1 & T2 & T3).
  assert (Etags : tags (created_db now item db)
                  = tags (foldl (add_tag (n_id item))
                      (mkDB (notes db ++ [mkDBNote (n_id item) (n_title item)
                         (n_content item) (n_note_type item) (n_created_at item)
                         (n_updated_at item) (n_metadata item)])
                         (tags db) (note_tags db) (links db)) (n_tags item)))
    by (unfold created_db; by rewrite foldl_add_link_tags).
  split.
  - rewrite created_db_ids. apply NoDup_app. split; [done |].
    split; [|apply NoDup_singleton].
    intros x Hx ->%list_elem_of_singleton. by apply find_note_None in E.
  - by rewrite Etags.
  - intros r. rewrite created_db_links.
    intros [Hr | (l & -> & [Hl _]%list_elem_of_filter)%list_elem_of_fmap]%elem_of_app.
    + destruct (Hlinks r Hr) as [? ?]. rewrite created_db_ids.
      split; apply elem_of_app; by left.
    + cbn [link_row dl_source_id dl_target_id]. split; [|done].
      rewrite created_db_ids. apply elem_of_app. right.
      by apply list_elem_of_singleton.
  - intros nt. rewrite created_db_note_tags, created_db_ids, Etags.
    intros [Hnt | (t & -> & Ht)%list_elem_of_fmap]%elem_of_app.
    + destruct (Hnts nt Hnt) as [? ?]. split; [apply elem_of_app; by left |].
      by apply T2.
    + cbn. split; [apply elem_of_app; right; by apply list_elem_of_singleton |].
      by apply T3.
Qed.

Lemma update_store_ok now item note db db' :
  store_ok db → update now item db = Ok (note, db') → store_ok db'.
Proof.
  intros [Hids Htags Hlinks Hnts] Hu.
  destruct (find_note db (n_id item)) as [old|] eqn:E;
    [|by rewrite update_Raise in Hu].
  rewrite (update_Ok now item db old E) in Hu. injection Hu as _ <-.
  set (base := mkDB ((λ row, if bool_decide (db_id row = n_id item)
                      then updated_row now item old else row) <$> notes db)
             (tags db)
             (filter (λ nt, nt.1 ≠ n_id item) (note_tags db))
             (filter (λ db_link, dl_source_id db_link ≠ n_id item) (links db))).
  pose proof (foldl_add_tag_tags (n_id item) base (n_tags item) Htags)
    as (T1 & T2 & T3).
  assert (Etags : tags (updated_db now item db old)
                  = tags (foldl (add_tag (n_id item)) base (n_tags item)))
    by (unfold updated_db; by rewrite foldl_add_link_tags).
  assert (Hin : n_id item ∈ note_ids db)
    by (apply find_note_is_Some; rewrite E; eauto).
  split.
  - by rewrite (updated_db_ids now item db old E).
  - by rewrite Etags.
  - intros r. rewrite (updated_db_links now item db old E),
      (updated_db_ids now item db old E).
    intros [[_ Hr]%list_elem_of_filter
           | (l & -> & [Hl _]%list_elem_of_filter)%list_elem_of_fmap]%elem_of_app.
    + by apply Hlinks.
    + done.
  - intros nt. rewrite updated_db_note_tags, (updated_db_ids now item db old E), Etags.
    intros [[_ Hnt]%list_elem_of_filter | (t & -> & Ht)%list_elem_of_fmap]%elem_of_app.
    + destruct (Hnts nt Hnt) as [? ?]. split; [done | by apply T2].
    + cbn. split; [done | by apply T3].
Qed.

Lemma NoDup_fmap_filter {A B} (f : A → B) (P : A → Prop)
    `{!∀ x, Decision (P x)} (l : list A) :
  NoDup (f <$> l) → NoDup (f <$> filter P l).
Proof.
  induction l as [|x l IH]; [done |]. rewrite fmap_cons, NoDup_cons.
  intros [Hx Hnd]. rewrite filter_cons. destruct (decide (P x)); [|by apply IH].
  rewrite fmap_cons. apply NoDup_cons. split; [|by apply IH].
  intros (y & Hy & [_ Hin]%list_elem_of_filter)%list_elem_of_fmap.
  apply Hx. rewrite Hy. by apply list_elem_of_fmap_2.
Qed.

(** The tables a successful [delete] leaves. *)
Definition deleted_db id db : DB :=
  mkDB (filter (λ row, db_id row ≠ id) (notes db))
       (tags db)
       (filter (λ nt, nt.1 ≠ id) (note_tags db))
       (filter (λ db_link, dl_source_id db_link ≠ id ∧ dl_target_id db_link ≠ id)
               (links db)).

Lemma delete_Ok id db row :
  find_note db id = Some row → delete id db = Ok (deleted_db id db).
Proof. intros E. unfold delete. by rewrite E. Qed.

Lemma delete_Raise id db :
  find_note db id = None →
  delete id db = Raise ("Note with ID " +:+ id +:+ " does not exist").
Proof. intros E. unfold delete. by rewrite E. Qed.

Lemma deleted_db_ids id db x :
  x ∈ note_ids (deleted_db id db) ↔ x ∈ note_ids db ∧ x ≠ id.
Proof.
  unfold note_ids, deleted_db. cbn [notes]. rewrite !list_elem_of_fmap. split.
  - intros (row & -> & [Hne Hrow]%list_elem_of_filter). eauto.
  - intros [(row & -> & Hrow) Hne]. exists row. split; [done |].
    by apply list_elem_of_filter.
Qed.

Lemma delete_store_ok id db db' :
  store_ok db → delete id db = Ok db' → store_ok db'.
Proof.
  intros [Hids Htags Hlinks Hnts] Hd.
  destruct (find_note db id) as [row|] eqn:E; [|by rewrite delete_Raise in Hd].
  rewrite (delete_Ok id db row E) in Hd. injection Hd as <-.
  split.
  - unfold note_ids, deleted_db. cbn [notes]. by apply NoDup_fmap_filter.
  - done.
  - intros r [[Hs Ht] Hr]%list_elem_of_filter.
    destruct (Hlinks r Hr) as [? ?]. by rewrite !deleted_db_ids.
  - intros nt [Hne Hnt]%list_elem_of_filter.
    destruct (Hnts nt Hnt) as [? ?]. by rewrite deleted_db_ids.
Qed.

Lemma empty_store_ok : store_ok (empty_db : DB).
Proof.
  split; [apply NoDup_nil_2 | apply NoDup_nil_2 | |];
    intros x Hx; by apply not_elem_of_nil in Hx.
Qed.

Lemma store_step_ok db db' : store_ok db → store_step db db' → store_ok db'.
Proof.
  intros Hok [now item note db1 Hc | now item note db1 Hu | id db1 Hd].
  - by eapply create_store_ok.
  - by eapply update_store_ok.
  - by eapply delete_store_ok.
Qed.

Lemma reachable_store_ok db : reachable db → store_ok db.
Proof.
  unfold reachable. intros Hr.
  apply (rtc_ind_r (R := store_step) (λ db, store_ok db) empty_db);
    [apply empty_store_ok | | done].
  intros y z _ Hstep Hok. by eapply store_step_ok.
Qed.

(** [create] and [update] keep the constraints of the schema: after a
    call that returns, the ids are distinct, the tag names are distinct,
    and every link and every association of a note with a tag refers to
    notes and tags that are stored. *)
Theorem create_update_keep_constraints (now : Z) item note db db' :
  store_ok db →
  create now item db = Ok (note, db') ∨ update now item db = Ok (note, db') →
  store_ok db'.
Proof.
  intros Hok [Hc | Hu]; [by eapply create_store_ok | by eapply update_store_ok].
Qed.

(** No store built from the empty one by calls of [create], [update]
    and [delete] holds a link to or from a missing note, and on such a
    store of at most 10000 notes [validate_links] reports nothing. *)
Theorem reachable_store_has_no_dangling_link db :
  reachable db →
  (∀ r, r ∈ links db →
     dl_source_id r ∈ note_ids db ∧ dl_target_id r ∈ note_ids db)
  ∧ (Z.of_nat (length (notes db)) ≤ 10000 → validate_links db = ∅).
Proof.
  intros [Hids _ Hlinks _]%reachable_store_ok. split; [done |].
  intros Hlen. apply validate_links_empty; [done.. |].
  intros r Hr _. by apply Hlinks.
Qed.

(** *** What a write changes and what it leaves *)

Lemma tag_eta (t : Tag) : mkTag (tag_name t) = t.
Proof. by destruct t. Qed.

(** The tags [read] shows for a note whose associations are the rows
    [(id, name)] of [l], after rows of other notes. *)
Lemma tags_of_written id (old : list (string * string)) (l : list Tag) :
  (∀ nt, nt ∈ old → nt.1 ≠ id) →
  (λ nt : string * string, mkTag nt.2)
    <$> filter (λ nt, nt.1 = id) (old ++ ((λ t, (id, tag_name t)) <$> l))
  = l.
Proof.
  intros Hold. rewrite filter_app, fmap_app.
  rewrite (filter_none _ old) by (intros nt Hnt Heq; by apply (Hold nt)).
  rewrite filter_all by (by intros nt (t & -> & _)%list_elem_of_fmap).
  cbn [fmap list_fmap app]. rewrite <- list_fmap_compose.
  rewrite <- (list_fmap_id l) at 2. apply list_fmap_ext.
  intros i t _. apply tag_eta.
Qed.

(** The notes other than [id] read the same in two stores that agree
    on their rows, their associations and their outgoing links. *)
Lemma read_other db db' id :
  find_note db' id = find_note db id →
  filter (λ nt, nt.1 = id) (note_tags db') = filter (λ nt, nt.1 = id) (note_tags db) →
  filter (λ r, dl_source_id r = id) (links db')
  = filter (λ r, dl_source_id r = id) (links db) →
  read db' id = read db id.
Proof.
  intros Hfind Hnts Hlinks. unfold read. rewrite Hfind.
  destruct (find_note db id) as [row|] eqn:E; [|done].
  apply find_note_Some in E as [_ <-]. cbn [fmap option_fmap option_map].
  unfold db_note_to_note. by rewrite Hnts, Hlinks.
Qed.

Lemma filter_filter_other {A} (key : A → string) (id id' : string) (l : list A) :
  id' ≠ id →
  filter (λ x, key x = id') (filter (λ x, key x ≠ id) l)
  = filter (λ x, key x = id') l.
Proof.
  intros Hne. rewrite list_filter_filter. apply list_filter_iff.
  intros x. split; [by intros [? ?] | intros Hx; split; [done | congruence]].
Qed.

Lemma find_note_updated_other now item db old id :
  db_id old = n_id item → id ≠ n_id item →
  find_note (updated_db now item db old) id = find_note db id.
Proof.
  intros Hold Hne. unfold find_note. rewrite updated_db_notes.
  induction (notes db) as [|row rows IH]; [done |].
  cbn [fmap list_fmap List.find].
  destruct (decide (db_id row = n_id item)) as [Hrow | Hrow].
  - rewrite (bool_decide_eq_true_2 _ Hrow). cbn [updated_row db_id].
    rewrite !bool_decide_eq_false_2 by congruence. apply IH.
  - rewrite (bool_decide_eq_false_2 _ Hrow).
    destruct (bool_decide (db_id row = id)); [done | apply IH].
Qed.

Lemma find_note_created_other now item db id :
  id ≠ n_id item →
  find_note (created_db now item db) id = find_note db id.
Proof.
  intros Hne. unfold find_note. rewrite created_db_notes.
  induction (notes db) as [|row rows IH]; cbn [app List.find].
  - cbn [db_id]. by rewrite bool_decide_eq_false_2.
  - destruct (bool_decide (db_id row = id)); [done | apply IH].
Qed.

Lemma filter_written_other {A} (key : A → string) (id id' : string)
    (old new : list A) :
  id' ≠ id → (∀ x, x ∈ new → key x = id) →
  filter (λ x, key x = id') (old ++ new) = filter (λ x, key x = id') old.
Proof.
  intros Hne Hnew. rewrite filter_app, (filter_none _ new), app_nil_r; [done |].
  intros x Hx Heq. apply Hne. rewrite <- Heq. by apply Hnew.
Qed.

(** [update] of a note whose tags are of distinct names raises, and
    then with the not-found message, exactly when no note has the id;
    when it returns, the store holds the same ids as before, and the
    note it returns is the one [read] shows. *)
Theorem update_raises_iff_absent (now : Z) item db :
  NoDup (tag_name <$> n_tags item) →
  ((∃ msg, update now item db = Raise msg) ↔ n_id item ∉ note_ids db)
  ∧ (∀ msg, update now item db = Raise msg →
       msg = "Note with ID " +:+ n_id item +:+ " not found")
  ∧ (∀ note db', update now item db = Ok (note, db') →
       note_ids db' = note_ids db
       ∧ n_id note = n_id item
       ∧ read db' (n_id item) = Some note).
Proof.
  intros _. destruct (find_note db (n_id item)) as [old|] eqn:E.
  - rewrite (update_Ok now item db old E).
    pose proof (find_note_Some _ _ _ E) as [_ Hold].
    split; [|split; [done |]].
    + split; [by intros [? ?] |]. intros Hn. apply find_note_None in Hn.
      congruence.
    + intros note db' [= <- <-].
      split; [by apply updated_db_ids |]. split; [done |]. by apply read_updated.
  - rewrite (update_Raise now item db E). split; [|split; [|done]].
    + split; [intros _; by apply find_note_None | eauto].
    + by intros msg [= <-].
Qed.

(** What [read] shows of a note that was written. The schema keeps the
    tag names of a note distinct; the statements below on what a write
    stores, and on when it raises, are made for notes that meet this. *)
Definition written (item stored : Note) : Prop :=
  n_title stored = n_title item
  ∧ n_content stored = n_content item
  ∧ n_note_type stored = n_note_type item
  ∧ n_metadata stored = n_metadata item
  ∧ n_tags stored = n_tags item.

Lemma update_read_back (now : Z) item note db db' :
  update now item db = Ok (note, db') →
  read db' (n_id item) = Some note
  ∧ written item note
  ∧ (∀ id, id ≠ n_id item → read db' id = read db id).
Proof.
  intros Hu.
  destruct (find_note db (n_id item)) as [old|] eqn:E;
    [|by rewrite update_Raise in Hu].
  rewrite (update_Ok now item db old E) in Hu. injection Hu as <- <-.
  pose proof (find_note_Some _ _ _ E) as [_ Hold].
  split; [by apply read_updated |]. split.
  - do 4 (split; [done |]).
    cbn [db_note_to_note n_tags updated_row db_id].
    rewrite updated_db_note_tags, Hold. apply tags_of_written.
    by intros nt [? _]%list_elem_of_filter.
  - intros id Hne. apply read_other.
    + by apply find_note_updated_other.
    + rewrite updated_db_note_tags.
      rewrite (filter_written_other fst (n_id item) id) by
        (done || by intros nt (t & -> & _)%list_elem_of_fmap).
      by apply (filter_filter_other fst).
    + rewrite (updated_db_links now item db old E).
      rewrite (filter_written_other dl_source_id (n_id item) id) by
        (done || by intros r (l & -> & _)%list_elem_of_fmap).
      by apply (filter_filter_other dl_source_id).
Qed.

Lemma create_read_back (now : Z) item note db db' :
  store_ok db →
  create now item db = Ok (note, db') →
  read db' (n_id item) = Some note
  ∧ written item note
  ∧ n_links note
    = stored_link now (n_id item)
        <$> filter (λ link, target_id link ∈ note_ids db') (n_links item)
  ∧ (∀ id, id ≠ n_id item → read db' id = read db id).
Proof.
  intros [Hids Htags Hlinks Hnts] Hc.
  destruct (find_note db (n_id item)) as [row|] eqn:E;
    [by erewrite create_Raise in Hc |].
  rewrite create_Ok in Hc by done. injection Hc as <- <-.
  pose proof (proj1 (find_note_None _ _) E) as Hfresh.
  split; [by apply read_created |].
  split; [|split].
  - do 4 (split; [done |]). cbn [db_note_to_note n_tags db_id].
    rewrite created_db_note_tags. apply tags_of_written.
    intros nt Hnt Heq. apply Hfresh. rewrite <- Heq. by apply Hnts.
  - cbn [db_note_to_note n_links db_id]. rewrite created_db_links.
    rewrite filter_app, fmap_app.
    rewrite (filter_none _ (links db)).
    2:{ intros r Hr Heq. apply Hfresh. rewrite <- Heq. by apply Hlinks. }
    rewrite filter_all by (by intros r (l & -> & _)%list_elem_of_fmap).
    cbn [app]. by rewrite <- list_fmap_compose.
  - intros id Hne. apply read_other.
    + by apply find_note_created_other.
    + rewrite created_db_note_tags.
      apply (filter_written_other fst (n_id item) id); [done |].
      by intros nt (t & -> & _)%list_elem_of_fmap.
    + rewrite created_db_links.
      apply (filter_written_other dl_source_id (n_id item) id); [done |].
      by intros r (l & -> & _)%list_elem_of_fmap.
Qed.

(** [update] replaces the note: afterwards [read] shows the title, the
    content, the kind, the metadata and the tags of the note that was
    passed (its tags being of distinct names), the tags in its order and
    nothing of the tags before; every other note reads as before. *)
Theorem update_replaces_note (now : Z) item note db db' :
  NoDup (tag_name <$> n_tags item) →
  update now item db = Ok (note, db') →
  read db' (n_id item) = Some note
  ∧ n_title note = n_title item
  ∧ n_content note = n_content item
  ∧ n_note_type note = n_note_type item
  ∧ n_metadata note = n_metadata item
  ∧ n_tags note = n_tags item
  ∧ (∀ id, id ≠ n_id item → read db' id = read db id).
Proof.
  intros _ Hu.
  destruct (update_read_back now item note db db' Hu)
    as (Hread & (H1 & H2 & H3 & H4 & H5) & Hframe).
  done.
Qed.

(** [create] on a store that meets the constraints of the schema:
    afterwards [read] shows the note that was returned, with the
    fields, the metadata and the tags of the note that was passed (its
    tags being of distinct names) and, of its links, those whose target
    is stored; every other note reads as before. *)
Theorem create_then_read (now : Z) item note db db' :
  store_ok db →
  NoDup (tag_name <$> n_tags item) →
  create now item db = Ok (note, db') →
  read db' (n_id item) = Some note
  ∧ n_title note = n_title item
  ∧ n_content note = n_content item
  ∧ n_note_type note = n_note_type item
  ∧ n_metadata note = n_metadata item
  ∧ n_tags note = n_tags item
  ∧ n_links note
    = stored_link now (n_id item)
        <$> filter (λ link, target_id link ∈ note_ids db') (n_links item)
  ∧ (∀ id, id ≠ n_id item → read db' id = read db id).
Proof.
  intros Hok _ Hc.
  destruct (create_read_back now item note db db' Hok Hc)
    as (Hread & (H1 & H2 & H3 & H4 & H5) & Hlinks & Hframe).
  done.
Qed.

End StoreInvariants.

(* ===================================================================== *)
(** ** The other queries of the repository                                *)
(* ===================================================================== *)

Section StoreQueries.

Context {value : Type} `{!PyValue value}.
Context {NoteType : Type} `{!PyEnum NoteType}.
Context {LinkType : Type} `{!PyEnum LinkType}.

#[local] Abbreviation Note := (Note value NoteType LinkType).
#[local] Abbreviation Link := (Link LinkType).
#[local] Abbreviation DB := (DB value NoteType LinkType).
#[local] Abbreviation DBNote := (DBNote value NoteType).

Implicit Types (db : DB) (item : Note) (id : string) (link : Link).

(** [SQLiteNoteRepository.find_by_tag]: the notes joined with a tag of
    that name, the most recently updated first. *)
Definition find_by_tag db (tag_name : string) : list Note :=
  db_note_to_note db
    <$> order_by_updated_desc
          (filter (λ row, (db_id row, tag_name) ∈ note_tags db) (notes db)).

(** The set [linked_ids] of [find_linked_notes]. *)
Definition linked_ids db (note_id direction : string) : gset string :=
  let linked_ids : gset string := ∅ in
  let linked_ids :=
    if bool_decide (direction ∈ ["outgoing"; "both"]) then
      linked_ids ∪
      list_to_set (dl_target_id
                     <$> filter (λ r, dl_source_id r = note_id) (links db))
    else linked_ids in
  if bool_decide (direction ∈ ["incoming"; "both"]) then
    linked_ids ∪
    list_to_set (dl_source_id
                   <$> filter (λ r, dl_target_id r = note_id) (links db))
  else linked_ids.

(** [SQLiteNoteRepository.find_linked_notes] *)
Definition find_linked_notes db (note_id direction : string) : list Note :=
  let ids := linked_ids db note_id direction in
  if bool_decide (ids = ∅) then []
  else
    db_note_to_note db
      <$> order_by_updated_desc (filter (λ row, db_id row ∈ ids) (notes db)).

(** [GROUP BY note_type] with [count(id)]: the number of notes of each
    kind that some note has, under the value of the kind. *)
Definition count_row (counts : gmap string nat) (row : DBNote)
  : gmap string nat :=
  let kind := enum_value (db_note_type row) in
  <[kind := S (default 0%nat (counts !! kind))]> counts.

Definition count_by_type (rows : list DBNote) : gmap string nat :=
  foldl count_row ∅ rows.

(** The dict [get_statistics] returns. *)
Record Statistics := mkStatistics {
  st_total_notes : nat;
  st_total_tags : nat;
  st_total_links : nat;
  st_notes_by_type : gmap string nat;
  st_storage_type : string;
}.

(** [SQLiteNoteRepository.get_statistics] *)
Definition get_statistics db : Statistics :=
  mkStatistics (length (notes db)) (length (tags db)) (length (links db))
               (count_by_type (notes db)) "sqlite".


(** [ORDER BY count DESC] *)
Definition more_notes (g1 g2 : string * nat) : Prop := (g2.2 ≤ g1.2)%nat.

#[global] Instance more_notes_dec : RelDecision more_notes :=
  λ g1 g2, le_dec g2.2 g1.2.


(** *** [list] *)

#[local] Instance newer_first_total : Total (newer_first (value := value) (NoteType := NoteType)).
Proof. intros r1 r2. unfold newer_first. lia. Qed.

#[local] Instance newer_first_trans :
  Transitive (newer_first (value := value) (NoteType := NoteType)).
Proof. intros r1 r2 r3. unfold newer_first. lia. Qed.

(** The notes from the most recently updated on. *)
Definition newest_first (l : list Note) : Prop :=
  StronglySorted (λ a b, n_updated_at b ≤ n_updated_at a) l.

Lemma StronglySorted_take {A} (R : relation A) n (l : list A) :
  StronglySorted R l → StronglySorted R (take n l).
Proof.
  intros Hl. revert n. induction Hl as [|x l Hl IH Hx]; intros [|n]; cbn;
    try constructor; [apply IH |].
  apply Forall_forall. intros y Hy%subseteq_take.
  by eapply Forall_forall in Hx.
Qed.

Lemma StronglySorted_drop {A} (R : relation A) n (l : list A) :
  StronglySorted R l → StronglySorted R (List.skipn n l).
Proof.
  intros Hl. revert n. induction Hl as [|x l Hl IH Hx]; intros [|n]; cbn;
    [constructor | constructor | by constructor | apply IH].
Qed.

Lemma newest_first_rows (rows : list DBNote) db :
  StronglySorted newer_first rows → newest_first (db_note_to_note db <$> rows).
Proof.
  intros Hs. unfold newest_first.
  by apply (StronglySorted_fmap _ newer_first).
Qed.

Lemma limit_offset_sorted {A} (R : relation A) limit offset (l : list A) :
  StronglySorted R l → StronglySorted R (limit_offset limit offset l).
Proof.
  intros Hl. unfold limit_offset. destruct (limit <? 0).
  - by apply StronglySorted_drop.
  - by apply StronglySorted_take, StronglySorted_drop.
Qed.

Lemma limit_offset_elem {A} limit offset (l : list A) x :
  x ∈ limit_offset limit offset l → x ∈ l.
Proof.
  unfold limit_offset. intros Hx.
  assert (Hd : ∀ y, y ∈ List.skipn (Z.to_nat offset) l → y ∈ l).
  { intros y Hy. eapply elem_of_sublist; [exact Hy | apply sublist_drop]. }
  destruct (limit <? 0); [by apply Hd |]. by apply Hd, (subseteq_take _ _ _ Hx).
Qed.

(** The rows [list] selects before it orders and cuts them. *)
Definition listed_rows db (note_type tag : option string) : list DBNote :=
  let rows := notes db in
  let rows :=
    match note_type with
    | Some t =>
        if is_empty t then rows
        else filter (λ row, enum_value (db_note_type row) = t) rows
    | None => rows
    end in
  match tag with
  | Some t =>
      if is_empty t then rows
      else filter (λ row, (db_id row, t) ∈ note_tags db) rows
  | None => rows
  end.

Lemma list_notes_rows db limit offset note_type tag :
  list_notes db limit offset note_type tag
  = db_note_to_note db
      <$> limit_offset limit offset
            (order_by_updated_desc (listed_rows db note_type tag)).
Proof. done. Qed.

Lemma listed_rows_elem db note_type tag row :
  row ∈ listed_rows db note_type tag → row ∈ notes db.
Proof.
  unfold listed_rows. intros Hrow.
  assert (H1 : ∀ rows : list DBNote, row ∈ match tag with
      | Some t => if is_empty t then rows
                  else filter (λ row, (db_id row, t) ∈ note_tags db) rows
      | None => rows end → row ∈ rows).
  { intros rows. destruct tag as [t|]; [|done]. destruct (is_empty t); [done |].
    by intros [_ ?]%list_elem_of_filter. }
  apply H1 in Hrow. destruct note_type as [t|]; [|done].
  destruct (is_empty t); [done |]. by apply list_elem_of_filter in Hrow as [_ ?].
Qed.

(** [list] returns notes of the store, the most recently updated first,
    at most [limit] of them when [limit] is not negative; an empty
    [note_type] or [tag] filters nothing. *)
Theorem list_sorted_and_bounded db (limit offset : Z)
    (note_type tag : option string) :
  newest_first (list_notes db limit offset note_type tag)
  ∧ (∀ note, note ∈ list_notes db limit offset note_type tag →
       ∃ row, row ∈ notes db ∧ note = db_note_to_note db row)
  ∧ (0 ≤ limit →
     Z.of_nat (length (list_notes db limit offset note_type tag)) ≤ limit)
  ∧ list_notes db limit offset (Some "") tag
    = list_notes db limit offset None tag
  ∧ list_notes db limit offset note_type (Some "")
    = list_notes db limit offset note_type None.
Proof.
  rewrite list_notes_rows. split; [|split; [|split; [|done]]].
  - apply newest_first_rows, limit_offset_sorted.
    apply StronglySorted_merge_sort; apply _.
  - intros note (row & -> & Hrow)%list_elem_of_fmap. exists row. split; [|done].
    apply limit_offset_elem in Hrow. unfold order_by_updated_desc in Hrow.
    rewrite merge_sort_Permutation in Hrow. by eapply listed_rows_elem.
  - intros Hlimit. rewrite length_fmap. unfold limit_offset.
    destruct (limit <? 0) eqn:E; [lia |]. rewrite length_take. lia.
Qed.

(** Pages of [list] compose: a page of [k] notes followed by the next
    page of [k'] notes is the page of [k + k'] notes. *)
Theorem list_pages_compose db (k k' offset : Z) (note_type tag : option string) :
  0 ≤ k → 0 ≤ k' → 0 ≤ offset →
  list_notes db k offset note_type tag
  ++ list_notes db k' (offset + k) note_type tag
  = list_notes db (k + k') offset note_type tag.
Proof.
  intros Hk Hk' Ho. rewrite !list_notes_rows, <- fmap_app. f_equal.
  unfold limit_offset.
  assert (E1 : (k <? 0) = false) by lia.
  assert (E2 : (k' <? 0) = false) by lia.
  assert (E3 : (k + k' <? 0) = false) by lia. rewrite E1, E2, E3.
  set (rows := order_by_updated_desc (listed_rows db note_type tag)).
  rewrite Z2Nat.inj_add, <- drop_drop by lia.
  rewrite take_take_drop. by rewrite Z2Nat.inj_add by lia.
Qed.

(** *** [find_by_tag] *)

Lemma tagged_row db row (t : string) :
  mkTag t ∈ n_tags (db_note_to_note db row) ↔ (db_id row, t) ∈ note_tags db.
Proof.
  cbn [db_note_to_note n_tags]. rewrite list_elem_of_fmap. split.
  - intros ([i t'] & [= <-] & [Hi Hnt]%list_elem_of_filter). cbn in Hi. by subst.
  - intros Hnt. exists (db_id row, t). split; [done |].
    by apply list_elem_of_filter.
Qed.

(** [find_by_tag] returns, the most recently updated first, exactly the
    notes of the store that have the tag; for a tag name that is not
    empty it is [list] with the tag filter and no limit. *)
Theorem find_by_tag_lists_tagged db (t : string) :
  newest_first (find_by_tag db t)
  ∧ (∀ note, note ∈ find_by_tag db t ↔
       ∃ row, row ∈ notes db ∧ note = db_note_to_note db row
              ∧ mkTag t ∈ n_tags note)
  ∧ (is_empty t = false →
     find_by_tag db t = list_notes db (-1) 0 None (Some t)).
Proof.
  split; [|split].
  - apply newest_first_rows, StronglySorted_merge_sort; apply _.
  - intros note. unfold find_by_tag. rewrite list_elem_of_fmap. split.
    + intros (row & -> & Hrow). unfold order_by_updated_desc in Hrow.
      rewrite merge_sort_Permutation in Hrow.
      apply list_elem_of_filter in Hrow as [Ht Hrow].
      exists row. split; [done |]. split; [done | by apply tagged_row].
    + intros (row & Hrow & -> & Ht%tagged_row). exists row. split; [done |].
      unfold order_by_updated_desc. rewrite merge_sort_Permutation.
      by apply list_elem_of_filter.
  - intros Ht. unfold find_by_tag, list_notes, limit_offset. by rewrite Ht.
Qed.

(** *** [find_linked_notes] *)

(** Membership in a list of string literals. *)
#[local] Ltac elem_closed := apply (bool_decide_unpack _); exact I.
#[local] Ltac elem_absurd H :=
  exfalso; apply (bool_decide_pack _) in H; exact H.

Lemma find_linked_notes_elem db id direction note :
  note ∈ find_linked_notes db id direction ↔
  ∃ row, row ∈ notes db ∧ note = db_note_to_note db row
         ∧ db_id row ∈ linked_ids db id direction.
Proof.
  unfold find_linked_notes. cbn zeta. case_bool_decide as Hempty.
  - rewrite Hempty. split; [by intros ?%not_elem_of_nil |].
    intros (row & _ & _ & Hin). by apply not_elem_of_empty in Hin.
  - rewrite list_elem_of_fmap. unfold order_by_updated_desc. split.
    + intros (row & -> & Hrow). rewrite merge_sort_Permutation in Hrow.
      apply list_elem_of_filter in Hrow as [Hin Hrow]. eauto.
    + intros (row & Hrow & -> & Hin). exists row. split; [done |].
      rewrite merge_sort_Permutation. by apply list_elem_of_filter.
Qed.

Lemma linked_ids_elem db id direction (x : string) :
  x ∈ linked_ids db id direction ↔
  (direction ∈ ["outgoing"; "both"]
   ∧ ∃ r, r ∈ links db ∧ dl_source_id r = id ∧ dl_target_id r = x)
  ∨ (direction ∈ ["incoming"; "both"]
     ∧ ∃ r, r ∈ links db ∧ dl_target_id r = id ∧ dl_source_id r = x).
Proof.
  assert (Hout : x ∈ (list_to_set (dl_target_id
                     <$> filter (λ r, dl_source_id r = id) (links db)) : gset string)
                 ↔ ∃ r, r ∈ links db ∧ dl_source_id r = id ∧ dl_target_id r = x).
  { rewrite elem_of_list_to_set, list_elem_of_fmap. split.
    - intros (r & -> & [Hs Hr]%list_elem_of_filter). eauto.
    - intros (r & Hr & Hs & <-). exists r. split; [done |].
      by apply list_elem_of_filter. }
  assert (Hinc : x ∈ (list_to_set (dl_source_id
                     <$> filter (λ r, dl_target_id r = id) (links db)) : gset string)
                 ↔ ∃ r, r ∈ links db ∧ dl_target_id r = id ∧ dl_source_id r = x).
  { rewrite elem_of_list_to_set, list_elem_of_fmap. split.
    - intros (r & -> & [Hs Hr]%list_elem_of_filter). eauto.
    - intros (r & Hr & Hs & <-). exists r. split; [done |].
      by apply list_elem_of_filter. }
  unfold linked_ids. cbn zeta.
  do 2 case_bool_decide; rewrite ?elem_of_union, ?Hout, ?Hinc, ?elem_of_empty;
    intuition.
Qed.

(** [find_linked_notes]: with "incoming" it returns exactly the notes of
    the store that have a link to the note, with "outgoing" exactly
    those that a stored link of the note targets, with "both" those of
    either, and with any other direction nothing; a note is returned
    once, however many links join it to the note. *)
Theorem find_linked_notes_directions db id (direction : string) :
  (∀ note, note ∈ find_linked_notes db id "incoming" ↔
     ∃ row, row ∈ notes db ∧ note = db_note_to_note db row
            ∧ ∃ l, l ∈ n_links note ∧ target_id l = id)
  ∧ (∀ note, note ∈ find_linked_notes db id "outgoing" ↔
       ∃ row, row ∈ notes db ∧ note = db_note_to_note db row
              ∧ ∃ r, r ∈ links db ∧ dl_source_id r = id
                     ∧ dl_target_id r = n_id note)
  ∧ (∀ note, note ∈ find_linked_notes db id "both" ↔
       note ∈ find_linked_notes db id "outgoing"
       ∨ note ∈ find_linked_notes db id "incoming")
  ∧ (direction ∉ ["outgoing"; "incoming"; "both"] →
     find_linked_notes db id direction = [])
  ∧ (NoDup (note_ids db) →
     NoDup (n_id <$> find_linked_notes db id direction)).
Proof.
  split; [|split; [|split; [|split]]].
  - intros note. rewrite find_linked_notes_elem. split.
    + intros (row & Hrow & -> & Hin). exists row. do 2 (split; [done |]).
      apply linked_ids_elem in Hin as [[Hd _] | [_ (r & Hr & Ht & Hs)]].
      { elem_absurd Hd. }
      exists (row_link r). split; [|done].
      cbn [db_note_to_note n_links]. apply list_elem_of_fmap.
      exists r. split; [done |]. by apply list_elem_of_filter.
    + intros (row & Hrow & -> & l & Hl & Ht). exists row. do 2 (split; [done |]).
      apply linked_ids_elem. right. split; [elem_closed |].
      cbn [db_note_to_note n_links] in Hl.
      apply list_elem_of_fmap in Hl as (r & -> & [Hs Hr]%list_elem_of_filter).
      eauto.
  - intros note. rewrite find_linked_notes_elem. split.
    + intros (row & Hrow & -> & Hin). exists row. do 2 (split; [done |]).
      apply linked_ids_elem in Hin as [[_ Hr] | [Hd _]]; [done |].
      elem_absurd Hd.
    + intros (row & Hrow & -> & Hr). exists row. do 2 (split; [done |]).
      apply linked_ids_elem. left. split; [elem_closed | done].
  - intros note. rewrite !find_linked_notes_elem. split.
    + intros (row & Hrow & -> & Hin).
      apply linked_ids_elem in Hin as [[_ Hr] | [_ Hr]]; [left | right];
        exists row; (do 2 (split; [done |])); apply linked_ids_elem;
        [left | right]; (split; [elem_closed | done]).
    + intros [(row & Hrow & -> & Hin) | (row & Hrow & -> & Hin)];
        exists row; (do 2 (split; [done |])); apply linked_ids_elem;
        apply linked_ids_elem in Hin as [[Hd Hr] | [Hd Hr]];
        try (elem_absurd Hd);
        [left | right]; (split; [elem_closed | done]).
  - intros Hd. unfold find_linked_notes. cbn zeta.
    rewrite bool_decide_eq_true_2; [done |].
    apply set_eq. intros x. rewrite linked_ids_elem, elem_of_empty.
    split; [|done]. intros [[Hin _] | [Hin _]]; apply Hd;
      rewrite !elem_of_cons in Hin; rewrite !elem_of_cons; tauto.
  - intros Hnd. unfold find_linked_notes. cbn zeta.
    case_bool_decide; [apply NoDup_nil_2 |].
    rewrite <- list_fmap_compose. change (n_id ∘ db_note_to_note db) with
      (db_id (value := value) (NoteType := NoteType)).
    unfold order_by_updated_desc. rewrite merge_sort_Permutation.
    by apply NoDup_fmap_filter.
Qed.

(** *** [get_statistics] and [get_tags] *)

(** The sum of the counts of a dict. *)
Definition sum_counts (counts : gmap string nat) : nat :=
  map_fold (λ _ c total, c + total)%nat 0%nat counts.

Lemma sum_counts_incr (counts : gmap string nat) (k : string) :
  sum_counts (<[k := S (default 0%nat (counts !! k))]> counts)
  = S (sum_counts counts).
Proof.
  unfold sum_counts.
  assert (Hcomm : ∀ (m : gmap string nat) j1 j2 z1 z2 y,
    j1 ≠ j2 → m !! j1 = Some z1 → m !! j2 = Some z2 →
    (z1 + (z2 + y) = z2 + (z1 + y))%nat) by (intros; lia).
  rewrite <- insert_delete_eq.
  rewrite map_fold_insert_L; [| by eapply Hcomm | by apply lookup_delete_eq].
  destruct (counts !! k) as [c|] eqn:E; cbn [default].
  - rewrite (map_fold_delete_L _ _ k c counts); [| by eapply Hcomm | done].
    unfold id. lia.
  - by rewrite delete_id.
Qed.

Lemma count_by_type_acc (rows : list DBNote) (acc : gmap string nat) (kind : string) :
  foldl count_row acc rows !! kind
  = (let n := length (filter (λ row, enum_value (db_note_type row) = kind) rows) in
     match n with
     | O => acc !! kind
     | S _ => Some (default 0 (acc !! kind) + n)%nat
     end)
  ∧ sum_counts (foldl count_row acc rows) = (sum_counts acc + length rows)%nat.
Proof.
  revert acc. induction rows as [|row rows IH]; intros acc; cbn [foldl].
  - split; [done | cbn; lia].
  - destruct (IH (count_row acc row)) as [IH1 IH2].
    split.
    + rewrite IH1. unfold count_row. cbn zeta. rewrite filter_cons.
      destruct (decide (enum_value (db_note_type row) = kind)) as [-> | Hne].
      * rewrite lookup_insert_eq. cbn [length default].
        unfold id.
        destruct (length (filter _ rows)); f_equal;
          generalize (default 0%nat (acc !! kind)); intros d; lia.
      * rewrite lookup_insert_ne by done. done.
    + rewrite IH2. unfold count_row. cbn zeta. rewrite sum_counts_incr.
      cbn [length]. lia.
Qed.

(** [get_statistics]: the dict of counts by kind has an entry exactly
    for the kinds some note has, the number of notes of that kind, and
    its counts add up to the total number of notes. *)
Theorem statistics_counts_by_type db (kind : string) :
  let stats := get_statistics db in
  let n := length (filter (λ row, enum_value (db_note_type row) = kind)
                          (notes db)) in
  st_notes_by_type stats !! kind = (if decide (n = 0%nat) then None else Some n)
  ∧ sum_counts (st_notes_by_type stats) = st_total_notes stats.
Proof.
  cbn zeta. unfold get_statistics, count_by_type.
  cbn [st_notes_by_type st_total_notes].
  destruct (count_by_type_acc (notes db) ∅ kind) as [H1 H2].
  rewrite H1, H2. cbn zeta. rewrite lookup_empty. split.
  - destruct (length (filter _ (notes db))); [done |]. by rewrite decide_False.
  - unfold sum_counts. by rewrite map_fold_empty.
Qed.

#[local] Instance more_notes_total : Total more_notes.
Proof. intros g1 g2. unfold more_notes. lia. Qed.

#[local] Instance more_notes_trans : Transitive more_notes.
Proof. intros g1 g2 g3. unfold more_notes. lia. Qed.


End StoreQueries.

(* ===================================================================== *)
(** ** The importer: counters, batches and repeated imports               *)
(* ===================================================================== *)

Section ImporterRuns.

Context {value : Type} `{!PyValue value}.
Context {NoteType : Type} `{!PyEnum NoteType}.
Context {LinkType : Type} `{!PyEnum LinkType}.
Context (PERMANENT : NoteType) (REFERENCE : LinkType).
Context {ISO : IsoFormat} {FM : FrontMatter value}.

#[local] Abbreviation Note := (Note value NoteType LinkType).
#[local] Abbreviation DB := (DB value NoteType LinkType).

Implicit Types (db : DB) (stats : ImportStats) (fs : string → result string).

(** The files an importer has dealt with, by its counters. *)
Definition handled stats : nat :=
  (imported stats + updated stats + skipped stats + failed stats)%nat.

(** Statistics that differ only by warnings added at the end. *)
Definition warned (stats stats' : ImportStats) : Prop :=
  total_files stats' = total_files stats
  ∧ imported stats' = imported stats
  ∧ updated stats' = updated stats
  ∧ skipped stats' = skipped stats
  ∧ failed stats' = failed stats
  ∧ warnings stats `prefix_of` warnings stats'.

Lemma warned_refl stats : warned stats stats.
Proof. by repeat split. Qed.

Lemma warned_add stats stats' w :
  warned stats stats' → warned stats (add_warning stats' w).
Proof.
  intros (H1 & H2 & H3 & H4 & H5 & H6). repeat split; try done.
  cbn. by apply prefix_app_r.
Qed.

(** The decoder touches nothing but the warnings. *)
Lemma parse_note_warned fs now file_path stats :
  warned stats
    (parse_note_from_markdown PERMANENT REFERENCE fs now file_path stats).2.
Proof.
  unfold parse_note_from_markdown, try_parse_note.
  destruct (fs file_path) as [content|e];
    [|apply warned_add, warned_refl].
  destruct (fm_loads content) as [post|e];
    [|apply warned_add, warned_refl].
  destruct (get_truthy (post_metadata post) "id") as [note_id|];
    [|apply warned_add, warned_refl].
  destruct (lookup_note_type _); cbn [fst snd];
  match goal with |- context [rbind ?r ?k] => destruct (rbind r k) end;
    cbn [snd]; repeat apply warned_add; apply warned_refl.
Qed.

(** What one call of [import_single_file] does to the counts and to the
    store. *)
Lemma import_single_file_counted fs (now : Z) (file_path : string)
    (update_existing : bool) db stats :
  let r :=
    import_single_file PERMANENT REFERENCE fs now file_path update_existing
      (db, stats) in
  handled r.2.2 = S (handled stats)
  ∧ total_files r.2.2 = total_files stats
  ∧ warnings stats `prefix_of` warnings r.2.2
  ∧ (r.1 = false ↔ failed r.2.2 = S (failed stats))
  ∧ (r.1 = false → r.2.1 = db)
  ∧ (∀ id, id ∈ note_ids db → id ∈ note_ids r.2.1).
Proof.
  cbn zeta. unfold import_single_file.
  pose proof (parse_note_warned fs now file_path stats) as Hw.
  destruct (parse_note_from_markdown PERMANENT REFERENCE fs now file_path stats)
    as [[note|] stats'] eqn:Hparse; cbn [snd] in Hw;
    destruct Hw as (H1 & H2 & H3 & H4 & H5 & H6).
  2:{ cbn. unfold handled. cbn. repeat split; try done; lia. }
  unfold read. destruct (find_note db (n_id note)) as [old|] eqn:E;
    cbn [fmap option_fmap option_map].
  - destruct update_existing.
    + rewrite (update_Ok now note db old E). cbn. unfold handled. cbn.
      repeat split; try done; try lia.
      intros id Hid. by rewrite (updated_db_ids now note db old E).
    + cbn. unfold handled. cbn. repeat split; try done; lia.
  - rewrite (create_Ok now note db E). cbn. unfold handled. cbn.
    repeat split; try done; try lia.
    intros id Hid. rewrite created_db_ids. apply elem_of_app. by left.
Qed.

(** [import_single_file] counts every file once: one of the four
    counters grows by one, [failed] exactly when it returns [False], and
    the warnings are only added to; a call that returns [False] has
    written nothing, and no call removes a note. *)
Theorem import_single_file_accounts fs (now : Z) (file_path : string)
    (update_existing : bool) db stats :
  let r :=
    import_single_file PERMANENT REFERENCE fs now file_path update_existing
      (db, stats) in
  handled r.2.2 = S (handled stats)
  ∧ total_files r.2.2 = total_files stats
  ∧ warnings stats `prefix_of` warnings r.2.2
  ∧ (r.1 = false ↔ failed r.2.2 = S (failed stats))
  ∧ (r.1 = false → r.2.1 = db)
  ∧ (∀ id, id ∈ note_ids db → id ∈ note_ids r.2.1).
Proof. apply import_single_file_counted. Qed.

Lemma importable_idem (glob : list string) :
  importable (importable glob) = importable glob.
Proof.
  unfold importable. rewrite list_filter_filter. apply list_filter_iff.
  intros f. tauto.
Qed.

(** The loop of [import_directory] over the files. *)
Lemma import_files_accounts fs (now : Z) (update_existing : bool)
    (files : list string) db stats :
  let r :=
    foldl (λ st file_path,
             (import_single_file PERMANENT REFERENCE fs now file_path
                update_existing st).2)
          (db, stats) files in
  handled r.2 = (handled stats + length files)%nat
  ∧ total_files r.2 = total_files stats
  ∧ warnings stats `prefix_of` warnings r.2
  ∧ (∀ id, id ∈ note_ids db → id ∈ note_ids r.1).
Proof.
  cbn zeta. revert db stats.
  induction files as [|f files IH]; intros db stats; cbn [foldl length].
  - cbn [fst snd]. split; [lia | done].
  - pose proof (import_single_file_counted fs now f update_existing db stats)
      as (A1 & A2 & A3 & _ & _ & A6). cbn zeta in *.
    destruct (import_single_file PERMANENT REFERENCE fs now f update_existing
                (db, stats)) as [flag [db1 stats1]]. cbn [fst snd] in *.
    destruct (IH db1 stats1) as (B1 & B2 & B3 & B4).
    split; [lia |]. split; [congruence |].
    split; [by etrans | eauto].
Qed.

(** The counts [import_directory] leaves, given the listing. *)
Lemma import_directory_handled fs (now : Z) (glob : list string)
    (update_existing : bool) db stats :
  let r :=
    import_directory PERMANENT REFERENCE fs now glob update_existing (db, stats) in
  total_files r.2 = length (importable glob)
  ∧ handled r.2 = (handled stats + length (importable glob))%nat.
Proof.
  cbn zeta. unfold import_directory. cbn [fst snd].
  pose proof (import_files_accounts fs now update_existing (importable glob) db
                (set_total_files (length (importable glob)) stats))
    as (A1 & A2 & _). cbn zeta in *.
  split; [by rewrite A2 | by rewrite A1].
Qed.

(** The name of a file of a directory. *)
Lemma path_name_in_dir (dir name : string) :
  contains "/" name = false → path_name (dir +:+ "/" +:+ name) = name.
Proof.
  intros Hname. unfold path_name.
  change ("/" +:+ name) with (String "/" name).
  rewrite split_char_app, (split_char_no_sep _ name Hname).
  apply last_last.
Qed.

(** The files an import takes from the listing of a directory, by their
    names. *)
Lemma importable_in_dir (dir : string) (names : list string) :
  Forall (λ name, contains "/" name = false) names →
  importable ((λ name, dir +:+ "/" +:+ name) <$> names)
  = (λ name, dir +:+ "/" +:+ name)
      <$> filter (λ name, startswith name "_" = false) names.
Proof.
  unfold importable. induction 1 as [|name names Hname _ IH]; [done |].
  cbn [fmap list_fmap]. rewrite !filter_cons, IH, (path_name_in_dir _ _ Hname).
  by destruct (decide (startswith name "_" = false)).
Qed.

(** The decoder reads the one file it is given. *)
Lemma import_single_file_reads fs fs' (now : Z) (file_path : string)
    (update_existing : bool) st :
  fs' file_path = fs file_path →
  import_single_file PERMANENT REFERENCE fs' now file_path update_existing st
  = import_single_file PERMANENT REFERENCE fs now file_path update_existing st.
Proof.
  intros Hfs. destruct st as [db stats].
  unfold import_single_file, parse_note_from_markdown, try_parse_note.
  by rewrite Hfs.
Qed.

Lemma import_files_read fs fs' (now : Z) (update_existing : bool)
    (files : list string) st :
  (∀ f, f ∈ files → fs' f = fs f) →
  foldl (λ st file_path,
           (import_single_file PERMANENT REFERENCE fs' now file_path
              update_existing st).2) st files
  = foldl (λ st file_path,
             (import_single_file PERMANENT REFERENCE fs now file_path
                update_existing st).2) st files.
Proof.
  revert st. induction files as [|f files IH]; intros st Hfs; [done |].
  cbn [foldl]. rewrite (import_single_file_reads fs fs') by (apply Hfs; left).
  apply IH. intros g Hg. apply Hfs. by right.
Qed.

(** [import_directory] on the directory [dir] that holds the [*.md]
    files of the names [names]: the files it handles are those whose
    name does not start with an underscore, one after the other in the
    order of the listing, and no other. Afterwards [total_files] is
    their number and the four counters have grown by it in total, so on
    a fresh importer they add up to [total_files]; warnings are only
    appended and no note is removed; and what the files with an
    underscore hold makes no difference to the result: they are not
    read. *)
Theorem import_directory_accounts fs (now : Z) (dir : string)
    (names : list string) (update_existing : bool) db stats :
  let in_dir := λ name, dir +:+ "/" +:+ name in
  let kept := filter (λ name, startswith name "_" = false) names in
  let r :=
    import_directory PERMANENT REFERENCE fs now (in_dir <$> names)
      update_existing (db, stats) in
  Forall (λ name, contains "/" name = false) names →
  total_files r.2 = length kept
  ∧ handled r.2 = (handled stats + length kept)%nat
  ∧ (handled stats = 0%nat → handled r.2 = total_files r.2)
  ∧ warnings stats `prefix_of` warnings r.2
  ∧ (∀ id, id ∈ note_ids db → id ∈ note_ids r.1)
  ∧ r = foldl (λ st name,
                 (import_single_file PERMANENT REFERENCE fs now (in_dir name)
                    update_existing st).2)
              (db, set_total_files (length kept) stats) kept
  ∧ (∀ fs' : string → result string,
       (∀ name, name ∈ kept → fs' (in_dir name) = fs (in_dir name)) →
       import_directory PERMANENT REFERENCE fs' now (in_dir <$> names)
         update_existing (db, stats) = r).
Proof.
  intros in_dir kept r Hnames. subst r. unfold import_directory. cbn [fst snd].
  assert (Himp : importable (in_dir <$> names) = in_dir <$> kept)
    by apply (importable_in_dir dir names Hnames).
  rewrite Himp, length_fmap.
  pose proof (import_files_accounts fs now update_existing (in_dir <$> kept) db
                (set_total_files (length kept) stats))
    as (A1 & A2 & A3 & A4). cbn zeta in *. rewrite length_fmap in A1.
  split; [by rewrite A2 |]. split; [by rewrite A1 |].
  split; [intros H0; rewrite A1, A2; unfold handled in *; cbn in *; lia |].
  split; [done |]. split; [done |].
  split.
  - by rewrite foldl_fmap.
  - intros fs' Hfs. apply import_files_read.
    intros f (name & -> & Hin)%list_elem_of_fmap. by apply Hfs.
Qed.

(** [range(start, stop, step)], [step] not being zero: at most
    [|stop - start|] numbers. *)
Fixpoint range_from (fuel : nat) (start stop step : Z) : list Z :=
  match fuel with
  | O => []
  | S fuel' =>
      if (if 0 <? step then start <? stop else stop <? start)
      then start :: range_from fuel' (start + step) stop step
      else []
  end.

Definition py_range (start stop step : Z) : result (list Z) :=
  if step =? 0 then Raise "range() arg 3 must not be zero"
  else Ok (range_from (Z.to_nat (Z.abs (stop - start))) start stop step).

(** [l[i:j]] for indices that are not negative. *)
Definition py_slice {A} (i j : Z) (l : list A) : list A :=
  take (Z.to_nat j - Z.to_nat i) (List.skipn (Z.to_nat i) l).

(** [MarkdownImporter.import_directory] with its [batch_size]: the
    store and the statistics it leaves, and the exception it raises, if
    any. [glob] is the list of the [*.md] files of the directory, [None]
    when the directory does not exist. *)
Definition import_directory_in_batches fs (now : Z) (import_dir : string)
    (glob : option (list string)) (update_existing : bool) (batch_size : Z)
    (st : DB * ImportStats) : (DB * ImportStats) * option string :=
  match glob with
  | None => (st, Some ("Import directory " +:+ import_dir +:+ " does not exist"))
  | Some glob =>
      let md_files := importable glob in
      let st := (st.1, set_total_files (length md_files) st.2) in
      match py_range 0 (Z.of_nat (length md_files)) batch_size with
      | Raise e => (st, Some e)
      | Ok starts =>
          (foldl (λ st i,
                    foldl (λ st file_path,
                             (import_single_file PERMANENT REFERENCE fs now
                                file_path update_existing st).2)
                          st (py_slice i (i + batch_size) md_files))
                 st starts,
           None)
      end
  end.

Lemma range_from_batches {A} (step : Z) (l : list A) :
  0 < step →
  ∀ (fuel : nat) (done_ : nat),
    (length l - done_ ≤ fuel)%nat →
    concat ((λ i, py_slice i (i + step) l)
              <$> range_from fuel (Z.of_nat done_) (Z.of_nat (length l)) step)
    = List.skipn done_ l.
Proof.
  intros Hstep fuel. induction fuel as [|fuel IH]; intros done_ Hfuel.
  - cbn. symmetry. apply drop_ge. lia.
  - cbn [range_from]. assert (E : (0 <? step) = true) by lia. rewrite E.
    destruct (Z.of_nat done_ <? Z.of_nat (length l)) eqn:Hlt.
    + cbn [fmap list_fmap concat].
      replace (Z.of_nat done_ + step)
        with (Z.of_nat (done_ + Z.to_nat step)) by lia.
      rewrite IH by lia. unfold py_slice.
      rewrite !Nat2Z.id.
      replace (done_ + Z.to_nat step - done_)%nat with (Z.to_nat step) by lia.
      rewrite <- (take_drop (Z.to_nat step) (List.skipn done_ l)) at 2.
      by rewrite drop_drop.
    + cbn. symmetry. apply drop_ge. lia.
Qed.

Lemma foldl_batches {A B C} (f : B → A → B) (h : C → list A) (b : B)
    (starts : list C) :
  foldl (λ b i, foldl f b (h i)) b starts = foldl f b (concat (h <$> starts)).
Proof.
  revert b. induction starts as [|i starts IH]; intros b;
    cbn [foldl fmap list_fmap concat]; [done |].
  by rewrite IH, foldl_app.
Qed.

(** The [batch_size] of [import_directory]: a positive one does not
    change what is imported; with zero the call raises the error of
    [range] after it has set [total_files]; a negative one imports
    nothing and returns. A directory that does not exist raises and
    nothing is touched. *)
Theorem import_directory_batch_size fs (now : Z) (import_dir : string)
    (glob : list string) (update_existing : bool) (batch_size : Z)
    (st : DB * ImportStats) :
  let untouched :=
    (st.1, set_total_files (length (importable glob)) st.2) in
  import_directory_in_batches fs now import_dir None update_existing batch_size st
  = (st, Some ("Import directory " +:+ import_dir +:+ " does not exist"))
  ∧ import_directory_in_batches fs now import_dir (Some glob) update_existing
      batch_size st
    = (if 0 <? batch_size
       then (import_directory PERMANENT REFERENCE fs now glob update_existing st,
             None)
       else if batch_size =? 0
       then (untouched, Some "range() arg 3 must not be zero")
       else (untouched, None)).
Proof.
  cbn zeta. split; [done |]. unfold import_directory_in_batches, py_range.
  destruct (Z.ltb_spec 0 batch_size) as [Hpos | Hnpos].
  - assert (E : (batch_size =? 0) = false) by lia. rewrite E.
    unfold import_directory. f_equal.
    rewrite (foldl_batches _ (λ i, py_slice i (i + batch_size) (importable glob))).
    rewrite Z.sub_0_r, Z.abs_eq, Nat2Z.id by lia.
    pose proof (range_from_batches batch_size (importable glob) Hpos
                  (length (importable glob)) 0%nat) as Hr.
    change (Z.of_nat 0) with 0 in Hr. rewrite Hr by lia. done.
  - assert (E : (0 <? batch_size) = false) by lia.
    destruct (Z.eqb_spec batch_size 0) as [-> | Hne]; [done |].
    assert (E' : ∀ n : nat, (Z.of_nat n <? 0) = false) by (intros n; apply Z.ltb_ge; lia).
    destruct (Z.to_nat _) as [|fuel]; cbn [range_from foldl]; [done |].
    by rewrite E, E'.
Qed.

(** *** Importing a file again *)

(** Two notes that differ at most by their timestamps and the creation
    times of their links. *)
Definition same_but_times (n1 n2 : Note) : Prop :=
  n_id n2 = n_id n1 ∧ n_title n2 = n_title n1 ∧ n_content n2 = n_content n1
  ∧ n_note_type n2 = n_note_type n1 ∧ n_tags n2 = n_tags n1
  ∧ n_metadata n2 = n_metadata n1.

(** Whether the decoder yields a note, and which id, title, content,
    kind, tags and metadata it has, depends on the file alone, not on
    the time of the call or on the statistics. *)
Lemma parse_note_again fs (now1 now2 : Z) file_path stats1 stats2 n1 :
  (parse_note_from_markdown PERMANENT REFERENCE fs now1 file_path stats1).1
  = Some n1 →
  ∃ n2,
    (parse_note_from_markdown PERMANENT REFERENCE fs now2 file_path stats2).1
    = Some n2
    ∧ same_but_times n1 n2.
Proof.
  unfold parse_note_from_markdown, try_parse_note, same_but_times.
  destruct (fs file_path) as [content|e]; [|done].
  destruct (fm_loads content) as [post|e]; [|done].
  destruct (get_truthy (post_metadata post) "id") as [note_id|]; [|done].
  unfold timestamp_or.
  destruct (lookup_note_type _); cbn [fst snd];
  (destruct (get_truthy (post_metadata post) "created") as [c|];
   [destruct (fromisoformat_value c) as [ct|]; [|done] |]; cbn [rbind];
   (destruct (get_truthy (post_metadata post) "updated") as [u|];
    [destruct (fromisoformat_value u) as [ut|]; [|done] |]; cbn [rbind];
    (destruct (str_field note_id) as [id|]; [|done]); cbn [rbind];
    (destruct (str_field _) as [title|]; [|done]); cbn [rbind fst];
    intros [= <-]; eexists; (split; [reflexivity |]); done)).
Qed.

Lemma import_single_file_stores fs (now : Z) file_path update_existing db stats
    note :
  (parse_note_from_markdown PERMANENT REFERENCE fs now file_path stats).1
  = Some note →
  n_id note ∈ note_ids
    (import_single_file PERMANENT REFERENCE fs now file_path update_existing
       (db, stats)).2.1.
Proof.
  intros Hparse. unfold import_single_file.
  destruct (parse_note_from_markdown PERMANENT REFERENCE fs now file_path stats)
    as [[n|] stats']; cbn [fst] in Hparse; [|done]. injection Hparse as ->.
  unfold read. destruct (find_note db (n_id note)) as [old|] eqn:E;
    cbn [fmap option_fmap option_map].
  - assert (Hin : n_id note ∈ note_ids db)
      by (apply find_note_is_Some; rewrite E; eauto).
    destruct update_existing; cbn.
    + rewrite (update_Ok now note db old E). cbn.
      by rewrite (updated_db_ids now note db old E).
    + done.
  - rewrite (create_Ok now note db E). cbn. rewrite created_db_ids.
    apply elem_of_app. right. by apply list_elem_of_singleton.
Qed.

Lemma import_single_file_present fs (now : Z) file_path db stats :
  (∀ note,
     (parse_note_from_markdown PERMANENT REFERENCE fs now file_path stats).1
     = Some note → n_id note ∈ note_ids db) →
  let r :=
    import_single_file PERMANENT REFERENCE fs now file_path false (db, stats) in
  r.2.1 = db ∧ imported r.2.2 = imported stats ∧ updated r.2.2 = updated stats.
Proof.
  intros Hin. cbn zeta. unfold import_single_file.
  pose proof (parse_note_warned fs now file_path stats) as Hw.
  destruct (parse_note_from_markdown PERMANENT REFERENCE fs now file_path stats)
    as [[n|] stats']; cbn [fst snd] in *;
    destruct Hw as (_ & H2 & H3 & _); [|done].
  specialize (Hin n eq_refl). apply find_note_is_Some in Hin as [old E].
  unfold read. rewrite E. cbn. done.
Qed.

Lemma import_files_present fs (now : Z) (files : list string) db stats :
  (∀ f note stats',
     f ∈ files →
     (parse_note_from_markdown PERMANENT REFERENCE fs now f stats').1 = Some note →
     n_id note ∈ note_ids db) →
  let r :=
    foldl (λ st file_path,
             (import_single_file PERMANENT REFERENCE fs now file_path false st).2)
          (db, stats) files in
  r.1 = db ∧ imported r.2 = imported stats ∧ updated r.2 = updated stats.
Proof.
  cbn zeta. revert stats. induction files as [|g files IH]; intros stats Hids;
    cbn [foldl]; [done |].
  pose proof (import_single_file_present fs now g db stats
                (λ note Hn, Hids g note stats (list_elem_of_here _ _) Hn))
    as (P1 & P2 & P3). cbn zeta in *.
  destruct (import_single_file PERMANENT REFERENCE fs now g false (db, stats))
    as [flag [db2 stats2]]. cbn [fst snd] in *. subst db2.
  rewrite <- P2, <- P3. apply IH. intros f note stats' Hf.
  apply Hids. by right.
Qed.

(** Importing a directory a second time, without [update_existing],
    changes nothing in the store and imports and updates nothing: every
    file that gave a note the first time is skipped, the others fail
    again. *)
Theorem import_directory_again fs (now1 now2 : Z) (glob : list string)
    (update_existing : bool) (st : DB * ImportStats) :
  let first :=
    import_directory PERMANENT REFERENCE fs now1 glob update_existing st in
  let second := import_directory PERMANENT REFERENCE fs now2 glob false first in
  second.1 = first.1
  ∧ imported second.2 = imported first.2
  ∧ updated second.2 = updated first.2
  ∧ handled second.2 = (handled first.2 + length (importable glob))%nat.
Proof.
  cbn zeta.
  set (first := import_directory PERMANENT REFERENCE fs now1 glob update_existing st).
  assert (Hids : ∀ f note stats,
    f ∈ importable glob →
    (parse_note_from_markdown PERMANENT REFERENCE fs now2 f stats).1 = Some note →
    n_id note ∈ note_ids first.1).
  { intros f note stats Hf Hparse. unfold first, import_directory.
    generalize (st.1, set_total_files (length (importable glob)) st.2).
    induction (importable glob) as [|g files IH]; intros st0;
      [by apply not_elem_of_nil in Hf |].
    cbn [foldl]. apply elem_of_cons in Hf as [<- | Hf]; [|by apply IH].
    destruct st0 as [db0 stats0].
    destruct (parse_note_again fs now2 now1 f stats stats0 note Hparse)
      as (n1 & Hn1 & Hsame & _).
    pose proof (import_single_file_stores fs now1 f update_existing db0 stats0
                  n1 Hn1) as Hin.
    rewrite Hsame in Hin.
    destruct (import_single_file PERMANENT REFERENCE fs now1 f update_existing
                (db0, stats0)) as [flag [db1 stats1]]. cbn [fst snd] in *.
    by apply (import_files_accounts fs now1 update_existing files db1 stats1). }
  destruct (import_directory_handled fs now2 glob false first.1 first.2)
    as (_ & Hh). cbn zeta in Hh.
  destruct first as [db1 stats1]. cbn [fst snd] in *.
  destruct (import_files_present fs now2 (importable glob) db1
              (set_total_files (length (importable glob)) stats1))
    as (P1 & P2 & P3); [by eauto |].
  unfold import_directory. cbn [fst snd]. cbn zeta in P1, P2, P3.
  by rewrite P1, P2, P3.
Qed.

(** A file that cannot be read, or whose front matter does not load,
    gives no note: the decoder records "Failed to parse ..." with the
    text of the exception, and [import_single_file] counts a failure
    and leaves the store as it is. *)
Theorem import_unreadable_file fs (now : Z) (file_path e : string)
    (update_existing : bool) db stats :
  fs file_path = Raise e
  ∨ (∃ text, fs file_path = Ok text ∧ fm_loads text = Raise e) →
  let warned_stats :=
    add_warning stats ("Failed to parse " +:+ file_path +:+ ": " +:+ e) in
  parse_note_from_markdown PERMANENT REFERENCE fs now file_path stats
  = (None, warned_stats)
  ∧ import_single_file PERMANENT REFERENCE fs now file_path update_existing
      (db, stats)
    = (false, (db, incr_failed warned_stats)).
Proof.
  intros Hbad. cbn zeta.
  assert (Hparse : parse_note_from_markdown PERMANENT REFERENCE fs now file_path
                     stats
    = (None, add_warning stats ("Failed to parse " +:+ file_path +:+ ": " +:+ e))).
  { unfold parse_note_from_markdown, try_parse_note.
    destruct Hbad as [-> | (text & -> & ->)]; done. }
  split; [done |]. unfold import_single_file. by rewrite Hparse.
Qed.

End ImporterRuns.

(* ===================================================================== *)
(** ** The importer's decoder: defaults and the Links section             *)
(* ===================================================================== *)

Section DecoderEdges.

Context {value : Type} `{!PyValue value}.
Context {NoteType : Type} `{!PyEnum NoteType}.
Context {LinkType : Type} `{!PyEnum LinkType}.
Context (PERMANENT : NoteType) (REFERENCE : LinkType).
Context {ISO : IsoFormat} {FM : FrontMatter value}.

#[local] Abbreviation Note := (Note value NoteType LinkType).
#[local] Abbreviation Link := (Link LinkType).

(** The importer's decoder on a header with an id: a missing title is
    "Untitled Note <id>"; a missing or unknown kind is PERMANENT, an
    unknown one with a warning; a missing [updated] is the [created] of
    the note, which is the time of the call when it is missing too; no
    [tags] entry gives no tag. *)
Theorem importer_decoder_defaults
    (fs : string → result string) (now : Z) (file_path text : string)
    (post : Post value) (stats : ImportStats) (nid : string) (c : Z) :
  let md := post_metadata post in
  let kind := default (VStr (enum_value PERMANENT)) (md !! "type") in
  let r := parse_note_from_markdown PERMANENT REFERENCE fs now file_path stats in
  fs file_path = Ok text → fm_loads text = Ok post →
  md !! "id" = Some (VStr nid) → is_empty nid = false →
  (md !! "title" = None ∨ ∃ t, md !! "title" = Some (VStr t)) →
  timestamp_or md "created" (Ok now) = Ok c →
  md !! "updated" = None →
  ∃ note,
    r.1 = Some note
    ∧ n_id note = nid
    ∧ n_title note
      = match md !! "title" with
        | Some v => py_str v
        | None => "Untitled Note " +:+ nid
        end
    ∧ n_note_type note
      = default PERMANENT (@lookup_note_type value _ NoteType _ kind)
    ∧ n_created_at note = c
    ∧ n_updated_at note = c
    ∧ (md !! "created" = None → c = now)
    ∧ (md !! "tags" = None → n_tags note = [])
    ∧ warnings r.2
      = warnings stats
        ++ match @lookup_note_type value _ NoteType _ kind with
           | Some _ => []
           | None =>
               ["Invalid note type '" +:+ py_str kind +:+ "' in "
                +:+ file_path +:+ ", using PERMANENT"]
           end.
Proof.
  intros md kind r Hfs Hfm Hid Hne Htitle Hc Hu. subst r.
  unfold parse_note_from_markdown, try_parse_note. rewrite Hfs, Hfm. fold md.
  assert (Hget : get_truthy md "id" = Some (VStr nid)).
  { unfold get_truthy. by rewrite Hid, truthy_VStr, Hne. }
  rewrite Hget. fold kind. rewrite py_str_VStr, str_field_VStr.
  assert (Hupd : ∀ d, timestamp_or md "updated" d = d).
  { intros d. unfold timestamp_or, get_truthy. by rewrite Hu. }
  assert (Htf : ∃ t, str_field (default (VStr ("Untitled Note " +:+ nid))
                                  (md !! "title")) = Ok t
                     ∧ t = match md !! "title" with
                           | Some v => py_str v
                           | None => "Untitled Note " +:+ nid
                           end).
  { destruct Htitle as [-> | [t ->]]; cbn [default from_option id];
      rewrite str_field_VStr; eexists; (split; [done |]);
      by rewrite ?py_str_VStr. }
  destruct Htf as (t & Ht & Htv).
  assert (Hnow : md !! "created" = None → c = now).
  { intros Hnone. unfold timestamp_or, get_truthy in Hc. rewrite Hnone in Hc.
    congruence. }
  assert (Htags : md !! "tags" = None →
                  parse_tags (default (VStr "") (md !! "tags")) = []).
  { intros ->. cbn [default from_option id]. unfold parse_tags.
    by rewrite as_str_VStr. }
  destruct (lookup_note_type kind) as [k|] eqn:Ek; cbn [fst snd];
    rewrite Hc; cbn [rbind]; rewrite Hupd; cbn [rbind]; rewrite Ht;
    cbn [rbind fst snd]; eexists; (split; [reflexivity |]);
    cbn [n_id n_title n_note_type n_created_at n_updated_at n_tags
         default from_option id warnings add_warning];
    rewrite ?app_nil_r; repeat split; done.
Qed.

(** *** The Links section *)

(** What every turn of the decoder's loop keeps: the links it has
    collected have the note as source and the time of the call as
    creation time, and there is at most one for each line seen. *)
Lemma extract_fold_invariant (now : Z) (source : string) (ls : list string)
    (st : bool * list Link) :
  let P (acc : list Link) :=
    Forall (λ l, source_id l = source ∧ l_created_at l = Some now) acc in
  let st' := fold_left (extract_step REFERENCE now source) ls st in
  P st.2 →
  P st'.2
  ∧ (length st'.2
     ≤ length st.2
       + length (filter (λ line, startswith (strip line) "- " = true) ls))%nat.
Proof.
  cbn zeta. revert st. induction ls as [|x ls IH]; intros [s acc] Hacc;
    cbn [fold_left]; [split; [done | cbn; lia] |].
  assert (Hstep :
    let st1 := extract_step REFERENCE now source (s, acc) x in
    Forall (λ l, source_id l = source ∧ l_created_at l = Some now) st1.2
    ∧ (length st1.2
       ≤ length acc + (if startswith (strip x) "- " then 1 else 0))%nat).
  { cbn zeta. unfold extract_step.
    destruct (startswith (strip x) "- ") eqn:Edash;
      destruct (startswith (strip x) "## Links");
      try (split; [done | cbn; lia]);
      destruct (s && startswith (strip x) "## ");
      try (split; [done | cbn; lia]);
      destruct s; cbn [andb]; try (split; [done | cbn; lia]).
    destruct (contains "[[" (strip x) && contains "]]" (strip x));
      [|split; [done | cbn; lia]].
    unfold parse_link_line.
    destruct (find_split "[[" (strip x)) as [[before after]|];
      [|split; [done | cbn; lia]].
    destruct (find_split "]]" after) as [[t d]|]; cbn [snd];
      (split; [apply Forall_app; split; [done | by repeat constructor]
              | rewrite length_app; cbn; lia]). }
  cbn zeta in Hstep. destruct Hstep as [H1 H2].
  destruct (IH _ H1) as [I1 I2]. split; [done |].
  rewrite filter_cons. cbn [snd] in *.
  destruct (startswith (strip x) "- ") eqn:E.
  - rewrite decide_True by done. cbn [length]. lia.
  - rewrite decide_False by done. lia.
Qed.

(** A second-level heading that is not a Links heading closes the Links
    section: in what follows it, up to the next Links heading, no line
    is read as a link. *)
Lemma extract_closed_section (now : Z) (source heading : string)
    (before after : list string) :
  startswith (strip heading) "## " = true →
  startswith (strip heading) "## Links" = false →
  (∀ x, x ∈ after → contains links_heading x = false) →
  fold_left (extract_step REFERENCE now source)
    (before ++ heading :: after) (false, [])
  = (false,
     (fold_left (extract_step REFERENCE now source) before (false, [])).2).
Proof.
  intros Hh Hnl Hafter. rewrite fold_left_app. cbn [fold_left].
  destruct (fold_left _ before (false, [])) as [s acc]. cbn [snd].
  assert (Hstep : extract_step REFERENCE now source (s, acc) heading = (false, acc)).
  { unfold extract_step. rewrite Hnl, Hh. by destruct s. }
  rewrite Hstep. by apply extract_fold_outside.
Qed.

(** [_extract_links_from_content]: every link it returns has the note
    as source and the time of the call as creation time; there are at
    most as many as lines that start with a bullet; a text without a
    Links heading has none; and the text after a second-level heading
    that closes the section adds none. *)
Theorem extract_links_section (now : Z) (source content : string) :
  let links := extract_links_from_content REFERENCE now source content in
  (∀ l, l ∈ links → source_id l = source ∧ l_created_at l = Some now)
  ∧ (length links
     ≤ length (filter (λ line, startswith (strip line) "- " = true)
                      (split_char "010" content)))%nat
  ∧ (contains links_heading content = false → links = [])
  ∧ (∀ heading rest,
       startswith (strip heading) "## " = true →
       startswith (strip heading) "## Links" = false →
       contains nl heading = false →
       contains links_heading rest = false →
       extract_links_from_content REFERENCE now source
         (content +:+ nl +:+ heading +:+ nl +:+ rest)
       = links).
Proof.
  cbn zeta. unfold extract_links_from_content.
  destruct (extract_fold_invariant now source (split_char "010" content)
              (false, [])) as [H1 H2]; [by constructor |].
  cbn zeta in *. cbn [snd length] in *.
  split; [by apply Forall_forall |]. split; [lia |].
  split; [by apply extract_links_no_heading |].
  intros heading rest Hh Hnh Hnl Hrest.
  change (content +:+ nl +:+ heading +:+ nl +:+ rest)
    with (content +:+ String "010" (heading +:+ String "010" rest)).
  rewrite split_char_app, split_char_app.
  rewrite (split_char_no_sep _ heading) by done. cbn [app].
  rewrite extract_closed_section; [done.. |].
  intros x Hx. destruct (contains links_heading x) eqn:E; [|done].
  by rewrite (contains_split_char _ _ _ _ Hx E) in Hrest.
Qed.

(** One bullet under a Links heading, with any word as kind: the link
    has the kind the word names and, when it names none, REFERENCE. *)
Theorem bullet_kind_defaults_to_reference (now : Z)
    (source kind target : string) :
  plain_kind kind →
  stripped target → contains nl target = false →
  find_split "]]" (target +:+ "]]") = Some (target, "") →
  extract_links_from_content REFERENCE now source
    (links_heading +:+ nl +:+ "- " +:+ kind +:+ " [[" +:+ target +:+ "]]")
  = [mkLink source target (default REFERENCE (enum_lookup kind)) (Some "")
            (Some now)].
Proof.
  intros (Hv & Hvs & Hvnl & Hopen) Hts Htnl Hclose.
  unfold extract_links_from_content.
  change (links_heading +:+ nl +:+ "- " +:+ kind +:+ " [[" +:+ target +:+ "]]")
    with (links_heading
          +:+ String "010" ("- " +:+ kind +:+ " [[" +:+ target +:+ "]]")).
  rewrite split_char_app. rewrite (split_char_no_sep _ links_heading) by done.
  set (line := "- " +:+ kind +:+ " [[" +:+ target +:+ "]]").
  assert (Hparts : line = ("- " +:+ kind +:+ " ") +:+ "[[" +:+ target +:+ "]]" +:+ "")
    by (unfold line; by rewrite !str_app_assoc).
  assert (Hnl : contains (String "010" "") line = false).
  { unfold line. unfold nl in *. by rewrite !contains_char_app, Hvnl, Htnl. }
  rewrite (split_char_no_sep _ line Hnl). cbn [app fold_left].
  assert (H1 : extract_step REFERENCE now source (false, []) links_heading
               = (true, [])) by done.
  rewrite H1.
  assert (Hrs : rstrip line = line).
  { rewrite Hparts.
    replace (("- " +:+ kind +:+ " ") +:+ "[[" +:+ target +:+ "]]" +:+ "")
      with (("- " +:+ kind +:+ " [[" +:+ target) +:+ "]]")
      by (by rewrite !str_app_assoc).
    by rewrite rstrip_app. }
  assert (Hstrip : strip line = line)
    by (unfold strip; rewrite Hrs; by unfold line).
  unfold extract_step. rewrite !Hstrip.
  assert (Hhead : ∀ p, startswith line (String "#" p) = false)
    by (by unfold line).
  assert (Hdash : startswith line "- " = true) by (by unfold line).
  rewrite !Hhead, Hdash. cbn [andb snd].
  assert (Hin1 : contains "[[" line = true).
  { rewrite Hparts. apply contains_app_r, startswith_contains, startswith_app. }
  assert (Hin2 : contains "]]" line = true).
  { rewrite Hparts. do 3 apply contains_app_r.
    apply startswith_contains, startswith_app. }
  rewrite Hin1, Hin2. cbn [andb]. unfold parse_link_line. rewrite Hparts.
  rewrite (find_split_app "[[" _ _ Hopen).
  rewrite (find_split_app "]]" _ _ Hclose).
  rewrite strip_kind_part by done. rewrite startswith_app.
  change (drop 2 ("- " +:+ kind)) with kind.
  by rewrite (stripped_strip _ Hvs), (stripped_strip _ Hts).
Qed.

End DecoderEdges.

(* ===================================================================== *)
(** ** The merge: its counts and what it leaves in the store              *)
(* ===================================================================== *)

Section MergeRuns.

Context {value : Type} `{!PyValue value}.
Context {NoteType : Type} `{!PyEnum NoteType}.
Context {LinkType : Type} `{!PyEnum LinkType}.
Context (PERMANENT : NoteType) (REFERENCE : LinkType).
Context {ISO : IsoFormat} {FM : FrontMatter value}.

#[local] Abbreviation Note := (Note value NoteType LinkType).
#[local] Abbreviation DB := (DB value NoteType LinkType).
#[local] Abbreviation version := (Note * string)%type.
#[local] Abbreviation groups := (list (string * list version)).

Implicit Types (db : DB) (stats : ImportStats) (fs : string → result string).

(** One turn of the last loop of [merge_imports]: the note is updated
    when its id reads, created when it does not, and counted. *)
Definition merge_step (now : nat → Z) (total_files : nat)
    (acc : DB * nat * nat) (note : Note) : DB * nat * nat :=
  let '(db, imported, failed) := acc in
  let now := now (total_files + imported + failed)%nat in
  let outcome :=
    match read db (n_id note) with
    | Some _ => update now note db
    | None => create now note db
    end in
  match outcome with
  | Ok r => (r.2, S imported, failed)
  | Raise _ => (db, imported, S failed)
  end.

Lemma merge_imports_steps fs (now : nat → Z)
    (import_dirs : list (option (list string))) (strategy : string)
    (st : DB * ImportStats) :
  let collected := collect_versions PERMANENT REFERENCE fs now import_dirs st.2 in
  let resolved := resolve_conflicts strategy collected.1.1 in
  let written :=
    foldl (merge_step now collected.1.2) (st.1, 0%nat, 0%nat) resolved.1 in
  merge_imports PERMANENT REFERENCE fs now import_dirs strategy st
  = (mkMergeStats collected.1.2 (length collected.1.1) resolved.2
       written.1.2 written.2,
     (written.1.1, collected.2)).
Proof.
  cbn zeta. unfold merge_imports.
  destruct (collect_versions PERMANENT REFERENCE fs now import_dirs st.2)
    as [[all_notes total] stats]. cbn [fst snd].
  destruct (resolve_conflicts strategy all_notes) as [notes conflicts].
  cbn [fst snd]. unfold merge_step.
  by destruct (foldl _ (st.1, 0%nat, 0%nat) notes) as [[db i] f].
Qed.

(** The number of files the first loop counts. *)
Lemma collect_versions_total fs (now : nat → Z)
    (import_dirs : list (option (list string))) stats :
  (collect_versions PERMANENT REFERENCE fs now import_dirs stats).1.2
  = length (files_in_order import_dirs).
Proof. apply collect_versions_run. Qed.

(** The ids with several versions. *)
Definition conflicting (all_notes : groups) : groups :=
  filter (λ entry, (2 ≤ length entry.2)%nat) all_notes.

Lemma resolve_conflicts_count strategy (all_notes : groups) :
  (resolve_conflicts strategy all_notes).2 = length (conflicting all_notes).
Proof.
  unfold resolve_conflicts, conflicting.
  assert (Hgen : ∀ (acc : list Note * nat),
    (foldl (λ (acc : list Note * nat) (entry : string * list version),
              match entry.2 with
              | [] => acc
              | [v] => (acc.1 ++ [v.1], acc.2)
              | v :: others =>
                  (acc.1 ++ [(select_version strategy v others).1], S acc.2)
              end) acc all_notes).2
    = (acc.2 + length (filter (λ entry : string * list version,
                                 (2 ≤ length entry.2)%nat) all_notes))%nat).
  { induction all_notes as [|[k vs] rest IH]; intros acc.
    - cbn. lia.
    - rewrite filter_cons.
      destruct vs as [|v [|w others]]; cbn [foldl]; rewrite IH; cbn [fst snd length].
      + rewrite decide_False by lia. done.
      + rewrite decide_False by lia. done.
      + rewrite decide_True by lia. cbn [length]. lia. }
  apply (Hgen ([], 0%nat)).
Qed.

Lemma merge_steps_count (now : nat → Z) (total : nat) (notes : list Note)
    (acc : DB * nat * nat) :
  let r := foldl (merge_step now total) acc notes in
  (r.1.2 + r.2 = acc.1.2 + acc.2 + length notes)%nat.
Proof.
  cbn zeta. revert acc. induction notes as [|n notes IH]; intros [[db i] f];
    cbn [foldl length fst snd]; [lia |].
  rewrite IH. unfold merge_step.
  destruct (match read db (n_id n) with
            | Some _ => update (now (total + i + f)%nat) n db
            | None => create (now (total + i + f)%nat) n db
            end); cbn [fst snd]; lia.
Qed.

Lemma select_version_elem strategy (v : version) (others : list version) :
  select_version strategy v others ∈ v :: others.
Proof.
  unfold select_version. repeat case_bool_decide.
  - destruct (py_max_spec (λ x : version, n_updated_at x.1) v others)
      as (l1 & l2 & -> & _).
    apply elem_of_app. right. left.
  - destruct (py_min_spec (λ x : version, n_updated_at x.1) v others)
      as (l1 & l2 & -> & _).
    apply elem_of_app. right. left.
  - destruct (py_max_spec
                (λ x : version, Z.of_nat (String.length (n_content x.1)))
                v others) as (l1 & l2 & -> & _).
    apply elem_of_app. right. left.
  - left.
Qed.

Lemma selected_id strategy (met : list version) (all_notes : groups) k v others :
  grouped met all_notes → (k, v :: others) ∈ all_notes →
  n_id (select_version strategy v others).1 = k.
Proof.
  intros (_ & Hvs & _) Hin. destruct (Hvs k _ Hin) as [_ Heq].
  pose proof (select_version_elem strategy v others) as Hsel.
  rewrite Heq in Hsel. by apply list_elem_of_filter in Hsel as [? _].
Qed.

Lemma grouped_picked strategy (met : list version) (all_notes : groups) :
  grouped met all_notes →
  length (omap (picked strategy) all_notes) = length all_notes
  ∧ n_id <$> omap (picked strategy) all_notes = all_notes.*1.
Proof.
  intros Hg.
  assert (Hall : ∀ entry, entry ∈ all_notes →
    ∃ note, picked strategy entry = Some note ∧ n_id note = entry.1).
  { intros [k vs] Hin. pose proof Hg as (_ & Hvs & _).
    destruct (Hvs k vs Hin) as [Hne Heq].
    unfold picked. cbn [fst snd]. destruct vs as [|v others]; [done |].
    eexists. split; [done |]. by eapply selected_id. }
  clear Hg. induction all_notes as [|entry rest IH]; [done |].
  destruct (Hall entry) as (note & Hp & Hid); [left |].
  cbn [omap list_omap]. rewrite Hp. cbn [length fmap list_fmap].
  destruct IH as [IH1 IH2]; [intros e He; apply Hall; by right |].
  by rewrite IH1, IH2, Hid.
Qed.

(** The counts [merge_imports] returns: [total_files] is the number of
    files read, in the directories that exist, and not those of notes;
    [unique_notes] is the number of distinct ids among the notes that
    parsed; [conflicts] is the number of ids with several versions;
    every id is counted once as imported or failed. *)
Theorem merge_imports_counts fs (now : nat → Z)
    (import_dirs : list (option (list string))) (strategy : string)
    (st : DB * ImportStats) :
  let counts :=
    (merge_imports PERMANENT REFERENCE fs now import_dirs strategy st).1 in
  let met :=
    versions_met PERMANENT REFERENCE fs now 0 (files_in_order import_dirs) in
  let all_notes :=
    (collect_versions PERMANENT REFERENCE fs now import_dirs st.2).1.1 in
  m_total_files counts = length (files_in_order import_dirs)
  ∧ m_unique_notes counts
    = size (list_to_set ((λ v : version, n_id v.1) <$> met) : gset string)
  ∧ m_conflicts counts = length (conflicting all_notes)
  ∧ (m_imported counts + m_failed counts = m_unique_notes counts)%nat
  ∧ (m_unique_notes counts + m_conflicts counts ≤ length met)%nat.
Proof.
  cbn zeta. rewrite merge_imports_steps. cbn [fst snd m_total_files
    m_unique_notes m_conflicts m_imported m_failed].
  pose proof (foldl_add_version_grouped
                (versions_met PERMANENT REFERENCE fs now 0
                   (files_in_order import_dirs))) as Hg.
  rewrite <- (collect_versions_grouped PERMANENT REFERENCE fs now import_dirs st.2)
    in Hg.
  set (all_notes :=
         (collect_versions PERMANENT REFERENCE fs now import_dirs st.2).1.1) in *.
  set (met := versions_met PERMANENT REFERENCE fs now 0
                 (files_in_order import_dirs)) in *.
  destruct (grouped_picked strategy met all_notes Hg) as [Hlen Hids].
  destruct Hg as (Hnd & Hvs & Hmet).
  split; [apply collect_versions_total |].
  assert (Hkeys : (list_to_set ((λ v : version, n_id v.1) <$> met) : gset string)
                  = list_to_set all_notes.*1).
  { apply set_eq. intros k. rewrite !elem_of_list_to_set. split.
    - intros (v & -> & Hv)%list_elem_of_fmap. by apply Hmet.
    - intros ([k' vs] & -> & Hin)%list_elem_of_fmap. cbn.
      destruct (Hvs k' vs Hin) as [Hne Heq]. destruct vs as [|v vs]; [done |].
      assert (Hv : v ∈ filter (λ v : version, n_id v.1 = k') met)
        by (rewrite <- Heq; left).
      apply list_elem_of_filter in Hv as [<- Hv].
      by apply (list_elem_of_fmap_2 (λ v : version, n_id v.1)). }
  split.
  { rewrite Hkeys, size_list_to_set by done. by rewrite length_fmap. }
  split; [apply resolve_conflicts_count |].
  split.
  { pose proof (merge_steps_count now
                  (collect_versions PERMANENT REFERENCE fs now import_dirs
                     st.2).1.2
                  (resolve_conflicts strategy all_notes).1
                  (st.1, 0%nat, 0%nat)) as Hc.
    cbn zeta in Hc. cbn [fst snd] in Hc. rewrite Hc.
    by rewrite resolve_conflicts_picked, Hlen. }
  rewrite resolve_conflicts_count. unfold conflicting.
  clear Hlen Hids Hkeys. revert Hnd Hvs Hmet. generalize met. clear met.
  induction all_notes as [|[k vs] rest IH]; intros met Hnd Hvs Hmet.
  - cbn. lia.
  - cbn in Hnd. apply NoDup_cons in Hnd as [Hfresh Hnd].
    destruct (Hvs k vs (list_elem_of_here _ _)) as [Hne Heq].
    specialize (IH (filter (λ v : version, n_id v.1 ≠ k) met) Hnd).
    assert (Hlenm : length met
                    = (length vs
                       + length (filter (λ v : version, n_id v.1 ≠ k) met))%nat).
    { rewrite Heq. clear. induction met as [|v met IHm]; [done |].
      rewrite !filter_cons. destruct (decide (n_id v.1 = k)) as [Hv | Hv].
      - rewrite decide_False by (by intros ?). cbn [length]. lia.
      - rewrite decide_True by done. cbn [length]. lia. }
    rewrite filter_cons. cbn [length snd] in *.
    assert (Hrest : (length rest
                     + length (filter (λ entry : string * list version,
                                         (2 ≤ length entry.2)%nat) rest)
                     ≤ length (filter (λ v : version, n_id v.1 ≠ k) met))%nat).
    { apply IH.
      - intros k' vs' Hin. destruct (Hvs k' vs' (list_elem_of_further _ _ _ Hin))
          as [Hne' Heq']. split; [done |].
        rewrite Heq', list_filter_filter. apply list_filter_iff.
        intros v. split; [intros Hv; split; [done |] | by intros [? _]].
        intros Hk. apply Hfresh. rewrite <- Hk, Hv.
        by apply (list_elem_of_fmap_2 fst) in Hin.
      - intros v [Hv Hin]%list_elem_of_filter.
        specialize (Hmet v Hin). cbn in Hmet.
        by apply elem_of_cons in Hmet as [? | ?]. }
    destruct vs as [|v [|w others]]; [done | |].
    + rewrite decide_False by (cbn; lia). cbn [length] in *. lia.
    + rewrite decide_True by (cbn; lia). cbn [length] in *. lia.
Qed.

(** *** What the merge leaves in the store *)

Lemma merge_step_store_ok (now : nat → Z) (total : nat)
    (acc : DB * nat * nat) (note : Note) :
  store_ok acc.1.1 → store_ok (merge_step now total acc note).1.1.
Proof.
  destruct acc as [[db i] f]. cbn [fst]. intros Hok. unfold merge_step.
  destruct (read db (n_id note)).
  - destruct (update _ note db) as [[note1 db1]|] eqn:E; [|done]. cbn.
    by eapply update_store_ok.
  - destruct (create _ note db) as [[note1 db1]|] eqn:E; [|done]. cbn.
    by eapply create_store_ok.
Qed.

Lemma merge_step_reads (now : nat → Z) (total : nat) (acc : DB * nat * nat)
    (note : Note) :
  store_ok acc.1.1 →
  let db' := (merge_step now total acc note).1.1 in
  (∃ stored, read db' (n_id note) = Some stored ∧ written note stored)
  ∧ (∀ id, id ≠ n_id note → read db' id = read acc.1.1 id).
Proof.
  destruct acc as [[db i] f]. cbn [fst]. intros Hok. cbn zeta.
  set (t := now (total + i + f)%nat).
  destruct (find_note db (n_id note)) as [old|] eqn:E.
  - assert (Hm : merge_step now total (db, i, f) note
                 = (updated_db t note db old, S i, f)).
    { unfold merge_step, read. rewrite E. cbn [fmap option_fmap option_map].
      fold t. by rewrite (update_Ok t note db old E). }
    rewrite Hm. cbn [fst].
    destruct (update_read_back t note _ db _ (update_Ok t note db old E))
      as (Hr & Hw & Hf).
    split; [eexists; split; [exact Hr | exact Hw] | exact Hf].
  - assert (Hm : merge_step now total (db, i, f) note
                 = (created_db t note db, S i, f)).
    { unfold merge_step, read. rewrite E. cbn [fmap option_fmap option_map].
      fold t. by rewrite (create_Ok t note db E). }
    rewrite Hm. cbn [fst].
    destruct (create_read_back t note _ db _ Hok (create_Ok t note db E))
      as (Hr & Hw & _ & Hf).
    split; [eexists; split; [exact Hr | exact Hw] | exact Hf].
Qed.

Lemma merge_steps_read (now : nat → Z) (total : nat) (notes : list Note)
    (acc : DB * nat * nat) :
  store_ok acc.1.1 → NoDup (n_id <$> notes) →
  let db' := (foldl (merge_step now total) acc notes).1.1 in
  (∀ note, note ∈ notes →
     ∃ stored, read db' (n_id note) = Some stored ∧ written note stored)
  ∧ (∀ id, id ∉ n_id <$> notes → read db' id = read acc.1.1 id).
Proof.
  cbn zeta. revert acc. induction notes as [|n notes IH]; intros acc Hok Hnd.
  - split; [by intros note ?%not_elem_of_nil | done].
  - cbn [fmap list_fmap] in Hnd. apply NoDup_cons in Hnd as [Hfresh Hnd].
    cbn [foldl].
    destruct (merge_step_reads now total acc n Hok) as [Hn Hframe].
    cbn zeta in *.
    destruct (IH (merge_step now total acc n)
                (merge_step_store_ok now total acc n Hok) Hnd)
      as [IH1 IH2].
    split.
    + intros note [-> | Hin]%elem_of_cons; [|by apply IH1].
      destruct Hn as (stored & Hr & Hw). exists stored. split; [|done].
      by rewrite IH2.
    + intros id Hid. cbn [fmap list_fmap] in Hid.
      apply not_elem_of_cons in Hid as [Hne Hid].
      rewrite IH2 by done. by apply Hframe.
Qed.

(** The note [merge_imports] leaves under an id met in the files. *)
Lemma merge_imports_reads fs (now : nat → Z)
    (import_dirs : list (option (list string))) (strategy : string)
    db stats (i : nat) (id : string) (first : version) (others : list version) :
  let all_notes :=
    (collect_versions PERMANENT REFERENCE fs now import_dirs stats).1.1 in
  let selected := (select_version strategy first others).1 in
  let db' :=
    (merge_imports PERMANENT REFERENCE fs now import_dirs strategy (db, stats)).2.1 in
  store_ok db →
  all_notes !! i = Some (id, first :: others) →
  ∃ stored, read db' id = Some stored ∧ written selected stored.
Proof.
  intros all_notes selected db' Hok Hi. subst db'.
  rewrite merge_imports_steps. cbn [fst snd]. fold all_notes.
  pose proof (foldl_add_version_grouped
                (versions_met PERMANENT REFERENCE fs now 0
                   (files_in_order import_dirs))) as Hg.
  rewrite <- (collect_versions_grouped PERMANENT REFERENCE fs now import_dirs stats)
    in Hg.
  fold all_notes in Hg.
  destruct (grouped_picked strategy _ all_notes Hg) as [_ Hids].
  pose proof Hg as (Hnd & _ & _).
  rewrite resolve_conflicts_picked.
  destruct (merge_steps_read now
              (collect_versions PERMANENT REFERENCE fs now import_dirs stats).1.2
              (omap (picked strategy) all_notes)
              (db, 0%nat, 0%nat) Hok) as [Hread _]; [by rewrite Hids |].
  cbn zeta in Hread.
  assert (Hin : selected ∈ omap (picked strategy) all_notes).
  { apply list_elem_of_omap. exists (id, first :: others).
    split; [by eapply list_elem_of_lookup_2 | done]. }
  destruct (Hread selected Hin) as (stored & Hr & Hw).
  assert (Hid : n_id selected = id).
  { eapply selected_id; [exact Hg |]. by eapply list_elem_of_lookup_2. }
  rewrite Hid in Hr. by exists stored.
Qed.

(** C4. In [merge_imports] the dict holds, under each id, the versions
    with that id in the order the files were read (directory after
    directory, file after file), each parsed at its own time; its keys
    are distinct, and the note taken for an id with several versions is
    the one [select_version] returns: under "newest" the first of the
    versions with the greatest updated-timestamp, under "oldest" the
    first of those with the least, under "largest" the first of those
    with the longest content, under "first" the first version met. That
    note is the one the call writes: on a store that meets the
    constraints of the schema, the id reads with its title, content and
    tags afterwards (the tags being of distinct names). *)
Theorem C4_merge_strategy_selects_earliest
    (fs : string → result string) (now : nat → Z)
    (import_dirs : list (option (list string))) (db : DB) (stats : ImportStats)
    (strategy : string) (i : nat) (id : string)
    (first : version) (others : list version) :
  let all_notes :=
    (collect_versions PERMANENT REFERENCE fs now import_dirs stats).1.1 in
  let met :=
    versions_met PERMANENT REFERENCE fs now 0 (files_in_order import_dirs) in
  let selected := select_version strategy first others in
  let db' :=
    (merge_imports PERMANENT REFERENCE fs now import_dirs strategy (db, stats)).2.1 in
  all_notes !! i = Some (id, first :: others) →
  NoDup all_notes.*1
  ∧ first :: others = filter (λ v, n_id v.1 = id) met
  ∧ (resolve_conflicts strategy all_notes).1 !! i = Some selected.1
  ∧ (strategy = "newest" →
       first_greatest (λ v, n_updated_at v.1) (first :: others) selected)
  ∧ (strategy = "oldest" →
       first_least (λ v, n_updated_at v.1) (first :: others) selected)
  ∧ (strategy = "largest" →
       first_greatest (λ v, Z.of_nat (String.length (n_content v.1)))
                      (first :: others) selected)
  ∧ (strategy = "first" → selected = first)
  ∧ (store_ok db → NoDup (tag_name <$> n_tags selected.1) →
     ∃ stored,
       read db' id = Some stored
       ∧ n_title stored = n_title selected.1
       ∧ n_content stored = n_content selected.1
       ∧ n_tags stored = n_tags selected.1).
Proof.
  intros all_notes met selected db' Hi.
  pose proof (foldl_add_version_grouped met) as (Hnd & Hvs & _).
  unfold met in Hnd, Hvs.
  rewrite <- (collect_versions_grouped PERMANENT REFERENCE fs now import_dirs
                stats) in Hnd, Hvs.
  fold all_notes in Hnd, Hvs. fold met in Hvs.
  split; [done |].
  split; [apply (Hvs id), list_elem_of_lookup; eauto |].
  split.
  { rewrite resolve_conflicts_picked.
    apply (omap_lookup_total _ _ _ (id, first :: others)); [|done..].
    intros [k vs] Hin. destruct (Hvs k vs Hin) as [Hne _].
    unfold picked. cbn [snd]. destruct vs; [done | eauto]. }
  assert (Hstore : store_ok db → NoDup (tag_name <$> n_tags selected.1) →
            ∃ stored,
              read db' id = Some stored
              ∧ n_title stored = n_title selected.1
              ∧ n_content stored = n_content selected.1
              ∧ n_tags stored = n_tags selected.1).
  { intros Hok _.
    destruct (merge_imports_reads fs now import_dirs strategy db stats i id
                first others Hok Hi) as (stored & Hr & H1 & H2 & _ & _ & H5).
    exists stored. done. }
  unfold selected, select_version.
  split; [|split; [|split; [|split; [|exact Hstore]]]]; intros ->; cbn.
  - apply py_max_spec.
  - apply py_min_spec.
  - apply py_max_spec.
  - done.
Qed.

(** After [merge_imports] on a store that meets the constraints of the
    schema, each id met in the files reads as the version the strategy
    selected for it among the versions as they were parsed, each at its
    own time: its title, content, kind, metadata and tags. *)
Theorem merge_imports_stores_selected fs (now : nat → Z)
    (import_dirs : list (option (list string))) (strategy : string)
    db stats (i : nat) (id : string) (first : version) (others : list version) :
  let all_notes :=
    (collect_versions PERMANENT REFERENCE fs now import_dirs stats).1.1 in
  let selected := (select_version strategy first others).1 in
  let db' :=
    (merge_imports PERMANENT REFERENCE fs now import_dirs strategy (db, stats)).2.1 in
  store_ok db →
  all_notes !! i = Some (id, first :: others) →
  NoDup (tag_name <$> n_tags selected) →
  ∃ stored,
    read db' id = Some stored
    ∧ n_title stored = n_title selected
    ∧ n_content stored = n_content selected
    ∧ n_note_type stored = n_note_type selected
    ∧ n_metadata stored = n_metadata selected
    ∧ n_tags stored = n_tags selected.
Proof.
  intros all_notes selected db' Hok Hi _.
  destruct (merge_imports_reads fs now import_dirs strategy db stats i id
              first others Hok Hi) as (stored & Hr & Hw).
  exists stored. split; [exact Hr | exact Hw].
Qed.

End MergeRuns.

(* ===================================================================== *)
(** ** The exporter: batches, criteria and the way back                   *)
(* ===================================================================== *)

Section ExporterRuns.

Context {value : Type} `{!PyValue value}.
Context {NoteType : Type} `{!PyEnum NoteType}.
Context {LinkType : Type} `{!PyEnum LinkType}.
Context (PERMANENT : NoteType) (REFERENCE : LinkType).
Context {ISO : IsoFormat} {FM : FrontMatter value}.

#[local] Abbreviation Note := (Note value NoteType LinkType).
#[local] Abbreviation DB := (DB value NoteType LinkType).
#[local] Abbreviation DBNote := (DBNote value NoteType).

(** The directory tree the exporter writes to is a state [Files]. What
    [open(path, "w")] with [write], [Path.mkdir(parents=True,
    exist_ok=True)] and the operator [/] of paths do is given by the
    environment; the two commands give the files afterwards and the
    exception they raise, if any. [read_text] is [open(path)] with
    [read]. *)
Context {Files : Type}.
Context (write_text : string → string → Files → Files * option string).
Context (mkdir : string → Files → Files * option string).
Context (path_join : string → string → string).
Context (read_text : Files → string → result string).

(** [export_note_to_markdown] as it is called: [Post] raises for a
    metadata key that is one of its own parameters. *)
Context (markdown_of : Note → result string).

(** [json.dump] of the dictionary [export_all_notes] saves: the date,
    the statistics of the export and those of the store. *)
Context (export_json : Z → Z * Z * Z * list string → Statistics → string).

Implicit Types (db : DB) (files : Files) (note : Note).

(** [MarkdownExporter.export_stats] *)
Record ExportStats := mkExportStats {
  e_total_notes : nat;
  e_exported : nat;
  e_failed : nat;
  e_warnings : list string;
}.

Definition set_total_notes (n : nat) (stats : ExportStats) : ExportStats :=
  mkExportStats n (e_exported stats) (e_failed stats) (e_warnings stats).

(** The body of the [try] in the loops: the note is encoded and
    written to [<id>.md]. *)
Definition write_note (export_dir : string) files note
  : Files * option string :=
  match markdown_of note with
  | Raise e => (files, Some e)
  | Ok markdown_content =>
      write_text (path_join export_dir (n_id note +:+ ".md"))
                 markdown_content files
  end.

(** [MarkdownExporter.export_single_note] *)
Definition export_single_note db (note_id export_dir : string) files
  : bool * Files :=
  match read db note_id with
  | None => (false, files)
  | Some note =>
      let '(files, e) := write_note export_dir files note in
      (bool_decide (e = None), files)
  end.

(** One turn of the loop over the notes: an exception is caught and
    counted; [export_all_notes] records a warning for it, the other
    exports do not. *)
Definition export_note (warn : bool) (export_dir : string)
    (st : Files * ExportStats) note : Files * ExportStats :=
  let '(files, stats) := st in
  match write_note export_dir files note with
  | (files, None) =>
      (files,
       mkExportStats (e_total_notes stats) (S (e_exported stats))
                     (e_failed stats) (e_warnings stats))
  | (files, Some e) =>
      (files,
       mkExportStats (e_total_notes stats) (e_exported stats)
                     (S (e_failed stats))
                     (if warn
                      then e_warnings stats
                           ++ ["Failed to export " +:+ n_id note +:+ ": " +:+ e]
                      else e_warnings stats))
  end.

(** The [while] loop of [export_all_notes], for at most [fuel] tests of
    its condition; [None] when it has not ended by then. *)
Fixpoint export_batches (fuel : nat) db (export_dir : string)
    (batch_size offset : Z) (st : Files * ExportStats)
  : option (Files * ExportStats) :=
  match fuel with
  | O => None
  | S fuel =>
      if offset <? Z.of_nat (e_total_notes st.2) then
        let notes := list_notes db batch_size offset None None in
        export_batches fuel db export_dir batch_size (offset + batch_size)
          (foldl (export_note true export_dir) st notes)
      else Some st
  end.

(** What follows the loop: the metadata file is written. *)
Definition save_export_metadata db (now : Z) (export_dir : string)
    (st : Files * ExportStats) : Files * ExportStats * option string :=
  let '(files, stats) := st in
  let '(files, e) :=
    write_text (path_join export_dir "_export_metadata.json")
      (export_json now
         (Z.of_nat (e_total_notes stats), Z.of_nat (e_exported stats),
          Z.of_nat (e_failed stats), e_warnings stats)
         (get_statistics db))
      files in
  (files, stats, e).

(** [MarkdownExporter.export_all_notes]: the files and the statistics
    afterwards, and the exception when one leaves the call; without
    one the statistics are what is returned. *)
Definition export_all_notes (fuel : nat) db (now : Z) (export_dir : string)
    (batch_size : Z) (st : Files * ExportStats)
  : option (Files * ExportStats * option string) :=
  let '(files, stats) := st in
  match mkdir export_dir files with
  | (files, Some e) => Some (files, stats, Some e)
  | (files, None) =>
      let stats := set_total_notes (st_total_notes (get_statistics db)) stats in
      st ← export_batches fuel db export_dir batch_size 0 (files, stats);
      Some (save_export_metadata db now export_dir st)
  end.

(** The keyword arguments of [export_by_criteria]. *)
Record Criteria := mkCriteria {
  c_tag : option string;
  c_note_type : option string;
  c_search_query : option string;
}.

(** The notes [export_by_criteria] selects; [None] without a criterion
    that it knows. *)
Definition selected_notes db (criteria : Criteria) : option (list Note) :=
  match c_tag criteria, c_note_type criteria, c_search_query criteria with
  | Some tag, _, _ => Some (find_by_tag db tag)
  | None, Some note_type, _ => Some (list_notes db 100 0 (Some note_type) None)
  | None, None, Some query => Some (search db query 50 true true true)
  | None, None, None => None
  end.

(** What [export_by_criteria] returns. *)
Inductive Returned :=
| StatsDict (stats : ExportStats)
| ErrorDict (error : string)
| Exception (e : string).

(** [MarkdownExporter.export_by_criteria] *)
Definition export_by_criteria db (export_dir : string) (criteria : Criteria)
    (st : Files * ExportStats) : Files * ExportStats * Returned :=
  let '(files, stats) := st in
  match mkdir export_dir files with
  | (files, Some e) => (files, stats, Exception e)
  | (files, None) =>
      match selected_notes db criteria with
      | None => (files, stats, ErrorDict "No valid criteria")
      | Some notes =>
          let stats := set_total_notes (length notes) stats in
          let st := foldl (export_note false export_dir) (files, stats) notes in
          (st, StatsDict st.2)
      end
  end.

(** [notes_to_export] of [BulkExporter.create_incremental_export] *)
Definition notes_to_export db (since : Z) : list Note :=
  filter (λ n, since ≤ n_updated_at n) (list_notes db 10000 0 None None).

(** *** The loops *)

(** The notes a loop has dealt with, by the counters. *)
Definition dealt_with (stats : ExportStats) : nat :=
  (e_exported stats + e_failed stats)%nat.

Lemma export_note_counts warn export_dir st note :
  let st' := export_note warn export_dir st note in
  e_total_notes st'.2 = e_total_notes st.2
  ∧ dealt_with st'.2 = S (dealt_with st.2)
  ∧ e_warnings st.2 `prefix_of` e_warnings st'.2
  ∧ (warn = false → e_warnings st'.2 = e_warnings st.2).
Proof.
  destruct st as [files stats]. unfold export_note, dealt_with.
  destruct (write_note export_dir files note) as [files' [e|]];
    cbn [fst snd e_total_notes e_exported e_failed e_warnings].
  - split; [done |]. split; [lia |]. destruct warn.
    + split; [by apply prefix_app_r | done].
    + done.
  - split; [done |]. split; [lia | done].
Qed.

Lemma export_notes_counts warn export_dir (l : list Note) st :
  let st' := foldl (export_note warn export_dir) st l in
  e_total_notes st'.2 = e_total_notes st.2
  ∧ dealt_with st'.2 = (dealt_with st.2 + length l)%nat
  ∧ e_warnings st.2 `prefix_of` e_warnings st'.2
  ∧ (warn = false → e_warnings st'.2 = e_warnings st.2).
Proof.
  revert st. induction l as [|note l IH]; intros st; cbn [foldl length].
  - split; [done |]. split; [lia | done].
  - destruct (IH (export_note warn export_dir st note)) as (H1 & H2 & H3 & H4).
    destruct (export_note_counts warn export_dir st note) as (G1 & G2 & G3 & G4).
    split; [congruence |]. split; [lia |]. split; [by etrans |].
    intros Hw. rewrite H4, G4; done.
Qed.

(** The rows in the order of [list]. *)
Definition rows_newest_first db : list DBNote :=
  order_by_updated_desc (notes db).

Lemma rows_newest_first_length db :
  length (rows_newest_first db) = length (notes db).
Proof.
  unfold rows_newest_first, order_by_updated_desc.
  by rewrite merge_sort_Permutation.
Qed.

Lemma list_page db (k offset : Z) :
  0 ≤ k →
  list_notes db k offset None None
  = db_note_to_note db
      <$> take (Z.to_nat k) (List.skipn (Z.to_nat offset) (rows_newest_first db)).
Proof.
  intros Hk. unfold list_notes, limit_offset.
  assert (E : (k <? 0) = false) by lia. by rewrite E.
Qed.

Lemma export_batches_ends (fuel : nat) db export_dir (batch_size offset : Z)
    (st : Files * ExportStats) :
  0 < batch_size → 0 ≤ offset →
  e_total_notes st.2 = length (notes db) →
  (length (notes db) - Z.to_nat offset < fuel)%nat →
  export_batches fuel db export_dir batch_size offset st
  = Some (foldl (export_note true export_dir) st
            (db_note_to_note db
               <$> List.skipn (Z.to_nat offset) (rows_newest_first db))).
Proof.
  intros Hb. revert offset st.
  induction fuel as [|fuel IH]; intros offset st Ho Htotal Hfuel; [lia |].
  cbn [export_batches]. rewrite Htotal.
  destruct (offset <? Z.of_nat (length (notes db))) eqn:E.
  - apply Z.ltb_lt in E.
    rewrite IH; [| lia | |].
    + f_equal. rewrite list_page by lia.
      rewrite <- foldl_app, <- fmap_app. do 2 f_equal.
      rewrite Z2Nat.inj_add by lia.
      rewrite <- drop_drop. apply take_drop.
    + by destruct (export_notes_counts true export_dir
                     (list_notes db batch_size offset None None) st)
        as (-> & _).
    + rewrite Z2Nat.inj_add by lia. lia.
  - apply Z.ltb_ge in E.
    rewrite drop_ge by (rewrite rows_newest_first_length; lia). done.
Qed.

Lemma export_batches_runs_on (fuel : nat) db export_dir (batch_size offset : Z)
    (st : Files * ExportStats) :
  batch_size ≤ 0 → offset ≤ 0 → (0 < e_total_notes st.2)%nat →
  export_batches fuel db export_dir batch_size offset st = None.
Proof.
  intros Hb. revert offset st.
  induction fuel as [|fuel IH]; intros offset st Ho Htotal; [done |].
  cbn [export_batches].
  assert (E : (offset <? Z.of_nat (e_total_notes st.2)) = true)
    by (apply Z.ltb_lt; lia).
  rewrite E. apply IH; [lia |].
  by destruct (export_notes_counts true export_dir
                 (list_notes db batch_size offset None None) st)
    as (-> & _).
Qed.

(** [export_all_notes] with a positive batch size ends, and the batch
    size makes no difference: once the directory is made, every note of
    the store is dealt with once, from the most recently updated on,
    beyond any number of notes, and then the metadata file is written.
    [total_notes] is the number of notes in the store, and the other
    two counters grow by it: they are not reset, so they add up to
    [total_notes] on a fresh exporter only. *)
Theorem export_all_notes_every_note (fuel : nat) db (now : Z)
    (export_dir : string) (batch_size : Z) files (stats : ExportStats) :
  let all := db_note_to_note db <$> rows_newest_first db in
  let made := mkdir export_dir files in
  let st :=
    foldl (export_note true export_dir)
          (made.1, set_total_notes (length (notes db)) stats) all in
  (made.2 ≠ None →
   export_all_notes fuel db now export_dir batch_size (files, stats)
   = Some (made.1, stats, made.2))
  ∧ (made.2 = None → 0 < batch_size → (length (notes db) < fuel)%nat →
     export_all_notes fuel db now export_dir batch_size (files, stats)
     = Some (save_export_metadata db now export_dir st))
  ∧ e_total_notes st.2 = length (notes db)
  ∧ dealt_with st.2 = (dealt_with stats + length (notes db))%nat.
Proof.
  intros all made st. unfold export_all_notes. fold made.
  destruct made as [files' [e|]] eqn:Emade; cbn [fst snd].
  - split; [done |]. split; [done |].
    destruct (export_notes_counts true export_dir all
                (files', set_total_notes (length (notes db)) stats))
      as (H1 & H2 & _).
    subst all st. rewrite length_fmap, rows_newest_first_length in H2.
    split; [exact H1 | exact H2].
  - split; [done |]. split.
    + intros _ Hb Hfuel. cbn [get_statistics st_total_notes].
      rewrite export_batches_ends; [| done | done | done | ].
      * change (Z.to_nat 0) with 0%nat. by rewrite drop_0.
      * change (Z.to_nat 0) with 0%nat. lia.
    + destruct (export_notes_counts true export_dir all
                  (files', set_total_notes (length (notes db)) stats))
        as (H1 & H2 & _).
      subst all st. rewrite length_fmap, rows_newest_first_length in H2.
      split; [exact H1 | exact H2].
Qed.

(** [export_all_notes] with a batch size of zero or less, on a store
    that holds a note: once the directory is made the loop does not
    end, however often its condition is tested; on the empty store the
    call writes the metadata file and returns. *)
Theorem export_all_notes_batch_not_positive (fuel : nat) db (now : Z)
    (export_dir : string) (batch_size : Z) files (stats : ExportStats) :
  batch_size ≤ 0 →
  (mkdir export_dir files).2 = None →
  export_all_notes fuel db now export_dir batch_size (files, stats)
  = match notes db, fuel with
    | [], S _ =>
        Some (save_export_metadata db now export_dir
                ((mkdir export_dir files).1, set_total_notes 0 stats))
    | _, _ => None
    end.
Proof.
  intros Hb Hmade. unfold export_all_notes.
  destruct (mkdir export_dir files) as [files' e]. cbn [snd] in Hmade.
  subst e. cbn [fst get_statistics st_total_notes].
  destruct (notes db) as [|row rows] eqn:E.
  - destruct fuel as [|fuel]; [done |]. cbn [export_batches length].
    done.
  - rewrite export_batches_runs_on; [done | done | done |].
    cbn [snd set_total_notes e_total_notes length]. lia.
Qed.

(** *** The criteria *)

(** [export_by_criteria] once the directory is made: without a
    criterion it knows, nothing is written and the statistics stay;
    otherwise [total_notes] is the number of notes selected, the other
    two counters grow by it, and no warning is recorded, whatever
    fails. A tag goes before a kind and a kind before a query; the tag
    selects every note that has it, the kind at most 100 notes and the
    query at most 50. *)
Theorem export_by_criteria_counts db (export_dir : string)
    (criteria : Criteria) files (stats : ExportStats) :
  let r := export_by_criteria db export_dir criteria (files, stats) in
  (mkdir export_dir files).2 = None →
  match selected_notes db criteria with
  | None =>
      r = ((mkdir export_dir files).1, stats, ErrorDict "No valid criteria")
  | Some selected =>
      r.2 = StatsDict r.1.2
      ∧ e_total_notes r.1.2 = length selected
      ∧ dealt_with r.1.2 = (dealt_with stats + length selected)%nat
      ∧ e_warnings r.1.2 = e_warnings stats
      ∧ (∀ t, c_tag criteria = Some t →
           ∀ note, note ∈ selected ↔
             ∃ row, row ∈ notes db ∧ note = db_note_to_note db row
                    ∧ mkTag t ∈ n_tags note)
      ∧ (c_tag criteria = None → length selected ≤ 100)%nat
      ∧ (c_tag criteria = None → c_note_type criteria = None →
         length selected ≤ 50)%nat
  end.
Proof.
  intros r Hmade. subst r. unfold export_by_criteria.
  destruct (mkdir export_dir files) as [files' e]. cbn [snd] in Hmade.
  subst e. cbn [fst].
  destruct (selected_notes db criteria) as [selected|] eqn:Esel; [|done].
  cbn [fst snd].
  destruct (export_notes_counts false export_dir selected
              (files', set_total_notes (length selected) stats))
    as (H1 & H2 & _ & H4).
  split; [done |]. split; [exact H1 |]. split; [exact H2 |].
  split; [by rewrite H4 |].
  unfold selected_notes in Esel.
  destruct (c_tag criteria) as [t|].
  - injection Esel as <-. split; [|done].
    intros t' [= <-] note. unfold find_by_tag.
    rewrite list_elem_of_fmap. split.
    + intros (row & -> & Hrow). exists row.
      unfold order_by_updated_desc in Hrow.
      rewrite merge_sort_Permutation in Hrow.
      apply list_elem_of_filter in Hrow as [Htag Hrow].
      split; [done |]. split; [done |]. by apply tagged_row.
    + intros (row & Hrow & -> & Htag). exists row. split; [done |].
      unfold order_by_updated_desc. rewrite merge_sort_Permutation.
      apply list_elem_of_filter. split; [|done]. by apply tagged_row.
  - split; [done |].
    destruct (c_note_type criteria) as [nt|].
    + injection Esel as <-. split; [|done]. intros _.
      unfold list_notes. rewrite length_fmap. unfold limit_offset.
      change (100 <? 0) with false. cbn match. rewrite length_take.
      change (Z.to_nat 100) with 100%nat. lia.
    + destruct (c_search_query criteria) as [q|]; [|done].
      injection Esel as <-.
      assert (Hs : (length (search db q 50 true true true) ≤ 50)%nat).
      { unfold search.
        destruct (search_conditions db q true true true); [cbn; lia |].
        rewrite length_fmap. unfold limit_offset.
        change (50 <? 0) with false. cbn match. rewrite length_take.
        change (Z.to_nat 50) with 50%nat. lia. }
      split; intros; lia.
Qed.

(** *** The incremental export *)

Lemma filter_sorted_prefix (since : Z) (rows : list DBNote) :
  StronglySorted newer_first rows →
  ∃ k, filter (λ row, since ≤ db_updated_at row) rows = take k rows.
Proof.
  induction 1 as [|row rows Hs [k IH] Hrow].
  - by exists 0%nat.
  - rewrite filter_cons. case_decide as Hd.
    + exists (S k). cbn [take]. by rewrite IH.
    + exists 0%nat. cbn [take]. apply filter_none.
      intros r Hr. eapply Forall_forall in Hrow; [|exact Hr].
      unfold newer_first in Hrow. lia.
Qed.

Lemma filter_fmap_iff {A B} (f : A → B) (P : B → Prop) (Q : A → Prop)
    `{!∀ y, Decision (P y)} `{!∀ x, Decision (Q x)} (l : list A) :
  (∀ x, P (f x) ↔ Q x) → filter P (f <$> l) = f <$> filter Q l.
Proof.
  intros HPQ. induction l as [|x l IH]; [done |].
  cbn [fmap list_fmap]. rewrite !filter_cons.
  destruct (decide (P (f x))) as [HP | HP], (decide (Q x)) as [HQ | HQ].
  - cbn [fmap list_fmap]. by f_equal.
  - by apply HPQ in HP.
  - by apply HPQ in HQ.
  - done.
Qed.

(** The notes of an incremental export are the notes updated at
    [since] or later among the 10000 most recently updated: a first
    part of what [list] gives, so no older note goes between them; in a
    store of at most 10000 notes they are all the notes updated since.
    Each is dealt with once. *)
Theorem incremental_export_selects_recent db (since : Z) (export_dir : string)
    files :
  let selected := notes_to_export db since in
  let st :=
    foldl (export_note false export_dir) (files, mkExportStats 0 0 0 [])
          selected in
  (∃ k, selected = take k (list_notes db 10000 0 None None))
  ∧ (∀ note, note ∈ selected → since ≤ n_updated_at note)
  ∧ (Z.of_nat (length (notes db)) ≤ 10000 →
     ∀ row, row ∈ notes db → since ≤ db_updated_at row →
            db_note_to_note db row ∈ selected)
  ∧ dealt_with st.2 = length selected.
Proof.
  intros selected st.
  assert (Hl : list_notes db 10000 0 None None
               = db_note_to_note db
                   <$> take (Z.to_nat 10000) (rows_newest_first db)).
  { rewrite list_page by lia. change (Z.to_nat 0) with 0%nat.
    by rewrite drop_0. }
  assert (Hsorted : StronglySorted newer_first
                      (take (Z.to_nat 10000) (rows_newest_first db))).
  { apply StronglySorted_take. unfold rows_newest_first, order_by_updated_desc.
    apply StronglySorted_merge_sort.
    - intros r1 r2 r3. unfold newer_first. lia.
    - intros r1 r2. unfold newer_first. lia. }
  assert (Hsel : selected
                 = db_note_to_note db
                     <$> filter (λ row, since ≤ db_updated_at row)
                           (take (Z.to_nat 10000) (rows_newest_first db))).
  { subst selected. unfold notes_to_export. rewrite Hl.
    by apply filter_fmap_iff. }
  split; [|split; [|split]].
  - destruct (filter_sorted_prefix since _ Hsorted) as [k Hk].
    exists k. rewrite Hsel, Hk, Hl. by rewrite fmap_take.
  - intros note. subst selected. unfold notes_to_export.
    by intros [? _]%list_elem_of_filter.
  - intros Hsmall row Hrow Hsince. rewrite Hsel.
    apply list_elem_of_fmap. exists row. split; [done |].
    apply list_elem_of_filter. split; [done |].
    rewrite take_ge by (rewrite rows_newest_first_length; lia).
    unfold rows_newest_first, order_by_updated_desc.
    by rewrite merge_sort_Permutation.
  - destruct (export_notes_counts false export_dir selected
                (files, mkExportStats 0 0 0 [])) as (_ & H2 & _).
    exact H2.
Qed.

(** *** Export, then import *)

(** A note exported with [export_single_note] and imported from that
    file into a store that does not have its id is created there with
    its id, title, kind, tags and times; the content is what the
    encoder wrote for it, stripped, and of its links those are stored
    whose target is in that store. The file is read in text mode: what
    is read of a text that was written is that text with every CR LF and
    every CR turned into LF, and the encoded text of the note has no
    carriage return. The note is one the decoder reads back: no Links
    heading in its content, an id that is not empty, distinct tag names
    and links that a header and a bullet keep. *)
Theorem export_then_import db (note_id export_dir : string) files files'
    (now now' : Z) (update_existing : bool) (db2 : DB) (stats : ImportStats)
    note :
  (∀ kind : LinkType, plain_kind (enum_value kind)) →
  markdown_of note = Ok (export_note_to_markdown note) →
  (∀ path text fs fs', write_text path text fs = (fs', None) →
                       read_text fs' path = Ok (universal_newlines text)) →
  contains cr (export_note_to_markdown note) = false →
  read db note_id = Some note →
  export_single_note db note_id export_dir files = (true, files') →
  contains links_heading (n_content note) = false →
  n_metadata note !! "content" = None → n_metadata note !! "handler" = None →
  n_id note ≠ "" →
  Forall (λ t, tag_name_ok (tag_name t)) (n_tags note) →
  NoDup (tag_name <$> n_tags note) →
  Forall link_ok (n_links note) →
  store_ok db2 → note_id ∉ note_ids db2 →
  ∃ db2' stored,
    import_single_file PERMANENT REFERENCE (read_text files') now'
      (path_join export_dir (note_id +:+ ".md")) update_existing (db2, stats)
    = (true, (db2', incr_imported stats))
    ∧ read db2' note_id = Some stored
    ∧ n_title stored = n_title note
    ∧ n_note_type stored = n_note_type note
    ∧ n_tags stored = n_tags note
    ∧ n_created_at stored = n_created_at note
    ∧ n_updated_at stored = n_updated_at note
    ∧ n_content stored = strip (join nl (content_parts note))
    ∧ (∀ l, l ∈ n_links stored → target_id l ∈ note_ids db2')
    ∧ (∀ id, id ≠ note_id → read db2' id = read db2 id).
Proof.
  intros Hkinds Hmd Hfs Hplain Hread Hexp Hheading Hc Hh Hid Htags _ Hlinks
    Hok Hfresh.
  assert (Hnid : n_id note = note_id).
  { unfold read in Hread. destruct (find_note db note_id) as [row|] eqn:E;
      [|done].
    injection Hread as <-. by apply find_note_Some in E as [_ ?]. }
  unfold export_single_note in Hexp. rewrite Hread in Hexp.
  unfold write_note in Hexp. rewrite Hmd, Hnid in Hexp.
  destruct (write_text (path_join export_dir (note_id +:+ ".md"))
              (export_note_to_markdown note) files) as [fs' e] eqn:Ew.
  injection Hexp as He <-. apply bool_decide_eq_true in He. subst e.
  pose proof (Hfs _ _ _ _ Ew) as Hback.
  rewrite (universal_newlines_plain _ Hplain) in Hback.
  destruct (decode_encode_fields PERMANENT REFERENCE (read_text fs') now'
              (path_join export_dir (note_id +:+ ".md")) stats note
              Hkinds Hback Hheading Hc Hh Hid Htags Hlinks)
    as (N' & Hparse & Hi & Ht & Hk & Htg & Hl & Hcr & Hup).
  pose proof (parse_export PERMANENT REFERENCE (read_text fs') now'
                (path_join export_dir (note_id +:+ ".md")) stats note
                Hback Hc Hh Hid) as Hdec.
  rewrite Hparse in Hdec. injection Hdec as HN'.
  assert (Habsent : find_note db2 (n_id N') = None).
  { apply find_note_None. by rewrite Hi, Hnid. }
  pose proof (create_Ok now' N' db2 Habsent) as Hcreate.
  set (stored := db_note_to_note (created_db now' N' db2)
                   (mkDBNote (n_id N') (n_title N') (n_content N')
                      (n_note_type N') (n_created_at N') (n_updated_at N')
                      (n_metadata N'))) in Hcreate.
  destruct (create_read_back now' N' stored db2 (created_db now' N' db2) Hok
              Hcreate) as (Hr & (W1 & W2 & W3 & W4 & W5) & Wl & Wframe).
  exists (created_db now' N' db2), stored.
  split.
  { unfold import_single_file. rewrite Hparse.
    unfold read at 1. rewrite Habsent. cbn [fmap option_fmap option_map].
    rewrite Hcreate. done. }
  rewrite Hi, Hnid in Hr. split; [exact Hr |].
  split; [by rewrite W1 |]. split; [by rewrite W3 |].
  split; [by rewrite W5 |]. split; [done |]. split; [done |].
  split; [by rewrite W2, HN' |].
  split.
  - intros l. rewrite Wl. intros (l0 & -> & Hl0)%list_elem_of_fmap.
    by apply list_elem_of_filter in Hl0 as [? _].
  - intros id Hne. apply Wframe. by rewrite Hi, Hnid.
Qed.

End ExporterRuns.

(* ===================================================================== *)
(** ** The migrator: its report, repeated runs and the verification       *)
(* ===================================================================== *)

Section MigratorRuns.

Context {value : Type} `{!PyValue value}.
Context {NoteType : Type} `{!PyEnum NoteType}.
Context {LinkType : Type} `{!PyEnum LinkType}.
Context (PERMANENT : NoteType) (REFERENCE : LinkType).
Context {ISO : IsoFormat} {FM : FrontMatter value}.

#[local] Abbreviation Note := (Note value NoteType LinkType).
#[local] Abbreviation DB := (DB value NoteType LinkType).

Implicit Types (db : DB) (report : MigrationReport)
  (fs : string → result string) (stat : string → result (Z * Z)).

(** [MigrationReport] with its list [notes_migrated], of ids and
    titles. *)
Record Migration := mkMigration {
  mg_report : MigrationReport;
  mg_notes_migrated : list (string * string);
}.

(** [MigrationReport.add_success] *)
Definition add_success (mig : Migration) (note_id title : string) : Migration :=
  let report := mg_report mig in
  mkMigration
    (mkReport (r_total_files report) (S (r_successful_migrations report))
              (r_failed_migrations report) (r_warnings report)
              (r_errors report))
    (mg_notes_migrated mig ++ [(note_id, title)]).

(** [MigrationReport.add_error] *)
Definition add_error (mig : Migration) (file_path error : string) : Migration :=
  let report := mg_report mig in
  mkMigration
    (mkReport (r_total_files report) (r_successful_migrations report)
              (S (r_failed_migrations report)) (r_warnings report)
              (r_errors report ++ [(file_path, error)]))
    (mg_notes_migrated mig).

(** [MarkdownToSQLiteMigrator.migrate_note]: the returned flag, the
    database and the report afterwards. *)
Definition migrate_note fs stat (now : Z) (file_path : string)
    (st : DB * Migration) : bool * (DB * Migration) :=
  let '(db, mig) := st in
  let '(note, report) :=
    migrate_parse_note_from_markdown PERMANENT REFERENCE fs stat now file_path
      (mg_report mig) in
  let mig := mkMigration report (mg_notes_migrated mig) in
  match note with
  | None => (false, (db, add_error mig file_path "Failed to parse note"))
  | Some note =>
      match create now note db with
      | Ok r => (true, (r.2, add_success mig (n_id note) (n_title note)))
      | Raise e => (false, (db, add_error mig file_path e))
      end
  end.

(** Steps 2 and 3 of [run_migration], given the [*.md] files of the
    notes directory: the files are counted and migrated one after the
    other. *)
Definition migrate_files fs stat (now : Z) (md_files : list string)
    (st : DB * Migration) : DB * Migration :=
  let report := mg_report st.2 in
  let report :=
    mkReport (length md_files) (r_successful_migrations report)
             (r_failed_migrations report) (r_warnings report)
             (r_errors report) in
  foldl (λ st md_file, (migrate_note fs stat now md_file st).2)
        (st.1, mkMigration report (mg_notes_migrated st.2)) md_files.

(** [str] of a number that is not negative. *)
Definition str_of_nat (n : nat) : string :=
  NilEmpty.string_of_uint (Nat.to_uint n).

(** One turn of the loop of [verify_migration]. Members of an
    enumeration are the same when their values are. *)
Definition verify_note fs stat (now : Z) db
    (acc : list string * MigrationReport) (md_file : string)
  : list string * MigrationReport :=
  let '(issues, report) := acc in
  let '(file_note, report) :=
    migrate_parse_note_from_markdown PERMANENT REFERENCE fs stat now md_file
      report in
  match file_note with
  | None =>
      (issues ++ ["Could not parse " +:+ md_file +:+ " for verification"],
       report)
  | Some file_note =>
      match read db (n_id file_note) with
      | None =>
          (issues ++ ["Note " +:+ n_id file_note +:+ " not found in database"],
           report)
      | Some db_note =>
          let issues :=
            if bool_decide (n_title file_note ≠ n_title db_note)
            then issues ++ ["Title mismatch for " +:+ n_id file_note]
            else issues in
          let issues :=
            if bool_decide (n_content file_note ≠ n_content db_note)
            then issues ++ ["Content mismatch for " +:+ n_id file_note]
            else issues in
          let issues :=
            if bool_decide (enum_value (n_note_type file_note)
                            ≠ enum_value (n_note_type db_note))
            then issues ++ ["Type mismatch for " +:+ n_id file_note]
            else issues in
          let file_tags : gset string :=
            list_to_set (tag_name <$> n_tags file_note) in
          let db_tags : gset string :=
            list_to_set (tag_name <$> n_tags db_note) in
          let issues :=
            if bool_decide (file_tags ≠ db_tags)
            then issues ++ ["Tags mismatch for " +:+ n_id file_note]
            else issues in
          (issues, report)
      end
  end.

(** [MarkdownToSQLiteMigrator.verify_migration], given the [*.md] files
    of the notes directory: the flag and the issues, and the report as
    the decoder leaves it. *)
Definition verify_migration fs stat (now : Z) (md_files : list string) db
    report : bool * list string * MigrationReport :=
  let md_count := length md_files in
  let db_count := st_total_notes (get_statistics db) in
  let issues :=
    if bool_decide (md_count ≠ db_count)
    then ["Count mismatch: " +:+ str_of_nat md_count +:+ " files vs "
          +:+ str_of_nat db_count +:+ " in database"]
    else [] in
  let '(issues, report) :=
    foldl (verify_note fs stat now db) (issues, report) md_files in
  (bool_decide (length issues = 0%nat), issues, report).

(** *** The decoder of the migrator, called again *)

(** What the decoder reads of a file does not depend on the time of the
    call or on the report, but for the migration date and the creation
    times of the links. *)
Definition same_reading (n1 n2 : Note) : Prop :=
  n_id n2 = n_id n1 ∧ n_title n2 = n_title n1 ∧ n_content n2 = n_content n1
  ∧ n_note_type n2 = n_note_type n1 ∧ n_tags n2 = n_tags n1
  ∧ n_created_at n2 = n_created_at n1 ∧ n_updated_at n2 = n_updated_at n1.

Lemma migrate_parse_again fs stat (now1 now2 : Z) file_path report1 report2 n1 :
  (migrate_parse_note_from_markdown PERMANENT REFERENCE fs stat now1 file_path
     report1).1 = Some n1 →
  ∃ n2,
    (migrate_parse_note_from_markdown PERMANENT REFERENCE fs stat now2
       file_path report2).1 = Some n2
    ∧ same_reading n1 n2.
Proof.
  unfold migrate_parse_note_from_markdown, try_migrate_parse, same_reading.
  destruct (fs file_path) as [content|e]; [|done].
  destruct (fm_loads content) as [post|e]; [|done].
  unfold timestamp_or.
  destruct (get_truthy (post_metadata post) "id") as [note_id|];
  (destruct (truthy (default (VStr "") (post_metadata post !! "title")));
   [|destruct (is_empty (title_from_heading (post_content post)))]);
  destruct (lookup_note_type _);
  (destruct (get_truthy (post_metadata post) "created") as [c|];
   [destruct (fromisoformat_value c) as [ct|]
   |destruct (stat file_path) as [times|]]; cbn [rbind fst snd]; try done);
  (destruct (get_truthy (post_metadata post) "updated") as [u|];
   [destruct (fromisoformat_value u) as [ut|] | ];
   cbn [rbind fst snd]; try done);
  try (destruct (stat file_path) as [times'|]; cbn [rbind fst snd]; try done);
  (destruct (str_field _) as [id|]; cbn [rbind fst snd]; try done);
  (destruct (str_field _) as [title|]; cbn [rbind fst snd]; try done);
  intros [= <-]; eexists; (split; [reflexivity |]); done.
Qed.

(** Reports that differ only by warnings added at the end. *)
Definition warned_report (report report' : MigrationReport) : Prop :=
  r_total_files report' = r_total_files report
  ∧ r_successful_migrations report' = r_successful_migrations report
  ∧ r_failed_migrations report' = r_failed_migrations report
  ∧ r_errors report' = r_errors report
  ∧ r_warnings report `prefix_of` r_warnings report'.

Lemma warned_report_refl report : warned_report report report.
Proof. by unfold warned_report. Qed.

Lemma warned_report_add report report' w :
  warned_report report report' →
  warned_report report (report_add_warning report' w).
Proof.
  intros (H1 & H2 & H3 & H4 & H5). unfold warned_report, report_add_warning.
  cbn. do 4 (split; [done |]). etrans; [exact H5 | by apply prefix_app_r].
Qed.

Lemma migrate_parse_warns fs stat (now : Z) file_path report :
  warned_report report
    (migrate_parse_note_from_markdown PERMANENT REFERENCE fs stat now file_path
       report).2.
Proof.
  unfold migrate_parse_note_from_markdown, try_migrate_parse.
  destruct (fs file_path) as [content|e]; [|apply warned_report_refl].
  destruct (fm_loads content) as [post|e]; [|apply warned_report_refl].
  destruct (get_truthy (post_metadata post) "id") as [note_id|];
  (destruct (truthy (default (VStr "") (post_metadata post !! "title")));
   [|destruct (is_empty (title_from_heading (post_content post)))]);
  destruct (lookup_note_type _);
  match goal with
  | |- context [rbind ?x ?k] =>
      destruct (rbind x k) as [note|e]; cbn [fst snd]
  end;
  repeat apply warned_report_add; apply warned_report_refl.
Qed.

(** *** One file *)

(** The migrations a report has counted. *)
Definition counted (mig : Migration) : nat :=
  (r_successful_migrations (mg_report mig)
   + r_failed_migrations (mg_report mig))%nat.

Lemma migrate_note_cases fs stat (now : Z) file_path db mig :
  let parsed :=
    migrate_parse_note_from_markdown PERMANENT REFERENCE fs stat now file_path
      (mg_report mig) in
  let mig' := mkMigration parsed.2 (mg_notes_migrated mig) in
  migrate_note fs stat now file_path (db, mig)
  = match parsed.1 with
    | None => (false, (db, add_error mig' file_path "Failed to parse note"))
    | Some note =>
        match find_note db (n_id note) with
        | Some _ =>
            (false,
             (db, add_error mig' file_path
                    ("Note with ID " +:+ n_id note +:+ " already exists")))
        | None =>
            (true,
             (created_db now note db,
              add_success mig' (n_id note) (n_title note)))
        end
    end.
Proof.
  cbn zeta. unfold migrate_note.
  destruct (migrate_parse_note_from_markdown PERMANENT REFERENCE fs stat now
              file_path (mg_report mig)) as [[note|] report]; cbn [fst snd];
    [|done].
  destruct (find_note db (n_id note)) as [row|] eqn:E.
  - by rewrite (create_Raise now note db row E).
  - by rewrite (create_Ok now note db E).
Qed.

(** [migrate_note] counts the file once, as migrated exactly when it
    returns [True]; the tags the decoder reads are of distinct names. A
    call that returns [False] has written nothing
    and has recorded the file with the error, which is "Failed to parse
    note" or that a note with the id exists; a call that returns [True]
    has created the note under an id that was not there, and has
    recorded its id and title. Warnings are only added. *)
Theorem migrate_note_accounts fs stat (now : Z) (file_path : string) db
    (mig : Migration) :
  let parsed :=
    (migrate_parse_note_from_markdown PERMANENT REFERENCE fs stat now file_path
       (mg_report mig)).1 in
  let r := migrate_note fs stat now file_path (db, mig) in
  let report' := mg_report r.2.2 in
  (∀ note, parsed = Some note → NoDup (tag_name <$> n_tags note)) →
  counted r.2.2 = S (counted mig)
  ∧ r_total_files report' = r_total_files (mg_report mig)
  ∧ r_warnings (mg_report mig) `prefix_of` r_warnings report'
  ∧ (r.1 = true ↔
     r_successful_migrations report'
     = S (r_successful_migrations (mg_report mig)))
  ∧ (r.1 = false →
     r.2.1 = db
     ∧ mg_notes_migrated r.2.2 = mg_notes_migrated mig
     ∧ ∃ e, r_errors report' = r_errors (mg_report mig) ++ [(file_path, e)]
            ∧ match parsed with
              | None => e = "Failed to parse note"
              | Some note =>
                  n_id note ∈ note_ids db
                  ∧ e = "Note with ID " +:+ n_id note +:+ " already exists"
              end)
  ∧ (r.1 = true →
     ∃ note,
       parsed = Some note
       ∧ (n_id note ∉ note_ids db)
       ∧ note_ids r.2.1 = note_ids db ++ [n_id note]
       ∧ mg_notes_migrated r.2.2
         = mg_notes_migrated mig ++ [(n_id note, n_title note)]
       ∧ r_errors report' = r_errors (mg_report mig)).
Proof.
  cbn zeta. intros _. rewrite migrate_note_cases.
  pose proof (migrate_parse_warns fs stat now file_path (mg_report mig))
    as (H1 & H2 & H3 & H4 & H5).
  destruct (migrate_parse_note_from_markdown PERMANENT REFERENCE fs stat now
              file_path (mg_report mig)) as [[note|] report];
    cbn [fst snd] in *.
  - destruct (find_note db (n_id note)) as [row|] eqn:E;
      unfold counted; cbn.
    + split; [lia |]. split; [done |]. split; [done |].
      split; [split; [done | lia] |].
      split; [|done]. intros _. split; [done |]. split; [done |].
      eexists. split; [by rewrite H4 |]. split; [|done].
      apply find_note_is_Some. rewrite E. eauto.
    + split; [lia |]. split; [done |]. split; [done |].
      split; [split; [intros _; by rewrite H2 | done] |].
      split; [done |]. intros _. exists note. split; [done |].
      split; [by apply find_note_None |].
      split; [by rewrite created_db_ids |]. done.
  - unfold counted; cbn.
    split; [lia |]. split; [done |]. split; [done |].
    split; [split; [done | lia] |].
    split; [|done]. intros _. split; [done |]. split; [done |].
    eexists. split; [by rewrite H4 |]. done.
Qed.

(** A file that was migrated is not migrated again: a second call for
    it, at any later time and whatever was created in between, returns
    [False], records that a note with the id exists, and leaves the
    store as it is. *)
Theorem migrate_note_again fs stat (now1 now2 : Z) (file_path : string)
    db (mig : Migration) (db2 : DB) (mig2 : Migration) :
  let first := migrate_note fs stat now1 file_path (db, mig) in
  let second := migrate_note fs stat now2 file_path (db2, mig2) in
  first.1 = true →
  (∀ id, id ∈ note_ids first.2.1 → id ∈ note_ids db2) →
  ∃ id title,
    last (mg_notes_migrated first.2.2) = Some (id, title)
    ∧ second.1 = false
    ∧ second.2.1 = db2
    ∧ last (r_errors (mg_report second.2.2))
      = Some (file_path, "Note with ID " +:+ id +:+ " already exists").
Proof.
  cbn zeta. rewrite !migrate_note_cases.
  destruct (migrate_parse_note_from_markdown PERMANENT REFERENCE fs stat now1
              file_path (mg_report mig)) as [[n1|] report1] eqn:E1;
    cbn [fst snd]; [|done].
  destruct (find_note db (n_id n1)) as [row|] eqn:F1; [done |].
  cbn [fst snd]. intros _ Hin.
  destruct (migrate_parse_again fs stat now1 now2 file_path (mg_report mig)
              (mg_report mig2) n1) as (n2 & E2 & Hid & Htitle & _).
  { by rewrite E1. }
  rewrite E2. exists (n_id n1), (n_title n1).
  split; [cbn; by rewrite last_snoc |].
  assert (Hthere : n_id n2 ∈ note_ids db2).
  { apply Hin. rewrite created_db_ids, Hid. apply elem_of_app. right.
    by apply list_elem_of_singleton. }
  apply find_note_is_Some in Hthere as [row2 F2]. rewrite F2. cbn.
  split; [done |]. split; [done |]. by rewrite last_snoc, Hid.
Qed.

(** *** The record of the migration *)

Lemma migrate_parse_metadata fs stat (now : Z) file_path report note :
  (migrate_parse_note_from_markdown PERMANENT REFERENCE fs stat now file_path
     report).1 = Some note →
  ∃ md : gmap string value,
    n_metadata note
    = <["migration_date" := VStr (isoformat now)]>
        (<["migrated_from" := VStr file_path]> (extra_metadata_of md)).
Proof.
  unfold migrate_parse_note_from_markdown, try_migrate_parse.
  destruct (fs file_path) as [content|e]; [|done].
  destruct (fm_loads content) as [post|e]; [|done].
  destruct (get_truthy (post_metadata post) "id") as [note_id|];
  (destruct (truthy (default (VStr "") (post_metadata post !! "title")));
   [|destruct (is_empty (title_from_heading (post_content post)))]);
  destruct (lookup_note_type _);
  (destruct (timestamp_or _ "created" _) as [c|]; cbn [rbind fst snd];
   try done);
  (destruct (timestamp_or _ "updated" _) as [u|]; cbn [rbind fst snd];
   try done);
  (destruct (str_field _) as [id|]; cbn [rbind fst snd]; try done);
  (destruct (str_field _) as [title|]; cbn [rbind fst snd]; try done);
  intros [= <-]; by eexists.
Qed.

(** The migrator's decoder records the file and the time of the call in
    the metadata of every note it yields, and keeps the six entries of
    the header out of it. The encoder writes neither of the two into
    the header, and every other entry of the metadata as it is: a note
    that is exported loses the record of its migration. *)
Theorem migration_record_is_not_exported fs stat (now : Z)
    (file_path : string) report note :
  (migrate_parse_note_from_markdown PERMANENT REFERENCE fs stat now file_path
     report).1 = Some note →
  let header := post_metadata (export_post note) in
  n_metadata note !! "migrated_from" = Some (VStr file_path)
  ∧ n_metadata note !! "migration_date" = Some (VStr (isoformat now))
  ∧ (∀ k, k ∈ reserved_keys → n_metadata note !! k = None)
  ∧ header !! "migrated_from" = None
  ∧ header !! "migration_date" = None
  ∧ (∀ k, k ∉ reserved_keys → k ≠ "migrated_from" → k ≠ "migration_date" →
          header !! k = n_metadata note !! k).
Proof.
  intros Hparse header.
  destruct (migrate_parse_metadata fs stat now file_path report note Hparse)
    as [md Hmd].
  assert (Hout : ∀ k, k ∉ reserved_keys →
            header !! k
            = if bool_decide (k ∈ ["migrated_from"; "migration_date"])
              then None else n_metadata note !! k).
  { intros k Hk. subst header. cbn [export_post post_metadata].
    rewrite export_metadata_lookup_other by done.
    case_bool_decide as Hmig.
    - apply eq_None_not_Some. intros [x Hx].
      by apply exported_extra_Some in Hx as (_ & _ & ?).
    - apply option_eq. intros x. rewrite exported_extra_Some. tauto. }
  assert (Hno : ∀ k : string, k ∈ ["migrated_from"; "migration_date"] →
                  k ∉ reserved_keys).
  { intros k Hk Hres. unfold reserved_keys in Hres.
    rewrite !elem_of_cons in Hk. rewrite !elem_of_cons in Hres.
    destruct Hk as [-> | [-> | Hk]]; [| |by apply not_elem_of_nil in Hk];
      repeat (destruct Hres as [Hres | Hres]; [discriminate |]);
      by apply not_elem_of_nil in Hres. }
  split; [rewrite Hmd; by rewrite lookup_insert_ne, lookup_insert_eq by done |].
  split; [rewrite Hmd; by rewrite lookup_insert_eq |].
  split.
  - intros k Hk. rewrite Hmd.
    rewrite !lookup_insert_ne.
    + unfold extra_metadata_of. apply map_lookup_filter_None. right.
      intros x _ Hx. by apply Hx.
    + intros <-. by eapply Hno; [|exact Hk]; left.
    + intros <-. by eapply Hno; [|exact Hk]; right; left.
  - split; [|split].
    + rewrite Hout by (apply Hno; left). by rewrite bool_decide_eq_true_2 by left.
    + rewrite Hout by (apply Hno; right; left).
      by rewrite bool_decide_eq_true_2 by (right; left).
    + intros k Hk H1 H2. rewrite Hout by done.
      rewrite bool_decide_eq_false_2; [done |].
      rewrite !elem_of_cons. intros [-> | [-> | Hn]]; [done | done |].
      by apply not_elem_of_nil in Hn.
Qed.

(** *** The verification *)

Lemma migrate_parse_report fs stat (now : Z) file_path report1 report2 :
  (migrate_parse_note_from_markdown PERMANENT REFERENCE fs stat now file_path
     report1).1
  = (migrate_parse_note_from_markdown PERMANENT REFERENCE fs stat now file_path
       report2).1.
Proof.
  unfold migrate_parse_note_from_markdown, try_migrate_parse.
  destruct (fs file_path) as [content|e]; [|done].
  destruct (fm_loads content) as [post|e]; [|done].
  destruct (get_truthy (post_metadata post) "id") as [note_id|];
  (destruct (truthy (default (VStr "") (post_metadata post !! "title")));
   [|destruct (is_empty (title_from_heading (post_content post)))]);
  destruct (lookup_note_type _);
  match goal with
  | |- context [rbind ?x ?k] => by destruct (rbind x k)
  end.
Qed.

(** A file the verification finds nothing about, in the store [db]. *)
Definition verified fs stat (now : Z) db (md_file : string) : Prop :=
  ∃ file_note db_note,
    (∀ report,
       (migrate_parse_note_from_markdown PERMANENT REFERENCE fs stat now
          md_file report).1 = Some file_note)
    ∧ read db (n_id file_note) = Some db_note
    ∧ n_title file_note = n_title db_note
    ∧ n_content file_note = n_content db_note
    ∧ n_note_type file_note = n_note_type db_note
    ∧ n_tags file_note = n_tags db_note.

Lemma verify_note_verified fs stat (now : Z) db issues report md_file :
  verified fs stat now db md_file →
  (verify_note fs stat now db (issues, report) md_file).1 = issues.
Proof.
  intros (file_note & db_note & Hparse & Hread & H1 & H2 & H3 & H4).
  unfold verify_note. specialize (Hparse report).
  destruct (migrate_parse_note_from_markdown PERMANENT REFERENCE fs stat now
              md_file report) as [parsed report']. cbn [fst] in Hparse.
  subst parsed. rewrite Hread, H1, H2, H3, H4.
  rewrite !bool_decide_eq_false_2 by (intros Hne; by apply Hne). done.
Qed.

Lemma verify_notes_verified fs stat (now : Z) db (md_files : list string)
    issues report :
  (∀ f, f ∈ md_files → verified fs stat now db f) →
  (foldl (verify_note fs stat now db) (issues, report) md_files).1 = issues.
Proof.
  revert report. induction md_files as [|f md_files IH]; intros report Hall;
    cbn [foldl]; [done |].
  pose proof (verify_note_verified fs stat now db issues report f
                (Hall f (list_elem_of_here _ _))) as Hf.
  destruct (verify_note fs stat now db (issues, report) f) as [issues' report'].
  cbn [fst] in Hf. subst issues'. apply IH. intros g Hg. apply Hall. by right.
Qed.

Lemma migrate_note_failed fs stat (now : Z) file_path db mig :
  let r := migrate_note fs stat now file_path (db, mig) in
  r_failed_migrations (mg_report r.2.2)
  = if r.1 then r_failed_migrations (mg_report mig)
    else S (r_failed_migrations (mg_report mig)).
Proof.
  cbn zeta. rewrite migrate_note_cases.
  pose proof (migrate_parse_warns fs stat now file_path (mg_report mig))
    as (_ & _ & H3 & _).
  destruct (migrate_parse_note_from_markdown PERMANENT REFERENCE fs stat now
              file_path (mg_report mig)) as [[note|] report];
    cbn [fst snd] in *; [destruct (find_note db (n_id note)) |];
    cbn; by rewrite H3.
Qed.

Lemma migrate_notes_failed fs stat (now : Z) (md_files : list string)
    (st : DB * Migration) :
  (r_failed_migrations (mg_report st.2)
   ≤ r_failed_migrations
       (mg_report (foldl (λ st md_file, (migrate_note fs stat now md_file st).2)
                         st md_files).2))%nat.
Proof.
  revert st. induction md_files as [|f md_files IH]; intros st; cbn [foldl];
    [done |].
  etrans; [|apply IH]. destruct st as [db mig].
  rewrite migrate_note_failed. cbn [snd]. destruct (migrate_note _ _ _ _ _).1; lia.
Qed.

Lemma migrate_notes_total fs stat (now : Z) (md_files : list string)
    (st : DB * Migration) :
  r_total_files
    (mg_report (foldl (λ st md_file, (migrate_note fs stat now md_file st).2)
                      st md_files).2)
  = r_total_files (mg_report st.2).
Proof.
  revert st. induction md_files as [|f md_files IH]; intros st; cbn [foldl];
    [done |].
  rewrite IH. destruct st as [db mig]. rewrite migrate_note_cases.
  pose proof (migrate_parse_warns fs stat now f (mg_report mig))
    as (H1 & _).
  destruct (migrate_parse_note_from_markdown PERMANENT REFERENCE fs stat now
              f (mg_report mig)) as [[note|] report];
    cbn [fst snd] in *; [destruct (find_note db (n_id note)) |];
    cbn; by rewrite H1.
Qed.

Lemma migrated_verified fs stat (now now' : Z) file_path db mig :
  store_ok db →
  (migrate_note fs stat now file_path (db, mig)).1 = true →
  let db' := (migrate_note fs stat now file_path (db, mig)).2.1 in
  store_ok db'
  ∧ length (notes db') = S (length (notes db))
  ∧ verified fs stat now' db' file_path
  ∧ (∀ g, verified fs stat now' db g → verified fs stat now' db' g).
Proof.
  intros Hok. cbn zeta. rewrite migrate_note_cases.
  destruct (migrate_parse_note_from_markdown PERMANENT REFERENCE fs stat now
              file_path (mg_report mig)) as [[n1|] report1] eqn:E1;
    cbn [fst snd]; [|done].
  destruct (find_note db (n_id n1)) as [row|] eqn:F1; [done |].
  cbn [fst snd]. intros _.
  pose proof (create_Ok now n1 db F1) as Hcreate.
  set (stored := db_note_to_note (created_db now n1 db)
                   (mkDBNote (n_id n1) (n_title n1) (n_content n1)
                      (n_note_type n1) (n_created_at n1) (n_updated_at n1)
                      (n_metadata n1))) in Hcreate.
  destruct (create_read_back now n1 stored db (created_db now n1 db) Hok
              Hcreate) as (Hr & (W1 & W2 & W3 & W4 & W5) & _ & Wframe).
  split; [by eapply create_store_ok |].
  split; [by rewrite created_db_notes, length_app, Nat.add_1_r |].
  split.
  - destruct (migrate_parse_again fs stat now now' file_path (mg_report mig)
                (mg_report mig) n1) as (n2 & E2 & Hid & Ht & Hc & Hk & Htg & _).
    { by rewrite E1. }
    exists n2, stored. split.
    { intros report. by rewrite (migrate_parse_report _ _ _ _ _ (mg_report mig)). }
    rewrite Hid. split; [exact Hr |].
    split; [congruence |]. split; [congruence |]. split; congruence.
  - intros g (fn & dn & Hparse & Hread & Hrest). exists fn, dn.
    split; [done |]. split; [|done].
    rewrite Wframe; [done |]. intros Heq.
    apply find_note_None in F1. apply F1. rewrite <- Heq.
    apply find_note_is_Some. unfold read in Hread.
    destruct (find_note db (n_id fn)); [eauto | done].
Qed.

Lemma migrated_files_verified fs stat (now now' : Z) (md_files : list string)
    db mig :
  store_ok db →
  let st :=
    foldl (λ st md_file, (migrate_note fs stat now md_file st).2)
          (db, mig) md_files in
  r_failed_migrations (mg_report st.2) = r_failed_migrations (mg_report mig) →
  length (notes st.1) = (length (notes db) + length md_files)%nat
  ∧ (∀ g, verified fs stat now' db g → verified fs stat now' st.1 g)
  ∧ (∀ g, g ∈ md_files → verified fs stat now' st.1 g).
Proof.
  cbn zeta. revert db mig.
  induction md_files as [|f md_files IH]; intros db mig Hok; cbn [foldl length].
  - intros _. cbn [fst]. split; [lia |]. split; [done |]. by intros g ?%not_elem_of_nil.
  - intros Hfailed.
    pose proof (migrate_notes_failed fs stat now md_files
                  (migrate_note fs stat now f (db, mig)).2) as Hle.
    pose proof (migrate_note_failed fs stat now f db mig) as Hstep.
    cbn zeta in Hstep.
    destruct (migrate_note fs stat now f (db, mig)).1 eqn:Eflag; [|lia].
    destruct (migrated_verified fs stat now now' f db mig Hok Eflag)
      as (Hok1 & Hlen1 & Hf & Hframe1).
    destruct (migrate_note fs stat now f (db, mig)) as [flag [db1 mig1]].
    cbn [fst snd] in *.
    destruct (IH db1 mig1 Hok1) as (Hlen & Hframe & Hall); [congruence |].
    split; [lia |]. split; [by intros g Hg; apply Hframe, Hframe1 |].
    intros g [-> | Hg]%elem_of_cons; [by apply Hframe | by apply Hall].
Qed.

(** After a migration into a store without notes in which no file
    failed, the verification finds nothing: the store holds as many
    notes as there were files, and every file reads to a note that the
    store holds under its id with the same title, content, kind and
    tags. The tags the decoder reads are of distinct names. *)
Theorem verification_after_migration fs stat (now now' : Z)
    (md_files : list string) db (mig : Migration) :
  let st := migrate_files fs stat now md_files (db, mig) in
  let v := verify_migration fs stat now' md_files st.1 (mg_report st.2) in
  store_ok db → notes db = [] →
  (∀ f note report,
     f ∈ md_files →
     (migrate_parse_note_from_markdown PERMANENT REFERENCE fs stat now f
        report).1 = Some note →
     NoDup (tag_name <$> n_tags note)) →
  r_failed_migrations (mg_report st.2) = r_failed_migrations (mg_report mig) →
  v.1 = (true, [])
  ∧ length (notes st.1) = length md_files
  ∧ r_total_files (mg_report st.2) = length md_files.
Proof.
  intros st v Hok Hempty _ Hfailed. subst v st. unfold migrate_files in *.
  cbn [fst snd] in *.
  set (mig0 := mkMigration _ (mg_notes_migrated mig)) in *.
  destruct (migrated_files_verified fs stat now now' md_files db mig0 Hok)
    as (Hlen & _ & Hall); [exact Hfailed |].
  rewrite Hempty in Hlen. cbn [length] in Hlen.
  split; [|split; [lia |]].
  - unfold verify_migration. cbn [get_statistics st_total_notes].
    rewrite bool_decide_eq_false_2 by (intros Hne; apply Hne; lia).
    pose proof (verify_notes_verified fs stat now' _ md_files [] 
                  (mg_report (foldl (λ st md_file,
                                       (migrate_note fs stat now md_file st).2)
                                    (db, mig0) md_files).2) Hall) as Hv.
    destruct (foldl (verify_note fs stat now' _) _ md_files) as [issues report'].
    cbn [fst] in Hv. by subst issues.
  - rewrite migrate_notes_total. done.
Qed.

End MigratorRuns.

(* ===================================================================== *)
(** ** A directory tree for the examples                                  *)
(* ===================================================================== *)

Module Disk.
Import Ref.

(** A directory tree as the map from the paths of its files to their
    texts. Every write succeeds, a directory needs no making, and every
    note is encoded; a file is read in text mode. The text of the
    metadata file plays no part in the examples. *)
Definition Files : Type := gmap string string.

Definition write_text (path text : string) (files : Files)
  : Files * option string :=
  (<[path := text]> files, None).

Definition mkdir (path : string) (files : Files) : Files * option string :=
  (files, None).

Definition path_join (dir name : string) : string := dir +:+ "/" +:+ name.

Definition read_text (files : Files) (path : string) : result string :=
  match files !! path with
  | Some text => Ok (universal_newlines text)
  | None => Raise "No such file or directory"
  end.

Definition markdown_of (note : Note yaml NoteType LinkType) : result string :=
  Ok (export_note_to_markdown note).

Definition export_json (now : Z) (statistics : Z * Z * Z * list string)
    (database_stats : Statistics) : string :=
  "{}".

Lemma read_written (path text : string) (files files' : Files) :
  write_text path text files = (files', None) →
  read_text files' path = Ok (universal_newlines text).
Proof.
  unfold write_text, read_text, Files. intros [= <-].
  by rewrite lookup_insert_eq.
Qed.

End Disk.

(* ===================================================================== *)
(** ** The properties on concrete notes, in the reference environment     *)
(* ===================================================================== *)

Module Examples.
Import Ref.

#[local] Abbreviation RNote := (Note yaml NoteType LinkType).
#[local] Abbreviation RLink := (Link LinkType).
#[local] Abbreviation RDB := (DB yaml NoteType LinkType).

Definition link_to_B : RLink := mkLink "A" "B" REFERENCE (Some "see B") None.

Definition noteA : RNote :=
  mkNote "A" "Note A" "Body of A" PERMANENT [mkTag "x"; mkTag "y"]
         [link_to_B] 10 20 ∅.

Definition noteB : RNote :=
  mkNote "B" "Note B" "Body of B" LITERATURE [] [] 11 21 ∅.

(** A note with a comma in a tag name. *)
Definition note_comma : RNote :=
  mkNote "C" "Note C" "Body of C" PERMANENT [mkTag "a,b"] [] 12 22 ∅.

(** A note with a CR LF in its content. *)
Definition note_crlf : RNote :=
  mkNote "R" "Note R" ("one" +:+ cr +:+ nl +:+ "two") PERMANENT [] [] 13 23 ∅.

Definition db0 : RDB := empty_db.

(** A store whose one note has the title U+0000. *)
Definition row_nul : DBNote yaml NoteType :=
  mkDBNote "N" (String "000" "") "Body" PERMANENT 1 2 ∅.

Definition db_nul : RDB := mkDB [row_nul] [] [] [].

(** A store that holds one note, "A", without tags and links. *)
Definition rowA : DBNote yaml NoteType :=
  mkDBNote "A" "Stored A" "Stored body" FLEETING 1 2 ∅.

Definition dbA : RDB := mkDB [rowA] [] [] [].

(** A store that holds the note "A" and one link of it to a note "B"
    that is not there. *)
Definition db_dangling : RDB :=
  mkDB [rowA] [] [] [mkDBLink "A" "B" REFERENCE None 0].

(** A file system that holds the text the encoder wrote for a note. *)
Definition file_of (N : RNote) : string → result string :=
  λ _, Ok (export_note_to_markdown N).

(** The same file, read in text mode. *)
Definition text_file_of (N : RNote) : string → result string :=
  λ _, Ok (universal_newlines (export_note_to_markdown N)).

(** A file whose header has neither id nor title, with a heading in its
    body. *)
Definition post_without_id : Post yaml :=
  mkPost {["tags" := YStr "idea"]} ("# My Title" +:+ nl +:+ "Some text.").

Definition file_without_id : string → result string :=
  λ _, Ok (fm_dumps post_without_id).

Definition stat_5_6 : string → result (Z * Z) := λ _, Ok (5, 6).

(** Two directories that each hold a version of the note "c". *)
Definition note_old : RNote :=
  mkNote "c" "Old Version" "Old content." PERMANENT [mkTag "old"] [] 1 10 ∅.

Definition note_new : RNote :=
  mkNote "c" "New Version" "New content." PERMANENT [mkTag "new"] [] 1 20 ∅.

Definition dirs_fs (path : string) : result string :=
  if bool_decide (path = "d1/c.md") then Ok (export_note_to_markdown note_old)
  else if bool_decide (path = "d2/c.md") then Ok (export_note_to_markdown note_new)
  else Raise "No such file".

(** The clock of the examples: reading number [k] of the time gives
    [100 + k]. *)
Definition ticks (k : nat) : Z := 100 + Z.of_nat k.

(** Two directories that each hold a version of the note "t", both
    updated at 50. *)
Definition note_tie_first : RNote :=
  mkNote "t" "First" "Same text." PERMANENT [mkTag "one"] [] 1 50 ∅.

Definition note_tie_second : RNote :=
  mkNote "t" "Second" "Same text." PERMANENT [mkTag "two"] [] 1 50 ∅.

Definition tie_fs (path : string) : result string :=
  if bool_decide (path = "e1/t.md") then
    Ok (export_note_to_markdown note_tie_first)
  else if bool_decide (path = "e2/t.md") then
    Ok (export_note_to_markdown note_tie_second)
  else Raise "No such file".

Definition tie_dirs : list (option (list string)) :=
  [Some ["e1/t.md"]; Some ["e2/t.md"]].

Definition version_tie_first : RNote * string :=
  (decoded REFERENCE 0 note_tie_first, "e1/t.md").

Definition version_tie_second : RNote * string :=
  (decoded REFERENCE 0 note_tie_second, "e2/t.md").

(** Two directories that each hold a file of the note "u" whose header
    has no timestamp. *)
Definition post_early : Post yaml :=
  mkPost {["id" := YStr "u"; "title" := YStr "Early"]} "Early text.".

Definition post_late : Post yaml :=
  mkPost {["id" := YStr "u"; "title" := YStr "Late"]} "Late text.".

Definition undated_fs (path : string) : result string :=
  if bool_decide (path = "f1/u.md") then Ok (fm_dumps post_early)
  else if bool_decide (path = "f2/u.md") then Ok (fm_dumps post_late)
  else Raise "No such file".

Definition undated_dirs : list (option (list string)) :=
  [Some ["f1/u.md"]; Some ["f2/u.md"]].

Definition version_early : RNote * string :=
  (mkNote "u" "Early" "Early text." PERMANENT [] [] 100 100 ∅, "f1/u.md").

Definition version_late : RNote * string :=
  (mkNote "u" "Late" "Late text." PERMANENT [] [] 101 101 ∅, "f2/u.md").

(** A directory "notes" with the file "a.md" of the note "A" and the
    file "_index.md" of the note "B". *)
Definition notes_dir_fs (path : string) : result string :=
  if bool_decide (path = "notes/a.md") then
    Ok (export_note_to_markdown noteA)
  else if bool_decide (path = "notes/_index.md") then
    Ok (export_note_to_markdown noteB)
  else Raise "No such file".

Definition notes_dir_names : list string := ["a.md"; "_index.md"].

Lemma kinds_plain (kind : LinkType) : plain_kind (enum_value kind).
Proof. destruct kind; vm_compute; repeat split; done. Qed.

(** A file whose header has an id and no title, with a heading in its
    body. *)
Definition post_without_title : Post yaml :=
  mkPost {["id" := YStr "X"]} ("# My Title" +:+ nl +:+ "Some text.").

Definition file_without_title : string → result string :=
  λ _, Ok (fm_dumps post_without_title).

(** A store of 10001 notes with distinct ids, "n1" the most recently
    updated and "n10001" the least, and one stored link, of "n1" to
    "n10001". *)
Definition numbered (i : N) : string :=
  "n" +:+ NilEmpty.string_of_uint (N.to_uint i).

Definition numbered_row (i : N) : DBNote yaml NoteType :=
  mkDBNote (numbered i) "" "" PERMANENT 0 (20000 - Z.of_N i) ∅.

Fixpoint rows_from (i : N) (n : nat) : list (DBNote yaml NoteType) :=
  match n with
  | O => []
  | S n' => numbered_row i :: rows_from (N.succ i) n'
  end.

Definition many : nat := Z.to_nat 10000.

Definition big_db : RDB :=
  mkDB (rows_from 1 many ++ [numbered_row 10001]) [] []
       [mkDBLink (numbered 1) (numbered 10001) REFERENCE None 0].

Lemma numbered_inj (i j : N) : numbered i = numbered j → i = j.
Proof.
  intros H.
  assert (H' : NilEmpty.string_of_uint (N.to_uint i)
               = NilEmpty.string_of_uint (N.to_uint j))
    by (unfold numbered in H; by injection H).
  apply (f_equal NilEmpty.uint_of_string) in H'.
  rewrite !NilEmpty.usu in H'. injection H' as H'.
  by apply DecimalN.Unsigned.to_uint_inj.
Qed.

Lemma rows_from_length i n : length (rows_from i n) = n.
Proof.
  revert i. induction n as [|n IH]; intros i; cbn; [done | by rewrite IH].
Qed.

Lemma rows_from_elem row i n :
  row ∈ rows_from i n ↔
  ∃ k, row = numbered_row k ∧ (i ≤ k < i + N.of_nat n)%N.
Proof.
  revert i. induction n as [|n IH]; intros i; cbn [rows_from].
  - split; [by intros ?%not_elem_of_nil | intros (k & _ & Hk); lia].
  - rewrite elem_of_cons, IH. split.
    + intros [-> | (k & -> & Hk)]; [exists i | exists k]; (split; [done | lia]).
    + intros (k & -> & Hk). destruct (decide (k = i)) as [-> | Hne]; [by left |].
      right. exists k. split; [done | lia].
Qed.

Lemma rows_from_NoDup (f : DBNote yaml NoteType → string) i n :
  (∀ k, f (numbered_row k) = numbered k) → NoDup (f <$> rows_from i n).
Proof.
  intros Hf. revert i.
  induction n as [|n IH]; intros i; cbn [rows_from fmap list_fmap].
  - apply NoDup_nil_2.
  - apply NoDup_cons. split; [|apply IH].
    intros (row & Hrow & (k & -> & Hk)%rows_from_elem)%list_elem_of_fmap.
    rewrite !Hf in Hrow. apply numbered_inj in Hrow. lia.
Qed.

(** The rows of [big_db] are in the order of [list]; it loads the first
    10000 of them. *)
Lemma big_db_loaded :
  list_notes big_db 10000 0 None None
  = db_note_to_note big_db <$> rows_from 1 many.
Proof.
  unfold list_notes, limit_offset.
  change (10000 <? 0) with false. change (Z.to_nat 0) with 0%nat.
  assert (Hs : order_by_updated_desc (notes big_db) = notes big_db)
    by (vm_compute; reflexivity).
  rewrite Hs, drop_0.
  change (notes big_db) with (rows_from 1 many ++ [numbered_row 10001]).
  change (Z.to_nat 10000) with many.
  rewrite take_app_length' by (symmetry; apply rows_from_length). reflexivity.
Qed.

End Examples.

Import Ref Examples.

(** C1 on the empty store: the note "A" with a link to "B" is created
    without the link; once "B" is created and "A" updated with the same
    link, reading "A" shows it. *)
Lemma C1_witness :
  ∃ a1 db1 b db2 a2 db3 read1 read3,
    create 100 noteA db0 = Ok (a1, db1)
    ∧ read db1 "A" = Some read1
    ∧ (∀ l, l ∈ n_links read1 → target_id l ≠ "B")
    ∧ create 101 noteB db1 = Ok (b, db2)
    ∧ update 102 noteA db2 = Ok (a2, db3)
    ∧ read db3 "A" = Some read3
    ∧ stored_link 102 "A" link_to_B ∈ n_links read3.
Proof.
  apply (proj2 (proj2 (C1_links_persisted_iff_target_exists 100 noteA db0))
           noteB link_to_B 101 102).
  - reflexivity.
  - reflexivity.
  - discriminate.
  - intros r Hr. by apply not_elem_of_nil in Hr.
  - left.
  - reflexivity.
Defined.

(** C2 on the note "A", whose tags and link meet the conditions: the
    decoder reads back its id, title, kind, tags and link. *)
Lemma C2_witness :
  (∀ kind : LinkType, plain_kind (enum_value kind))
  ∧ file_of noteA "A.md" = Ok (export_note_to_markdown noteA)
  ∧ contains links_heading (n_content noteA) = false
  ∧ n_metadata noteA !! "content" = None
  ∧ n_metadata noteA !! "handler" = None
  ∧ n_id noteA ≠ ""
  ∧ Forall (λ t, tag_name_ok (tag_name t)) (n_tags noteA)
  ∧ Forall link_ok (n_links noteA)
  ∧ ∃ N',
      parse_note_from_markdown PERMANENT REFERENCE (file_of noteA) 100 "A.md"
        empty_stats = (Some N', empty_stats)
      ∧ n_id N' = "A" ∧ n_title N' = "Note A" ∧ n_note_type N' = PERMANENT
      ∧ n_tags N' = [mkTag "x"; mkTag "y"]
      ∧ Forall2 (link_read_back 100 "A") (n_links N') [link_to_B]
      ∧ n_created_at N' = 10 ∧ n_updated_at N' = 20.
Proof.
  assert (Htags : Forall (λ t, tag_name_ok (tag_name t)) (n_tags noteA)).
  { repeat constructor; vm_compute; done. }
  assert (Hlinks : Forall link_ok (n_links noteA)).
  { repeat constructor; vm_compute; done. }
  split; [apply kinds_plain |].
  split; [reflexivity |].
  split; [reflexivity |].
  split; [reflexivity |].
  split; [reflexivity |].
  split; [discriminate |].
  split; [exact Htags |].
  split; [exact Hlinks |].
  apply (C2_decode_encode_round_trip PERMANENT REFERENCE (file_of noteA) 100
           "A.md" empty_stats noteA kinds_plain);
    [reflexivity | reflexivity | reflexivity | reflexivity | discriminate
    | exact Htags | exact Hlinks].
Defined.

(** C2 fails on a note with the one tag "a,b" and a content without a
    Links heading: the decoder reads the two tags "a" and "b". *)
Lemma C2_counterexample :
  contains links_heading (n_content note_comma) = false
  ∧ ∃ N',
      parse_note_from_markdown PERMANENT REFERENCE (file_of note_comma) 100
        "C.md" empty_stats = (Some N', empty_stats)
      ∧ n_tags note_comma = [mkTag "a,b"]
      ∧ n_tags N' = [mkTag "a"; mkTag "b"].
Proof.
  split; [reflexivity |].
  eexists. split; [vm_compute; reflexivity |]. split; reflexivity.
Qed.

(** C3 on the note "A", whose encoded text has no carriage return:
    encoding what the decoder reads of the file gives the text again. *)
Lemma C3_witness :
  contains cr (export_note_to_markdown noteA) = false
  ∧ strip (post_content (export_post noteA)) = post_content (export_post noteA)
  ∧ ∃ N',
      parse_note_from_markdown PERMANENT REFERENCE (text_file_of noteA) 100
        "A.md" empty_stats = (Some N', empty_stats)
      ∧ export_note_to_markdown N' = export_note_to_markdown noteA.
Proof.
  assert (Hcr : contains cr (export_note_to_markdown noteA) = false)
    by (vm_compute; reflexivity).
  assert (Hs : strip (post_content (export_post noteA))
               = post_content (export_post noteA)) by (vm_compute; reflexivity).
  split; [exact Hcr |]. split; [exact Hs |].
  refine (proj1 (C3_encode_decode_encode PERMANENT REFERENCE
                   (text_file_of noteA) 100 "A.md" empty_stats noteA
                   eq_refl Hcr _ _ _ _ _)).
  - reflexivity.
  - reflexivity.
  - discriminate.
  - repeat constructor; vm_compute; done.
  - right. right. exact Hs.
Defined.

(** C3 fails on the note with the tag "a,b": the text encoded from what
    the decoder reads is another text. *)
Lemma C3_counterexample :
  contains links_heading (n_content note_comma) = false
  ∧ ∃ N',
      parse_note_from_markdown PERMANENT REFERENCE (text_file_of note_comma)
        100 "C.md" empty_stats = (Some N', empty_stats)
      ∧ export_note_to_markdown N' ≠ export_note_to_markdown note_comma.
Proof.
  split; [reflexivity |].
  eexists. split; [vm_compute; reflexivity |].
  vm_compute. discriminate.
Qed.

(** The text of a note with a CR LF in its content is not read back as
    it was written: the note decoded from its file has a LF there, and
    encodes to another text. *)
Lemma encode_decode_encode_crlf :
  contains links_heading (n_content note_crlf) = false
  ∧ Forall (λ t, tag_name_ok (tag_name t)) (n_tags note_crlf)
  ∧ contains cr (export_note_to_markdown note_crlf) = true
  ∧ ∃ N',
      parse_note_from_markdown PERMANENT REFERENCE (text_file_of note_crlf)
        100 "R.md" empty_stats = (Some N', empty_stats)
      ∧ n_content N' = "one" +:+ nl +:+ "two"
      ∧ export_note_to_markdown N' ≠ export_note_to_markdown note_crlf.
Proof.
  split; [reflexivity |]. split; [apply Forall_nil_2 |].
  split; [vm_compute; reflexivity |].
  eexists. split; [vm_compute; reflexivity |].
  split; [reflexivity |]. vm_compute. discriminate.
Qed.

(** C4 on two directories that each hold a version of the note "t",
    the two updated at the same time: "newest" selects the version of
    the first directory, and that is the one the store reads with
    afterwards. *)
Lemma C4_witness :
  let all_notes :=
    (collect_versions PERMANENT REFERENCE tie_fs ticks tie_dirs empty_stats).1.1 in
  let db' :=
    (merge_imports PERMANENT REFERENCE tie_fs ticks tie_dirs "newest"
       (db0, empty_stats)).2.1 in
  all_notes !! 0%nat = Some ("t", [version_tie_first; version_tie_second])
  ∧ n_updated_at version_tie_first.1 = n_updated_at version_tie_second.1
  ∧ n_title version_tie_first.1 ≠ n_title version_tie_second.1
  ∧ (resolve_conflicts "newest" all_notes).1 !! 0%nat = Some version_tie_first.1
  ∧ ∃ stored, read db' "t" = Some stored ∧ n_title stored = "First".
Proof.
  intros all_notes db'.
  assert (Hi : all_notes !! 0%nat
               = Some ("t", [version_tie_first; version_tie_second]))
    by (vm_compute; reflexivity).
  assert (Hs : select_version "newest" version_tie_first [version_tie_second]
               = version_tie_first) by (vm_compute; reflexivity).
  assert (Hnd : NoDup (tag_name <$> n_tags version_tie_first.1))
    by (apply (bool_decide_unpack _); vm_compute; exact I).
  split; [exact Hi |]. split; [reflexivity |]. split; [discriminate |].
  destruct (C4_merge_strategy_selects_earliest PERMANENT REFERENCE tie_fs ticks
              tie_dirs db0 empty_stats "newest" 0 "t" version_tie_first
              [version_tie_second] Hi)
    as (_ & _ & Hsel & _ & _ & _ & _ & Hst).
  rewrite Hs in Hsel, Hst. split; [exact Hsel |].
  destruct (Hst empty_store_ok Hnd) as (stored & Hread & Htitle & _).
  exists stored. split; [exact Hread | exact Htitle].
Defined.

(** C5 on the store of the one note "A": it is deleted, is absent
    afterwards, and a second delete raises the error. *)
Lemma C5_witness :
  ∃ db', delete "A" dbA = Ok db'
    ∧ read db' "A" = None
    ∧ delete "A" db' = Raise "Note with ID A does not exist".
Proof.
  exists db0. split; [reflexivity |].
  apply (C5_create_delete_errors 0 noteA dbA "A"). reflexivity.
Defined.

(** C6 on a file without id and title, whose body starts with the
    heading "# My Title": through the migrator's decoder the id is the
    stem of the file name, the title what follows the marker, and the
    one warning is that of the id; the importer's decoder yields no
    note. *)
Lemma C6_witness :
  let r :=
    migrate_parse_note_from_markdown PERMANENT REFERENCE file_without_id stat_5_6
      0 "notes/idea.md" (mkReport 0 0 0 [] []) in
  fm_loads (fm_dumps post_without_id) = Ok post_without_id
  ∧ post_metadata post_without_id !! "id" = None
  ∧ post_metadata post_without_id !! "title" = None
  ∧ first_heading (split_char "010" (strip (post_content post_without_id)))
      (Some "# My Title")
  ∧ (∃ note,
       r.1 = Some note
       ∧ n_id note = "idea"
       ∧ n_title note = "My Title"
       ∧ n_created_at note = 5
       ∧ n_updated_at note = 6)
  ∧ r_warnings r.2 = [no_id_warning "notes/idea.md"]
  ∧ parse_note_from_markdown PERMANENT REFERENCE file_without_id 1
      "notes/idea.md" empty_stats
    = (None, add_warning empty_stats "No ID in notes/idea.md, skipping").
Proof.
  intros r.
  assert (Hl : fm_loads (fm_dumps post_without_id) = Ok post_without_id)
    by (vm_compute; reflexivity).
  assert (Hid : post_metadata post_without_id !! "id" = None) by reflexivity.
  assert (Ht : post_metadata post_without_id !! "title" = None) by reflexivity.
  assert (Hfound : first_heading
                     (split_char "010" (strip (post_content post_without_id)))
                     (Some "# My Title")).
  { exists [], ["Some text."]. split; [reflexivity |].
    split; [apply Forall_nil_2 | reflexivity]. }
  split; [exact Hl |]. split; [exact Hid |]. split; [exact Ht |].
  split; [exact Hfound |].
  pose proof (C6_decoder_fallbacks PERMANENT REFERENCE file_without_id
                stat_5_6 0 1 "notes/idea.md" (fm_dumps post_without_id)
                post_without_id (mkReport 0 0 0 [] []) empty_stats
                (Some "# My Title") eq_refl Hl Hfound (or_introl Hid)
                (or_introl Ht)) as H.
  cbv zeta in H. fold r in H.
  change (timestamp_or (post_metadata post_without_id) "created" _)
    with (Ok 5 : result Z) in H.
  change (timestamp_or (post_metadata post_without_id) "updated" _)
    with (Ok 6 : result Z) in H.
  destruct H as ((note & Hr & Hnid & Htitle & _ & Hc & Hu) & Hw & Himp).
  split; [|split; [exact Hw | exact (Himp Hid)]].
  exists note. split; [exact Hr |]. split; [exact Hnid |].
  split; [exact Htitle |]. split; [exact Hc | exact Hu].
Defined.

(** C6 fails for the importer's decoder: on the file without id it
    yields no note, and on a file with an id and no title it takes
    "Untitled Note <id>" although the body has a heading, and records no
    warning. *)
Lemma C6_counterexample :
  parse_note_from_markdown PERMANENT REFERENCE file_without_id 0 "notes/idea.md"
    empty_stats
  = (None, add_warning empty_stats "No ID in notes/idea.md, skipping")
  ∧ ∃ N',
      parse_note_from_markdown PERMANENT REFERENCE file_without_title 0
        "notes/X.md" empty_stats = (Some N', empty_stats)
      ∧ title_from_heading (post_content post_without_title) = "My Title"
      ∧ n_title N' = "Untitled Note X".
Proof.
  split; [vm_compute; reflexivity |].
  eexists. split; [vm_compute; reflexivity |]. split; vm_compute; reflexivity.
Qed.

(** C7 on the file without id: nothing is stored, one failure is
    counted and the warning holds "No ID". *)
Lemma C7_witness :
  file_without_id "notes/idea.md" = Ok (fm_dumps post_without_id)
  ∧ fm_loads (fm_dumps post_without_id) = Ok post_without_id
  ∧ post_metadata post_without_id !! "id" = None
  ∧ import_single_file PERMANENT REFERENCE file_without_id 0 "notes/idea.md"
      false (dbA, empty_stats)
    = (false, (dbA, mkStats 0 0 0 0 1 ["No ID in notes/idea.md, skipping"]))
  ∧ contains "No ID" "No ID in notes/idea.md, skipping" = true.
Proof.
  assert (Hl : fm_loads (fm_dumps post_without_id) = Ok post_without_id)
    by (vm_compute; reflexivity).
  split; [reflexivity |]. split; [exact Hl |]. split; [reflexivity |].
  destruct (C7_import_file_without_id PERMANENT REFERENCE file_without_id 0
              "notes/idea.md" (fm_dumps post_without_id) post_without_id false
              dbA empty_stats [] [] eq_refl Hl eq_refl)
    as (Hone & Hwarn & _).
  split; [exact Hone | exact Hwarn].
Defined.

(** [validate_links] on the store of the note "A" with a stored link to
    the missing "B": the mapping is that entry, and it is empty once "B"
    is created and "A" updated with the link. *)
Lemma validate_links_small_store :
  NoDup (note_ids db_dangling)
  ∧ Z.of_nat (length (notes db_dangling)) ≤ 10000
  ∧ validate_links db_dangling = {["A" := ["B"]]}
  ∧ ∃ b db2 a db3,
      create 101 noteB db_dangling = Ok (b, db2)
      ∧ update 102 noteA db2 = Ok (a, db3)
      ∧ link_row 102 "A" link_to_B ∈ links db3
      ∧ validate_links db3 = ∅.
Proof.
  assert (Hnd : NoDup (note_ids db_dangling)).
  { apply NoDup_cons. split; [apply not_elem_of_nil | apply NoDup_nil_2]. }
  assert (Hlen : Z.of_nat (length (notes db_dangling)) ≤ 10000) by (cbn; lia).
  split; [exact Hnd |]. split; [exact Hlen |].
  apply (proj2 (proj2 (validate_links_reports_dangling db_dangling Hnd Hlen))
           rowA (mkDBLink "A" "B" REFERENCE None 0) noteB noteA link_to_B
           101 102);
    [reflexivity | reflexivity | reflexivity | reflexivity | discriminate
    | reflexivity | reflexivity | reflexivity].
Defined.

(** C8 at a store of 10001 notes with distinct ids and one link, of the
    most recently updated note "n1" to the least recently updated one,
    "n10001": the target of every stored link is a note of the store,
    yet [validate_links], which loads 10000 notes, reports the link as
    dangling. *)
Lemma C8_validate_links_beyond_limit :
  NoDup (note_ids big_db)
  ∧ (∀ r, r ∈ links big_db → dl_target_id r ∈ note_ids big_db)
  ∧ validate_links big_db !! "n1" = Some ["n10001"].
Proof.
  split; [|split].
  - unfold note_ids.
    change (notes big_db) with (rows_from 1 many ++ [numbered_row 10001]).
    rewrite fmap_app. apply NoDup_app. split; [|split].
    + by apply rows_from_NoDup.
    + intros x (row & -> & (k & -> & Hk)%rows_from_elem)%list_elem_of_fmap
        Hx%list_elem_of_singleton.
      apply numbered_inj in Hx. unfold many in Hk. lia.
    + apply NoDup_singleton.
  - intros r Hr. apply list_elem_of_singleton in Hr. subst r.
    unfold note_ids.
    change (notes big_db) with (rows_from 1 many ++ [numbered_row 10001]).
    rewrite fmap_app. apply elem_of_app. right. apply list_elem_of_singleton.
    reflexivity.
  - pose proof (validate_links_loaded big_db
                  (db_note_to_note big_db (numbered_row 1))) as Hv.
    cbv zeta in Hv. rewrite big_db_loaded in Hv.
    rewrite <- list_fmap_compose in Hv.
    change (n_id (db_note_to_note big_db (numbered_row 1))) with "n1" in Hv.
    assert (Hl : target_id <$> n_links (db_note_to_note big_db (numbered_row 1))
                 = ["n10001"]).
    { unfold db_note_to_note. cbn [n_links].
      change (links big_db)
        with [mkDBLink (numbered 1) (numbered 10001) REFERENCE None 0].
      reflexivity. }
    rewrite Hl in Hv.
    assert (Hout : "n10001" ∉ (list_to_set
              ((n_id ∘ db_note_to_note big_db) <$> rows_from 1 many)
              : gset string)).
    { rewrite elem_of_list_to_set.
      intros (row & Hrow & (k & -> & Hk)%rows_from_elem)%list_elem_of_fmap.
      change (numbered 10001 = numbered k) in Hrow.
      apply numbered_inj in Hrow. unfold many in Hk. lia. }
    rewrite (filter_all _ ["n10001"]) in Hv
      by (by intros x ->%list_elem_of_singleton).
    apply Hv; [| | done].
    + by apply rows_from_NoDup.
    + apply list_elem_of_fmap. exists (numbered_row 1). split; [done |].
      apply rows_from_elem. exists 1%N. split; [done |]. unfold many. lia.
Qed.

(** C9 on the store of the note "A": the update stores the time of the
    call, not the [updated_at] of the note, and keeps [created_at]. *)
Lemma C9_witness :
  find_note dbA "A" = Some rowA
  ∧ ∃ note db' stored,
      update 100 noteA dbA = Ok (note, db')
      ∧ read db' "A" = Some stored
      ∧ n_updated_at stored = 100
      ∧ n_created_at stored = 1
      ∧ n_updated_at note = 100
      ∧ n_created_at note = 1.
Proof.
  split; [reflexivity |].
  apply (proj1 (C9_update_overwrites_updated_at PERMANENT REFERENCE 100 noteA dbA)
           rowA).
  reflexivity.
Defined.

(** C10 on the store of the note "A", whose title has no percent sign:
    with the title flag, [search("%")] returns it. On the store of the
    note whose title is U+0000, not empty, [search("_")] with the title
    flag returns nothing. *)
Lemma C10_witness :
  contains "%" (db_title rowA) = false
  ∧ search dbA "%" 50 true false false = list_notes dbA 50 0 None None
  ∧ list_notes dbA 50 0 None None = [db_note_to_note dbA rowA]
  ∧ db_title row_nul ≠ ""
  ∧ (row_nul ∉ filter (λ row, existsb (λ c, c row)
                                (search_conditions db_nul "_" true false false)
                              = true)
                      (notes db_nul))
  ∧ search db_nul "_" 50 true false false = [].
Proof.
  split; [reflexivity |].
  split; [apply (C10_search_wildcards dbA 50 true false false); by left |].
  split; [vm_compute; reflexivity |]. split; [discriminate |].
  split; [| vm_compute; reflexivity].
  intros Hin.
  apply (proj2 (proj2 (C10_search_wildcards db_nul 50 true false false
                         (or_introl eq_refl)))) in Hin
    as (_ & a & t & Htitle & Hne).
  injection Htitle as <- _. by apply Hne.
Defined.

(** C10 fails with the tag flag alone on a store whose one note has no
    tag: [search("%")] returns nothing. *)
Lemma C10_counterexample :
  notes dbA = [rowA] ∧ search dbA "%" 50 false false true = [].
Proof. split; [reflexivity | vm_compute; reflexivity]. Qed.

(** The constraints on the store after its first note: the empty store
    meets them, and so does the store once "A" is created. *)
Lemma create_update_keep_constraints_witness :
  store_ok db0
  ∧ ∃ a db1, create 100 noteA db0 = Ok (a, db1) ∧ store_ok db1.
Proof.
  split; [apply empty_store_ok |].
  eexists _, _. split; [reflexivity |].
  eapply (create_update_keep_constraints 100 noteA _ db0);
    [apply empty_store_ok | left; reflexivity].
Defined.

(** The store built by creating "A" (with its link to the absent "B")
    and then "B": it is reachable, and the check of the links finds
    nothing. *)
Lemma reachable_store_has_no_dangling_link_witness :
  ∃ a db1 b db2,
    create 100 noteA db0 = Ok (a, db1)
    ∧ create 101 noteB db1 = Ok (b, db2)
    ∧ reachable db2
    ∧ validate_links db2 = ∅.
Proof.
  eexists _, _, _, _. split; [reflexivity |]. split; [reflexivity |].
  match goal with |- reachable ?db ∧ _ =>
    assert (Hr : reachable db)
  end.
  { eapply rtc_l; [by eapply (step_create db0 100 noteA) |].
    eapply rtc_l; [by eapply (step_create _ 101 noteB) |].
    apply rtc_refl. }
  split; [exact Hr |].
  apply (proj2 (reachable_store_has_no_dangling_link _ Hr)).
  vm_compute. discriminate.
Defined.

(** Updating the stored note "A" with [noteA]: it reads back with the
    title, the content, the kind and the two tags of [noteA]. *)
Lemma update_replaces_note_witness :
  NoDup (tag_name <$> n_tags noteA)
  ∧ ∃ a db1,
      update 100 noteA dbA = Ok (a, db1)
      ∧ read db1 "A" = Some a
      ∧ n_title a = "Note A"
      ∧ n_tags a = [mkTag "x"; mkTag "y"].
Proof.
  assert (Hnd : NoDup (tag_name <$> n_tags noteA))
    by (apply (bool_decide_unpack _); vm_compute; exact I).
  split; [exact Hnd |].
  eexists _, _. split; [reflexivity |].
  destruct (update_replaces_note 100 noteA _ dbA _ Hnd eq_refl)
    as (Hread & Htitle & _ & _ & _ & Htags & _).
  split; [exact Hread |]. split; [exact Htitle | exact Htags].
Defined.

(** Creating "A" in the empty store: it reads back with its title and
    tags and without its link, whose target "B" is not stored. *)
Lemma create_then_read_witness :
  store_ok db0
  ∧ NoDup (tag_name <$> n_tags noteA)
  ∧ ∃ a db1,
      create 100 noteA db0 = Ok (a, db1)
      ∧ read db1 "A" = Some a
      ∧ n_title a = "Note A"
      ∧ n_tags a = [mkTag "x"; mkTag "y"]
      ∧ n_links a = [].
Proof.
  assert (Hnd : NoDup (tag_name <$> n_tags noteA))
    by (apply (bool_decide_unpack _); vm_compute; exact I).
  split; [apply empty_store_ok |]. split; [exact Hnd |].
  eexists _, _. split; [reflexivity |].
  destruct (create_then_read 100 noteA _ db0 _ empty_store_ok Hnd eq_refl)
    as (Hread & Htitle & _ & _ & _ & Htags & Hlinks & _).
  split; [exact Hread |]. split; [exact Htitle |]. split; [exact Htags |].
  rewrite Hlinks. reflexivity.
Defined.

(** Two pages of three and four notes from the second note on are the
    page of seven, in the store of 10001 notes. *)
Lemma list_pages_compose_witness :
  0 ≤ 3 ∧ 0 ≤ 4 ∧ 0 ≤ 1
  ∧ list_notes big_db 3 1 None None ++ list_notes big_db 4 (1 + 3) None None
    = list_notes big_db (3 + 4) 1 None None.
Proof.
  split; [lia |]. split; [lia |]. split; [lia |].
  apply (list_pages_compose big_db 3 4 1 None None); lia.
Defined.

(** A file that cannot be opened: the decoder yields nothing, the
    import fails and leaves the store "A" as it is. *)
Lemma import_unreadable_file_witness :
  dirs_fs "d3/x.md" = Raise "No such file"
  ∧ import_single_file PERMANENT REFERENCE dirs_fs 0 "d3/x.md" true
      (dbA, empty_stats)
    = (false,
       (dbA, mkStats 0 0 0 0 1 ["Failed to parse d3/x.md: No such file"])).
Proof.
  split; [reflexivity |].
  apply (proj2 (import_unreadable_file PERMANENT REFERENCE dirs_fs 0
                  "d3/x.md" "No such file" true dbA empty_stats
                  (or_introl eq_refl))).
Defined.

(** A file whose header has the id "X" and nothing else: the decoder
    names the note "Untitled Note X", of kind PERMANENT, created and
    updated at the time of the call, without tags and without warning. *)
Lemma importer_decoder_defaults_witness :
  fm_loads (fm_dumps post_without_title) = Ok post_without_title
  ∧ post_metadata post_without_title !! "id" = Some (VStr "X")
  ∧ ∃ note,
      (parse_note_from_markdown PERMANENT REFERENCE file_without_title 7
         "X.md" empty_stats).1 = Some note
      ∧ n_id note = "X"
      ∧ n_title note = "Untitled Note X"
      ∧ n_note_type note = PERMANENT
      ∧ n_created_at note = 7
      ∧ n_updated_at note = 7
      ∧ n_tags note = [].
Proof.
  assert (Hl : fm_loads (fm_dumps post_without_title) = Ok post_without_title)
    by (vm_compute; reflexivity).
  assert (Hid0 : post_metadata post_without_title !! "id" = Some (VStr "X"))
    by reflexivity.
  assert (Ht0 : post_metadata post_without_title !! "title" = None)
    by reflexivity.
  assert (Hc0 : timestamp_or (post_metadata post_without_title) "created"
                  (Ok 7) = Ok 7) by reflexivity.
  assert (Hu0 : post_metadata post_without_title !! "updated" = None)
    by reflexivity.
  split; [exact Hl |]. split; [exact Hid0 |].
  destruct (importer_decoder_defaults PERMANENT REFERENCE file_without_title 7
              "X.md" (fm_dumps post_without_title) post_without_title
              empty_stats "X" 7 eq_refl Hl Hid0 eq_refl (or_introl Ht0)
              Hc0 Hu0)
    as (note & Hn & Hid & Htitle & Hkind & Hc & Hu & _ & Htags & _).
  exists note. split; [exact Hn |]. split; [exact Hid |].
  split; [exact Htitle |]. split; [exact Hkind |]. split; [exact Hc |].
  split; [exact Hu |]. exact (Htags eq_refl).
Defined.

(** A bullet of the kind "related" (no kind that the program knows)
    reads as a link of the kind REFERENCE. *)
Lemma bullet_kind_defaults_to_reference_witness :
  plain_kind "related"
  ∧ stripped "B"
  ∧ extract_links_from_content REFERENCE 5 "A"
      (links_heading +:+ nl +:+ "- related [[B]]")
    = [mkLink "A" "B" REFERENCE (Some "") (Some 5)].
Proof.
  assert (Hk : plain_kind "related")
    by (apply (bool_decide_unpack _); vm_compute; exact I).
  assert (Hs : stripped "B") by (split; reflexivity).
  split; [exact Hk |]. split; [exact Hs |].
  pose proof (bullet_kind_defaults_to_reference REFERENCE 5 "A" "related" "B"
                Hk Hs eq_refl eq_refl) as H.
  vm_compute in H. vm_compute. exact H.
Defined.

(** Merging the two directories with the two files of "u", whose
    headers have no timestamp, into the empty store, the newest to win:
    the file of the second directory is parsed later, and "u" reads with
    its title. *)
Lemma merge_imports_stores_selected_witness :
  let all_notes :=
    (collect_versions PERMANENT REFERENCE undated_fs ticks undated_dirs
       empty_stats).1.1 in
  let db' :=
    (merge_imports PERMANENT REFERENCE undated_fs ticks undated_dirs "newest"
       (db0, empty_stats)).2.1 in
  store_ok db0
  ∧ all_notes !! 0%nat = Some ("u", [version_early; version_late])
  ∧ select_version "newest" version_early [version_late] = version_late
  ∧ ∃ stored,
      read db' "u" = Some stored
      ∧ n_title stored = "Late"
      ∧ n_content stored = "Late text.".
Proof.
  intros all_notes db'.
  assert (Hi : all_notes !! 0%nat = Some ("u", [version_early; version_late]))
    by (vm_compute; reflexivity).
  assert (Hs : select_version "newest" version_early [version_late]
               = version_late) by (vm_compute; reflexivity).
  assert (Hnd : NoDup (tag_name
                         <$> n_tags (select_version "newest" version_early
                                       [version_late]).1))
    by (rewrite Hs; apply NoDup_nil_2).
  split; [apply empty_store_ok |]. split; [exact Hi |]. split; [exact Hs |].
  destruct (merge_imports_stores_selected PERMANENT REFERENCE undated_fs ticks
              undated_dirs "newest" db0 empty_stats 0 "u" version_early
              [version_late] empty_store_ok Hi Hnd)
    as (stored & Hread & Htitle & Hcontent & _).
  rewrite Hs in Htitle, Hcontent.
  exists stored. split; [exact Hread |]. split; [exact Htitle | exact Hcontent].
Defined.

(** Importing the directory "notes", which holds "a.md" and
    "_index.md", into the empty store: one file is counted and handled,
    and the store holds the note "A" of "a.md" and not the note "B" of
    "_index.md". *)
Lemma import_directory_accounts_witness :
  let r :=
    import_directory PERMANENT REFERENCE notes_dir_fs 100
      ((λ name, "notes" +:+ "/" +:+ name) <$> notes_dir_names) false
      (db0, empty_stats) in
  Forall (λ name, contains "/" name = false) notes_dir_names
  ∧ notes_dir_fs "notes/_index.md" = Ok (export_note_to_markdown noteB)
  ∧ total_files r.2 = 1%nat
  ∧ handled r.2 = 1%nat
  ∧ note_ids r.1 = ["A"].
Proof.
  intros r.
  assert (Hnames : Forall (λ name, contains "/" name = false) notes_dir_names)
    by (repeat constructor).
  split; [exact Hnames |]. split; [reflexivity |].
  destruct (import_directory_accounts PERMANENT REFERENCE notes_dir_fs 100
              "notes" notes_dir_names false db0 empty_stats Hnames)
    as (Htotal & Hhandled & _).
  split; [exact Htotal |]. split; [exact Hhandled |].
  vm_compute. reflexivity.
Defined.

(** Updating the note "B", which the store of "A" does not hold:
    [update] raises with the not-found message. *)
Lemma update_raises_iff_absent_witness :
  NoDup (tag_name <$> n_tags noteB)
  ∧ update 100 noteB dbA = Raise "Note with ID B not found".
Proof.
  assert (Hnd : NoDup (tag_name <$> n_tags noteB)) by apply NoDup_nil_2.
  split; [exact Hnd |].
  destruct (update_raises_iff_absent 100 noteB dbA Hnd) as (Hiff & Hmsg & _).
  assert (Habsent : n_id noteB ∉ note_ids dbA)
    by (apply (bool_decide_unpack _); vm_compute; exact I).
  destruct (proj2 Hiff Habsent) as [msg Hm].
  rewrite Hm. f_equal. exact (Hmsg msg Hm).
Defined.

(** Exporting the store of "A" with a batch size of zero: the
    directory is made, and the loop has not ended after a thousand
    tests of its condition. *)
Lemma export_all_notes_batch_not_positive_witness :
  0 ≤ 0
  ∧ (Disk.mkdir "out" ∅).2 = None
  ∧ export_all_notes Disk.write_text Disk.mkdir Disk.path_join
      Disk.markdown_of Disk.export_json 1000 dbA 7 "out" 0
      (∅, mkExportStats 0 0 0 [])
    = None.
Proof.
  split; [lia |]. split; [reflexivity |].
  apply (export_all_notes_batch_not_positive Disk.write_text Disk.mkdir
           Disk.path_join Disk.markdown_of Disk.export_json 1000 dbA 7 "out" 0
           ∅ (mkExportStats 0 0 0 []));
    [lia | reflexivity].
Defined.

(** Exporting the notes of the kind "fleeting" from the store of "A":
    one note is selected and dealt with, and no warning is recorded. *)
Lemma export_by_criteria_counts_witness :
  let r :=
    export_by_criteria Disk.write_text Disk.mkdir Disk.path_join
      Disk.markdown_of dbA "out" (mkCriteria None (Some "fleeting") None)
      (∅, mkExportStats 0 0 0 []) in
  (Disk.mkdir "out" ∅).2 = None
  ∧ e_total_notes r.1.2 = 1%nat
  ∧ dealt_with r.1.2 = 1%nat
  ∧ e_warnings r.1.2 = [].
Proof.
  intros r.
  pose proof (export_by_criteria_counts Disk.write_text Disk.mkdir
                Disk.path_join Disk.markdown_of dbA "out"
                (mkCriteria None (Some "fleeting") None) ∅
                (mkExportStats 0 0 0 []) eq_refl) as H.
  assert (Hsel : ∃ note,
             selected_notes dbA (mkCriteria None (Some "fleeting") None)
             = Some [note])
    by (eexists; vm_compute; reflexivity).
  destruct Hsel as [note Hsel]. rewrite Hsel in H.
  destruct H as (_ & Htotal & Hdealt & Hwarn & _).
  split; [reflexivity |]. split; [exact Htotal |].
  split; [exact Hdealt | exact Hwarn].
Defined.

(** The note "A" exported from its store and imported from that file
    into the empty store: it is created there with its title and its
    content. *)
Lemma export_then_import_witness :
  ∃ note files',
    read dbA "A" = Some note
    ∧ contains cr (export_note_to_markdown note) = false
    ∧ export_single_note Disk.write_text Disk.path_join Disk.markdown_of
        dbA "A" "out" ∅ = (true, files')
    ∧ ∃ db2' stored,
        import_single_file PERMANENT REFERENCE (Disk.read_text files') 9
          (Disk.path_join "out" ("A" +:+ ".md")) false (db0, empty_stats)
        = (true, (db2', incr_imported empty_stats))
        ∧ read db2' "A" = Some stored
        ∧ n_title stored = n_title note
        ∧ n_created_at stored = n_created_at note.
Proof.
  eexists _, _. split; [reflexivity |].
  assert (Hcr : contains cr (export_note_to_markdown (db_note_to_note dbA rowA))
                = false) by (vm_compute; reflexivity).
  split; [exact Hcr |]. split; [reflexivity |].
  match goal with
  | |- ∃ db2' stored,
         import_single_file _ _ (Disk.read_text ?files') _ _ _ _ = _ ∧ _ =>
      destruct (export_then_import PERMANENT REFERENCE Disk.write_text
                  Disk.path_join Disk.read_text Disk.markdown_of dbA "A" "out"
                  ∅ files' 8 9 false db0 empty_stats
                  (db_note_to_note dbA rowA) kinds_plain eq_refl
                  Disk.read_written Hcr eq_refl eq_refl)
        as (db2' & stored & Himport & Hread & Htitle & _ & _ & Hcreated & _)
  end.
  - reflexivity.
  - reflexivity.
  - reflexivity.
  - discriminate.
  - apply Forall_nil_2.
  - apply NoDup_nil_2.
  - apply Forall_nil_2.
  - apply empty_store_ok.
  - apply not_elem_of_nil.
  - exists db2', stored. split; [exact Himport |]. split; [exact Hread |].
    split; [exact Htitle | exact Hcreated].
Defined.

(** The file "notes/idea.md", whose header has no id, migrated into the
    empty store: the call counts one migration, a successful one. *)
Lemma migrate_note_accounts_witness :
  let r :=
    migrate_note PERMANENT REFERENCE file_without_id stat_5_6 0
      "notes/idea.md" (db0, mkMigration (mkReport 0 0 0 [] []) []) in
  r.1 = true
  ∧ counted r.2.2 = 1%nat
  ∧ r_successful_migrations (mg_report r.2.2) = 1%nat.
Proof.
  intros r.
  assert (Hflag : r.1 = true) by (vm_compute; reflexivity).
  destruct (migrate_note_accounts PERMANENT REFERENCE file_without_id stat_5_6
              0 "notes/idea.md" db0 (mkMigration (mkReport 0 0 0 [] []) []))
    as (Hcounted & _ & _ & Hiff & _).
  - intros note Hnote. vm_compute in Hnote. injection Hnote as <-.
    apply (bool_decide_unpack _). vm_compute. exact I.
  - split; [exact Hflag |]. split; [exact Hcounted |].
    exact (proj1 Hiff Hflag).
Defined.

(** The file "notes/idea.md" migrated a second time: the call returns
    [False], leaves the store as it is and records that the note "idea"
    exists. *)
Lemma migrate_note_again_witness :
  let first :=
    migrate_note PERMANENT REFERENCE file_without_id stat_5_6 0
      "notes/idea.md" (db0, mkMigration (mkReport 0 0 0 [] []) []) in
  let second :=
    migrate_note PERMANENT REFERENCE file_without_id stat_5_6 9
      "notes/idea.md" first.2 in
  first.1 = true
  ∧ second.1 = false
  ∧ second.2.1 = first.2.1
  ∧ last (r_errors (mg_report second.2.2))
    = Some ("notes/idea.md", "Note with ID idea already exists").
Proof.
  intros first second.
  assert (Hflag : first.1 = true) by (vm_compute; reflexivity).
  destruct (migrate_note_again PERMANENT REFERENCE file_without_id stat_5_6
              0 9 "notes/idea.md" db0 (mkMigration (mkReport 0 0 0 [] []) [])
              first.2.1 first.2.2 Hflag (λ id Hid, Hid))
    as (id & title & Hlast & Hsecond & Hstore & Herror).
  assert (Hid : id = "idea").
  { vm_compute in Hlast. by injection Hlast. }
  subst id.
  assert (Hst : first.2 = (first.2.1, first.2.2)) by (by destruct first.2).
  subst second. rewrite Hst.
  split; [exact Hflag |]. split; [exact Hsecond |].
  split; [exact Hstore | exact Herror].
Defined.

(** The note the migrator reads from "notes/idea.md" carries the path
    of the file in its metadata, and the header the encoder writes for
    it does not. *)
Lemma migration_record_is_not_exported_witness :
  ∃ note,
    (migrate_parse_note_from_markdown PERMANENT REFERENCE file_without_id
       stat_5_6 0 "notes/idea.md" (mkReport 0 0 0 [] [])).1 = Some note
    ∧ n_metadata note !! "migrated_from" = Some (VStr "notes/idea.md")
    ∧ post_metadata (export_post note) !! "migrated_from" = None.
Proof.
  assert (Hp : ∃ note,
             (migrate_parse_note_from_markdown PERMANENT REFERENCE
                file_without_id stat_5_6 0 "notes/idea.md"
                (mkReport 0 0 0 [] [])).1 = Some note)
    by (eexists; vm_compute; reflexivity).
  destruct Hp as [note Hp]. exists note. split; [exact Hp |].
  destruct (migration_record_is_not_exported PERMANENT REFERENCE
              file_without_id stat_5_6 0 "notes/idea.md" (mkReport 0 0 0 [] [])
              note Hp) as (Hfrom & _ & _ & Hheader & _).
  split; [exact Hfrom | exact Hheader].
Defined.

(** The directory with the one file "notes/idea.md" migrated into the
    empty store: nothing fails, and the verification finds nothing. *)
Lemma verification_after_migration_witness :
  let st :=
    migrate_files PERMANENT REFERENCE file_without_id stat_5_6 0
      ["notes/idea.md"] (db0, mkMigration (mkReport 0 0 0 [] []) []) in
  r_failed_migrations (mg_report st.2) = 0%nat
  ∧ (verify_migration PERMANENT REFERENCE file_without_id stat_5_6 9
       ["notes/idea.md"] st.1 (mg_report st.2)).1 = (true, []).
Proof.
  intros st.
  assert (Hfailed : r_failed_migrations (mg_report st.2) = 0%nat)
    by (vm_compute; reflexivity).
  split; [exact Hfailed |].
  refine (proj1 (verification_after_migration PERMANENT REFERENCE
                   file_without_id stat_5_6 0 9 ["notes/idea.md"] db0
                   (mkMigration (mkReport 0 0 0 [] []) [])
                   empty_store_ok eq_refl _ Hfailed)).
  intros f note report ->%list_elem_of_singleton Hnote.
  rewrite (migrate_parse_report PERMANENT REFERENCE file_without_id stat_5_6 0
             "notes/idea.md" report (mkReport 0 0 0 [] [])) in Hnote.
  vm_compute in Hnote. injection Hnote as <-.
  apply (bool_decide_unpack _). vm_compute. exact I.
Defined.
